(** * DeepHit-CR: the repeated cross-validation pipeline of [DeppHit.ipynb]

    A shallow embedding of the script: the fold loop, the grid search, the
    prediction table, the integrated Brier score and the confidence-interval
    aggregator.  The numerical libraries the script calls (scikit-learn,
    pycox, torch, scipy) are collaborators with a fixed interface; what the
    script itself does with their results (indexing, in-place assignment,
    comparison, arithmetic on the results) is modelled line by line. *)

From Stdlib Require Import QArith ZArith Lia Lqa.
From stdpp Require Import base list strings pretty.

Local Open Scope Z_scope.

(** ** Python floats

    A float is a rational, an infinity or NaN.  Finite arithmetic is exact
    (rounding is outside the model) and zero has no sign; the special values
    follow IEEE 754 as numpy applies it: division by zero yields an infinity
    or NaN instead of raising, and every comparison with NaN is false. *)

Module PyFloat.

Inductive pyfloat : Type :=
| Finite (q : Q)
| PosInf
| NegInf
| NaN.

Definition of_Z (z : Z) : pyfloat := Finite (inject_Z z).
Definition of_nat (n : nat) : pyfloat := of_Z (Z.of_nat n).

Definition fneg (x : pyfloat) : pyfloat :=
  match x with
  | Finite q => Finite (- q)
  | PosInf => NegInf
  | NegInf => PosInf
  | NaN => NaN
  end.

Definition fadd (x y : pyfloat) : pyfloat :=
  match x, y with
  | NaN, _ | _, NaN => NaN
  | Finite a, Finite b => Finite (a + b)
  | PosInf, NegInf | NegInf, PosInf => NaN
  | PosInf, _ | _, PosInf => PosInf
  | NegInf, _ | _, NegInf => NegInf
  end.

Definition fsub (x y : pyfloat) : pyfloat := fadd x (fneg y).

(** The infinity with the sign of [c], NaN when [c] is zero. *)
Definition inf_of_sign (c : comparison) : pyfloat :=
  match c with
  | Gt => PosInf
  | Lt => NegInf
  | Eq => NaN
  end.

Definition fsign (x : pyfloat) : comparison :=
  match x with
  | Finite q => (q ?= 0)%Q
  | PosInf => Gt
  | NegInf => Lt
  | NaN => Eq
  end.

Definition fmul (x y : pyfloat) : pyfloat :=
  match x, y with
  | NaN, _ | _, NaN => NaN
  | Finite a, Finite b => Finite (a * b)
  | PosInf, _ => inf_of_sign (fsign y)
  | NegInf, _ => inf_of_sign (CompOpp (fsign y))
  | _, PosInf => inf_of_sign (fsign x)
  | _, NegInf => inf_of_sign (CompOpp (fsign x))
  end.

(** numpy's [float64] division: [x / 0] is an infinity for [x <> 0] and NaN
    for [0 / 0]; no exception is raised. *)
Definition fdiv (x y : pyfloat) : pyfloat :=
  match x, y with
  | NaN, _ | _, NaN => NaN
  | Finite a, Finite b =>
      match (b ?= 0)%Q with
      | Eq => inf_of_sign (a ?= 0)%Q
      | _ => Finite (a / b)
      end
  | Finite _, _ => Finite 0
  | _, PosInf | _, NegInf => NaN
  | PosInf, Finite b =>
      match (b ?= 0)%Q with Lt => NegInf | _ => PosInf end
  | NegInf, Finite b =>
      match (b ?= 0)%Q with Lt => PosInf | _ => NegInf end
  end.

(** [x > y]; false as soon as one side is NaN. *)
Definition fgtb (x y : pyfloat) : bool :=
  match x, y with
  | NaN, _ | _, NaN => false
  | Finite a, Finite b => match (a ?= b)%Q with Gt => true | _ => false end
  | PosInf, PosInf => false
  | PosInf, _ => true
  | _, PosInf => false
  | NegInf, _ => false
  | _, NegInf => true
  end.

(** [x == y] of Python: NaN differs from everything, itself included. *)
Definition feqb (x y : pyfloat) : bool :=
  match x, y with
  | Finite a, Finite b => Qeq_bool a b
  | PosInf, PosInf | NegInf, NegInf => true
  | _, _ => false
  end.

(** The order numpy sorts by: as [<=] on numbers, with NaN last. *)
Definition sort_leb (x y : pyfloat) : bool :=
  match x, y with
  | _, NaN => true
  | NaN, _ => false
  | _, _ => negb (fgtb x y)
  end.

(** Equality up to the representation of a rational. *)
Definition feq (x y : pyfloat) : Prop :=
  match x, y with
  | Finite a, Finite b => (a == b)%Q
  | PosInf, PosInf | NegInf, NegInf | NaN, NaN => True
  | _, _ => False
  end.

Definition is_finite (x : pyfloat) : Prop :=
  match x with Finite _ => True | _ => False end.

Definition fsum (l : list pyfloat) : pyfloat := foldl fadd (Finite 0) l.

End PyFloat.
Export PyFloat.

(** ** Exceptions and state

    A statement either completes with a value or raises; what it did to the
    state before raising stays done. *)

Inductive exn : Type :=
| IndexError
| TypeError
| ValueError
| AttributeError
| ZeroDivisionError
| RuntimeError.

Inductive outcome (A : Type) : Type :=
| Ok (a : A)
| Raise (e : exn).
Arguments Ok {A} a.
Arguments Raise {A} e.

Definition M (S A : Type) : Type := S → outcome A * S.

Definition ret {S A} (a : A) : M S A := λ s, (Ok a, s).
Definition raise {S A} (e : exn) : M S A := λ s, (Raise e, s).
Definition bind {S A B} (m : M S A) (k : A → M S B) : M S B :=
  λ s, match m s with
       | (Ok a, s') => k a s'
       | (Raise e, s') => (Raise e, s')
       end.
Definition gets {S A} (f : S → A) : M S A := λ s, (Ok (f s), s).
Definition modify {S} (f : S → S) : M S unit := λ s, (Ok tt, f s).
Definition lift_option {S A} (e : exn) (o : option A) : M S A :=
  match o with Some a => ret a | None => raise e end.

(** Runs a computation on a part of the state. *)
Definition zoom {S T A} (get : S → T) (set : T → S → S) (m : M T A) : M S A :=
  λ s, let '(o, t) := m (get s) in (o, set t s).

Declare Scope py_scope.
Delimit Scope py_scope with py.
Notation "'let*' x ':=' m 'in' k" := (bind m (λ x, k))
  (at level 10, x pattern, m at level 100, k at level 200) : py_scope.
Notation "'do*' m 'in' k" := (bind m (λ _, k))
  (at level 10, m at level 100, k at level 200) : py_scope.
Local Open Scope py_scope.


(** ** numpy, pandas and Python helpers the script relies on *)

Abbreviation matrix := (list (list pyfloat)).

(** [range(n)] for a Python int. *)
Definition py_range (n : Z) : list Z := Z.of_nat <$> seq 0 (Z.to_nat n).

(** [l[i]] for [0 <= i]: IndexError out of range. *)
Definition getitem {S A} (l : list A) (i : nat) : M S A :=
  lift_option IndexError (l !! i).

(** [l[-1]]: IndexError on an empty sequence. *)
Definition getitem_last {S A} (l : list A) : M S A :=
  lift_option IndexError (last l).

(** [a[idx]] with an integer index array (a fancy index): the selected
    entries in the order of [idx]; IndexError when one is out of bounds. *)
Definition take_idx {A} (a : list A) (idx : list nat) : option (list A) :=
  mapM (λ i, a !! i) idx.

(** [a[mask]] with a boolean mask of the same length. *)
Fixpoint mask_select {A} (a : list A) (mask : list bool) : list A :=
  match a, mask with
  | x :: a', b :: mask' =>
      if b then x :: mask_select a' mask' else mask_select a' mask'
  | _, _ => []
  end.

(** [1 - df] on a table of floats. *)
Definition one_minus (m : matrix) : matrix := map (map (fsub (Finite 1))) m.

(** [np.unique]: the sorted distinct values. *)
Fixpoint sort_insert (x : pyfloat) (l : list pyfloat) : list pyfloat :=
  match l with
  | [] => [x]
  | y :: l' => if sort_leb x y then x :: y :: l' else y :: sort_insert x l'
  end.

Definition np_sort (l : list pyfloat) : list pyfloat := foldr sort_insert [] l.

Definition same_value (x y : pyfloat) : bool :=
  match x, y with
  | NaN, NaN => true
  | _, _ => feqb x y
  end.

Fixpoint dedup_sorted (l : list pyfloat) : list pyfloat :=
  match l with
  | [] => []
  | x :: l' =>
      match l' with
      | y :: _ => if same_value x y then dedup_sorted l' else x :: dedup_sorted l'
      | [] => [x]
      end
  end.

Definition np_unique (l : list pyfloat) : list pyfloat := dedup_sorted (np_sort l).

(** [np.diff] of a vector. *)
Definition np_diff (x : list pyfloat) : list pyfloat :=
  zip_with (λ a b, fsub b a) x (drop 1 x).

(** An elementwise operation on two vectors under numpy's broadcasting: equal
    lengths, or one of them of length one; ValueError otherwise. *)
Definition broadcast2 {S} (f : pyfloat → pyfloat → pyfloat)
    (x y : list pyfloat) : M S (list pyfloat) :=
  if decide (length x = length y) then ret (zip_with f x y)
  else match x, y with
       | [a], _ => ret (f a <$> y)
       | _, [b] => ret ((λ a, f a b) <$> x)
       | _, _ => raise ValueError
       end.

(** [np.trapz(y, x)]: [sum(diff(x) * (y[1:] + y[:-1]) / 2.0)]. *)
Definition np_trapz {S} (y x : list pyfloat) : M S pyfloat :=
  let d := np_diff x in
  let* s := broadcast2 fadd (drop 1 y) (take (length y - 1) y) in
  let* p := broadcast2 fmul d s in
  ret (fsum ((λ v, fdiv v (Finite 2)) <$> p)).

(** [np.mean]. *)
Definition np_mean (data : list pyfloat) : pyfloat :=
  fdiv (fsum data) (of_nat (length data)).

(** [np.var(a, ddof=ddof)]: the divisor is [max(n - ddof, 0)]. *)
Definition np_var (ddof : Z) (data : list pyfloat) : pyfloat :=
  let m := np_mean data in
  let dev := (λ x, fmul (fsub x m) (fsub x m)) <$> data in
  fdiv (fsum dev) (of_Z (Z.max (Z.of_nat (length data) - ddof) 0)).

(** A pandas DataFrame: its columns in order.  [df[name] = col] replaces the
    column of that name or appends a new one; a column of another length than
    the frame's index is a ValueError. *)
Inductive column : Type :=
| FloatCol (v : list pyfloat)
| IntCol (v : list Z).

Definition column_length (c : column) : nat :=
  match c with FloatCol v => length v | IntCol v => length v end.

Record DataFrame : Type := {
  df_rows : nat;
  df_columns : list (string * column)
}.

Definition df_lookup (df : DataFrame) (name : string) : option column :=
  snd <$> find (λ kv, bool_decide (kv.1 = name)) (df_columns df).

Fixpoint assoc_set (name : string) (c : column) (cols : list (string * column))
    : list (string * column) :=
  match cols with
  | [] => [(name, c)]
  | (k, v) :: cols' =>
      if decide (k = name) then (k, c) :: cols' else (k, v) :: assoc_set name c cols'
  end.

Definition df_setitem {S} (df : DataFrame) (name : string) (c : column)
    : M S DataFrame :=
  if decide (column_length c = df_rows df)
  then ret {| df_rows := df_rows df; df_columns := assoc_set name c (df_columns df) |}
  else raise ValueError.

(** [np.hstack] of two matrices with the same number of rows. *)
Definition np_hstack {S} (a b : matrix) : M S matrix :=
  if decide (length a = length b) then ret (zip_with app a b) else raise ValueError.

(** [np.clip(x, lo, hi)]: [minimum(maximum(x, lo), hi)]; NaN stays NaN. *)
Definition np_clip (lo hi x : pyfloat) : pyfloat :=
  match x with
  | NaN => NaN
  | _ => let y := if fgtb lo x then lo else x in if fgtb y hi then hi else y
  end.

(** [Series.max()] of an integer column: [None] stands for the NaN pandas
    gives on an empty column. *)
Definition series_max (v : list Z) : option Z :=
  match v with
  | [] => None
  | x :: v' => Some (foldl Z.max x v')
  end.

(** ** The numerical collaborators

    Each field is a library entry point the script calls; its arguments are
    the values the script passes.  The torch generator is the only state a
    collaborator keeps between calls.  Two of the entry points raise on
    labels the script can hand them, and return an option: the label
    transform (a ValueError of pycox when no label holds an event) and the
    concordance (a ZeroDivisionError of pycox when no pair of subjects is
    comparable). *)

Record CauseSpecificNet (mlp : Type) : Type := {
  shared_net : mlp;
  risk_nets : list mlp
}.
Arguments shared_net {mlp} _.
Arguments risk_nets {mlp} _.

(** [DeepHit(net, tt.optim.Adam(lr=lr), alpha, sigma, duration_index)]. *)
Record DeepHit (mlp : Type) : Type := {
  dh_net : CauseSpecificNet mlp;
  dh_lr : Q;
  dh_alpha : Q;
  dh_sigma : Q;
  duration_index : list pyfloat
}.
Arguments dh_net {mlp} _.
Arguments dh_lr {mlp} _.
Arguments dh_alpha {mlp} _.
Arguments dh_sigma {mlp} _.
Arguments duration_index {mlp} _.

Class Collaborators : Type := {
  (** the square root of a non-negative rational, as the platform rounds it *)
  sqrt_pos : Q → Q;
  (** [scipy.stats.t.ppf(q, df)] *)
  t_ppf : pyfloat → Z → pyfloat;
  (** how an f-string renders a float *)
  str_float : pyfloat → string;
  (** [RepeatedStratifiedKFold(n_splits, n_repeats, random_state).split(X, y)] *)
  rskf_split : nat → nat → Z → matrix → list Z → list (list nat * list nat);
  (** [train_test_split(indices, test_size, stratify, random_state)] *)
  train_test_split : list nat → Q → list Z → Z → list nat * list nat;
  (** [StandardScaler]: the fitted state, [fit] and [transform] *)
  scaler : Type;
  scaler_fit : matrix → scaler;
  scaler_transform : scaler → matrix → matrix;
  (** [LabTransDiscreteTime(num_durations)]: [fit], [transform], [cuts],
      [out_features]; [transform] is [None] when it raises its ValueError
      (labels that hold no event, a duration beyond the last cut) *)
  labtrans : Type;
  lt_fit : Z → list pyfloat → list Z → labtrans;
  lt_transform : labtrans → list pyfloat → list Z → option (list Z * list Z);
  lt_cuts : labtrans → list pyfloat;
  lt_out_features : labtrans → nat;
  (** torch's global generator, and [tt.practical.MLPVanilla], whose initial
      weights are drawn from it *)
  rng_state : Type;
  mlp : Type;
  MLPVanilla : nat → list nat → nat → bool → Q → rng_state → mlp * rng_state;
  (** [model.fit(input, target, batch_size, epochs, val_data)]: the trained
      network and the training log *)
  train_log : Type;
  model_fit : DeepHit mlp → matrix → list Z * list Z → Z → Z →
              matrix * (list Z * list Z) → rng_state →
              (CauseSpecificNet mlp * train_log) * rng_state;
  (** [model.predict_cif(input)]: per risk, a matrix [time bin x subject] *)
  predict_cif : DeepHit mlp → matrix → list matrix;
  (** [EvalSurv(surv, durations, events, censor_surv='km')]: [surv] is the
      frame's values and its index; then [concordance_td()], [None] when it
      raises its ZeroDivisionError (no pair of subjects is comparable), and
      [brier_score(time_grid)] *)
  concordance_td : matrix → list pyfloat → list pyfloat → list bool →
                   option pyfloat;
  brier_score : matrix → list pyfloat → list pyfloat → list bool →
                list pyfloat → list pyfloat
}.

(** ** Configuration of the script *)

(** One point of the grid: [(lr, alpha, sigma, dropout, batch_size)]. *)
Record hparams : Type := {
  hp_lr : Q;
  hp_alpha : Q;
  hp_sigma : Q;
  hp_dropout : Q;
  hp_batch_size : Z
}.

(** [param_grid]: a candidate list under each of the five keys. *)
Record param_grid : Type := {
  pg_lr : list Q;
  pg_alpha : list Q;
  pg_sigma : list Q;
  pg_dropout : list Q;
  pg_batch_size : list Z
}.

Record config : Type := {
  num_durations : Z;
  num_nodes_shared : list nat;
  num_nodes_indiv : list nat;
  grid : param_grid;
  n_splits : nat;
  n_repeats : nat;
  random_state : Z
}.

(** The values written in the script. *)
Definition script_config : config := {|
  num_durations := 115;
  num_nodes_shared := [50; 30]%nat;
  num_nodes_indiv := [30]%nat;
  grid := {| pg_lr := [0.001%Q]; pg_alpha := [0.2%Q]; pg_sigma := [0.1%Q];
             pg_dropout := [0.5%Q]; pg_batch_size := [128] |};
  n_splits := 5;
  n_repeats := 5;
  random_state := 123
|}.

(** ** numpy arrays live in a heap

    A name holds a reference.  Indexing with an index array builds a new
    array; [a[:, c:] = v] writes into the array [a] refers to. *)

Inductive ndarray : Type :=
| A2 (rows : matrix)
| A1f (v : list pyfloat)
| A1i (v : list Z).

Abbreviation loc := nat.
Abbreviation heap := (list ndarray).

Definition alloc (a : ndarray) : M heap loc :=
  λ h, (Ok (length h), h ++ [a]).

Definition read (l : loc) : M heap ndarray :=
  let* h := gets id in lift_option TypeError (h !! l).

Definition read_matrix (l : loc) : M heap matrix :=
  let* a := read l in
  match a with A2 m => ret m | _ => raise TypeError end.

Definition read_floats (l : loc) : M heap (list pyfloat) :=
  let* a := read l in
  match a with A1f v => ret v | _ => raise TypeError end.

Definition read_ints (l : loc) : M heap (list Z) :=
  let* a := read l in
  match a with A1i v => ret v | _ => raise TypeError end.

Definition ndarray_take (a : ndarray) (idx : list nat) : option ndarray :=
  match a with
  | A2 m => A2 <$> take_idx m idx
  | A1f v => A1f <$> take_idx v idx
  | A1i v => A1i <$> take_idx v idx
  end.

(** [a[idx]]: a copy. *)
Definition fancy_index (l : loc) (idx : list nat) : M heap loc :=
  let* a := read l in
  let* a' := lift_option IndexError (ndarray_take a idx) in
  alloc a'.

(** The values seen through the view [a[:, c:]]. *)
Definition getitem_cols (l : loc) (c : nat) : M heap matrix :=
  let* m := read_matrix l in ret (drop c <$> m).

Definition shape (m : matrix) : list nat := length <$> m.

(** The rows of [m] with the columns from [c] on replaced by the rows of [v]. *)
Definition replace_cols (c : nat) (m v : matrix) : matrix :=
  zip_with (λ r n, take c r ++ n) m v.

(** [a[:, c:] = v], for [v] of the shape of the view: in place. *)
Definition setitem_cols (l : loc) (c : nat) (v : matrix) : M heap unit :=
  let* m := read_matrix l in
  if decide (shape v = shape (drop c <$> m))
  then modify (λ h, <[l := A2 (replace_cols c m v)]> h)
  else raise ValueError.

(** A computation that leaves the state alone, whatever its outcome. *)
Definition stateless {S A} (m : M S A) : Prop := ∀ s, (m s).2 = s.

(** [frames base m post]: started on a heap that extends [base], [m] ends on
    a heap that extends [base]; a value it returns satisfies [post]. *)
Definition frames {A} (base : heap) (m : M heap A) (post : A → Prop) : Prop :=
  ∀ h, base `prefix_of` h →
    base `prefix_of` (m h).2
    ∧ match (m h).1 with Ok a => post a | Raise _ => True end.

(** [for x in l: acc = body(x, acc)]. *)
Fixpoint for_in {S A B} (l : list A) (body : A → B → M S B) (acc : B) : M S B :=
  match l with
  | [] => ret acc
  | x :: l' => let* acc' := body x acc in for_in l' body acc'
  end.

(** [enumerate(l)]. *)
Definition enumerate {A} (l : list A) : list (nat * A) := zip (seq 0 (length l)) l.

Section Pipeline.
Context `{Collaborators}.

(** *** 1) Load and preprocess *)

(** The columns read from the sheet, the categorical ones already one-hot
    encoded ([cat_width] columns wide). *)
Record dataset : Type := {
  ds_time : list pyfloat;
  ds_event : list Z;
  ds_cat_ohe : matrix;
  ds_cat_width : nat;
  ds_cont : matrix;
  ds_cont_width : nat
}.

Record globals : Type := {
  y_time : loc;
  y_event : loc;
  X_all : loc;
  cat_dim : nat;
  in_features : nat;
  num_risks : Z;
  y_event1 : list Z
}.

(** [int(df['event'].max())]: [int(nan)] is a ValueError. *)
Definition compute_num_risks {S} (events : list Z) : M S Z :=
  lift_option ValueError (series_max events).

Definition setup (ds : dataset) : M heap globals :=
  let* y0 := alloc (A1f (np_clip (Finite 0) (Finite 114) <$> ds_time ds)) in
  let* y1 := alloc (A1i (ds_event ds)) in
  let* nr := compute_num_risks (ds_event ds) in
  let* X := np_hstack (ds_cat_ohe ds) (ds_cont ds) in
  let* lX := alloc (A2 X) in
  ret {| y_time := y0; y_event := y1; X_all := lX;
         cat_dim := ds_cat_width ds;
         in_features := (ds_cat_width ds + ds_cont_width ds)%nat;
         num_risks := nr;
         y_event1 := (λ e, if Z.eqb e 1 then 1 else 0) <$> ds_event ds |}.

(** *** 2) CauseSpecificNet *)

Definition new_mlp (i : nat) (nodes : list nat) (o : nat) (batch_norm : bool)
    (dropout : Q) : M rng_state mlp :=
  λ g, let '(n, g') := MLPVanilla i nodes o batch_norm dropout g in (Ok n, g').

Definition CauseSpecificNet_init (in_feat : nat) (shared indiv : list nat)
    (n_risks : Z) (out_features : nat) (batch_norm : bool) (dropout : Q)
    : M rng_state (CauseSpecificNet mlp) :=
  let* width := getitem_last shared in
  let* s := new_mlp in_feat (removelast shared) width batch_norm dropout in
  let* nets :=
    for_in (py_range n_risks)
      (λ _ nets,
         let* w := getitem_last shared in
         let* net := new_mlp w indiv out_features batch_norm dropout in
         ret (nets ++ [net]))
      [] in
  ret {| shared_net := s; risk_nets := nets |}.

(** *** 4) One fold: split, scale, discretize *)

Record fold_data : Type := {
  X_train : matrix;
  X_val : matrix;
  X_test : matrix;
  y_val : list pyfloat * list Z;
  durations_train : list Z;
  events_train : list Z;
  durations_val : list Z;
  events_val : list Z;
  durations_test_fold : list pyfloat;
  events_test_fold : list Z;
  fold_scaler : scaler;
  fold_labtrans : labtrans
}.

(** [astype(np.int64)] on the integral values the label transform returns. *)
Definition astype_int64 (v : list Z) : list Z := v.

Definition prepare_fold (c : config) (g : globals) (fold_num : nat)
    (train_idx test_idx : list nat) : M heap fold_data :=
  (* outer train/test split *)
  let* lX_train_full := fancy_index (X_all g) train_idx in
  let* lX_test := fancy_index (X_all g) test_idx in
  let* ly_train_full0 := fancy_index (y_time g) train_idx in
  let* ly_train_full1 := fancy_index (y_event g) train_idx in
  let* ly_test0 := fancy_index (y_time g) test_idx in
  let* ly_test1 := fancy_index (y_event g) test_idx in
  (* inner train/validation split *)
  let* X_train_full := read_matrix lX_train_full in
  let* stratify := read_ints ly_train_full1 in
  let '(tr_idx, val_idx) :=
    train_test_split (seq 0 (length X_train_full)) 0.2%Q stratify
      (Z.of_nat fold_num) in
  let* lX_train := fancy_index lX_train_full tr_idx in
  let* lX_val := fancy_index lX_train_full val_idx in
  let* ly_train0 := fancy_index ly_train_full0 tr_idx in
  let* ly_train1 := fancy_index ly_train_full1 tr_idx in
  let* ly_val0 := fancy_index ly_train_full0 val_idx in
  let* ly_val1 := fancy_index ly_train_full1 val_idx in
  (* scale the continuous columns only *)
  let* cont_train := getitem_cols lX_train (cat_dim g) in
  let sc := scaler_fit cont_train in
  do* setitem_cols lX_train (cat_dim g) (scaler_transform sc cont_train) in
  let* cont_val := getitem_cols lX_val (cat_dim g) in
  do* setitem_cols lX_val (cat_dim g) (scaler_transform sc cont_val) in
  let* cont_test := getitem_cols lX_test (cat_dim g) in
  do* setitem_cols lX_test (cat_dim g) (scaler_transform sc cont_test) in
  (* discretize the durations *)
  let* y_train0 := read_floats ly_train0 in
  let* y_train1 := read_ints ly_train1 in
  let* y_val0 := read_floats ly_val0 in
  let* y_val1 := read_ints ly_val1 in
  let lt := lt_fit (num_durations c) y_train0 y_train1 in
  let* (d_train, e_train) := lift_option ValueError (lt_transform lt y_train0 y_train1) in
  let* (d_val, e_val) := lift_option ValueError (lt_transform lt y_val0 y_val1) in
  let* d_test := read_floats ly_test0 in
  let* e_test := read_ints ly_test1 in
  (* the arrays as every later statement of the fold sees them *)
  let* Xtr := read_matrix lX_train in
  let* Xva := read_matrix lX_val in
  let* Xte := read_matrix lX_test in
  ret {| X_train := Xtr; X_val := Xva; X_test := Xte;
         y_val := (y_val0, y_val1);
         durations_train := astype_int64 d_train;
         events_train := astype_int64 e_train;
         durations_val := astype_int64 d_val;
         events_val := astype_int64 e_val;
         durations_test_fold := d_test;
         events_test_fold := e_test;
         fold_scaler := sc;
         fold_labtrans := lt |}.

(** The matrix [m] after its columns from [c] on went through the fitted
    scaler. *)
Definition scaled (sc : scaler) (c : nat) (m : matrix) : matrix :=
  replace_cols c m (scaler_transform sc (drop c <$> m)).

(** The index arrays and the rows they select in one fold: the outer split
    of the global arrays, then the inner split of the outer-train rows. *)
Record fold_slices : Type := {
  outer_X : matrix;
  test_X : matrix;
  outer_T : list pyfloat;
  outer_E : list Z;
  test_T : list pyfloat;
  test_E : list Z;
  inner_idx : list nat;
  val_idx : list nat;
  inner_X : matrix;
  val_X : matrix;
  inner_T : list pyfloat;
  inner_E : list Z;
  val_T : list pyfloat;
  val_E : list Z
}.

Definition slices_of (X : matrix) (T : list pyfloat) (E : list Z)
    (train_idx test_idx : list nat) (fold_num : nat) (sl : fold_slices) : Prop :=
  take_idx X train_idx = Some (outer_X sl)
  ∧ take_idx X test_idx = Some (test_X sl)
  ∧ take_idx T train_idx = Some (outer_T sl)
  ∧ take_idx E train_idx = Some (outer_E sl)
  ∧ take_idx T test_idx = Some (test_T sl)
  ∧ take_idx E test_idx = Some (test_E sl)
  ∧ train_test_split (seq 0 (length (outer_X sl))) 0.2%Q (outer_E sl)
      (Z.of_nat fold_num) = (inner_idx sl, val_idx sl)
  ∧ take_idx (outer_X sl) (inner_idx sl) = Some (inner_X sl)
  ∧ take_idx (outer_X sl) (val_idx sl) = Some (val_X sl)
  ∧ take_idx (outer_T sl) (inner_idx sl) = Some (inner_T sl)
  ∧ take_idx (outer_E sl) (inner_idx sl) = Some (inner_E sl)
  ∧ take_idx (outer_T sl) (val_idx sl) = Some (val_T sl)
  ∧ take_idx (outer_E sl) (val_idx sl) = Some (val_E sl).

(** *** Hyperparameter tuning on the validation set *)

Record search : Type := {
  best_val_c_index : pyfloat;
  best_params : option hparams;
  best_log : option train_log;
  best_model : option (DeepHit mlp)
}.

Definition search_init : search :=
  {| best_val_c_index := NegInf; best_params := None;
     best_log := None; best_model := None |}.

(** [events == 1]. *)
Definition is_event1 (events : list Z) : list bool := (λ e, Z.eqb e 1) <$> events.

(** [pd.DataFrame(values, index=index)]: one row per index entry. *)
Definition make_frame {S} (values : matrix) (index : list pyfloat) : M S matrix :=
  if decide (length values = length index) then ret values else raise ValueError.

Definition fit (model : DeepHit mlp) (input : matrix) (target : list Z * list Z)
    (batch_size epochs : Z) (val_data : matrix * (list Z * list Z))
    : M rng_state (CauseSpecificNet mlp * train_log) :=
  λ r, let '(res, r') := model_fit model input target batch_size epochs val_data r in
       (Ok res, r').

(** The body of the innermost loop up to the comparison: build a network,
    train it, score it on the validation set for event 1. *)
Definition trial (c : config) (g : globals) (fd : fold_data) (p : hparams)
    : M rng_state (pyfloat * train_log * DeepHit mlp) :=
  let out_features := lt_out_features (fold_labtrans fd) in
  let* net := CauseSpecificNet_init (in_features g) (num_nodes_shared c)
                (num_nodes_indiv c) (num_risks g) out_features true (hp_dropout p) in
  let model := {| dh_net := net; dh_lr := hp_lr p; dh_alpha := hp_alpha p;
                  dh_sigma := hp_sigma p;
                  duration_index := lt_cuts (fold_labtrans fd) |} in
  let val_data := (X_val fd, (durations_val fd, events_val fd)) in
  let* (net', log) := fit model (X_train fd) (durations_train fd, events_train fd)
                        (hp_batch_size p) 200 val_data in
  let model := {| dh_net := net'; dh_lr := dh_lr model; dh_alpha := dh_alpha model;
                  dh_sigma := dh_sigma model;
                  duration_index := duration_index model |} in
  let cif_val := predict_cif model (X_val fd) in
  let* cif0 := getitem cif_val 0 in
  let* cif1_val := make_frame cif0 (duration_index model) in
  let* c_index_val :=
    lift_option ZeroDivisionError
      (concordance_td (one_minus cif1_val) (duration_index model)
         (y_val fd).1 (is_event1 (y_val fd).2)) in
  ret (c_index_val, log, model).

(** [if c_index_val > best_val_c_index: ...]. *)
Definition keep_best (p : hparams) (r : pyfloat * train_log * DeepHit mlp)
    (best : search) : search :=
  let '(c_index_val, log, model) := r in
  if fgtb c_index_val (best_val_c_index best)
  then {| best_val_c_index := c_index_val; best_params := Some p;
          best_log := Some log; best_model := Some model |}
  else best.

Definition grid_search (c : config) (g : globals) (fd : fold_data)
    : M rng_state search :=
  for_in (pg_lr (grid c)) (λ lr best,
    for_in (pg_alpha (grid c)) (λ alpha best,
      for_in (pg_sigma (grid c)) (λ sigma best,
        for_in (pg_dropout (grid c)) (λ dropout best,
          for_in (pg_batch_size (grid c)) (λ batch_size best,
            let p := {| hp_lr := lr; hp_alpha := alpha; hp_sigma := sigma;
                        hp_dropout := dropout; hp_batch_size := batch_size |} in
            let* r := trial c g fd p in
            ret (keep_best p r best))
          best) best) best) best)
    search_init.

(** The grid as the loops walk it: the Cartesian product of the five
    candidate lists, [lr] varying slowest and [batch_size] fastest. *)
Definition combinations (pg : param_grid) : list hparams :=
  lr ← pg_lr pg;
  alpha ← pg_alpha pg;
  sigma ← pg_sigma pg;
  dropout ← pg_dropout pg;
  batch_size ← pg_batch_size pg;
  [{| hp_lr := lr; hp_alpha := alpha; hp_sigma := sigma;
      hp_dropout := dropout; hp_batch_size := batch_size |}].

(** One trial per combination of a list, in order, keeping every result. *)
Definition run_trials (c : config) (g : globals) (fd : fold_data) (ps : list hparams)
    : M rng_state (list (hparams * (pyfloat * train_log * DeepHit mlp))) :=
  for_in ps (λ p rs, let* r := trial c g fd p in ret (rs ++ [(p, r)])) [].

Definition trial_score (pr : hparams * (pyfloat * train_log * DeepHit mlp)) : pyfloat :=
  pr.2.1.1.

(** The comparison of the loop body applied to a list of results. *)
Definition select_best (rs : list (hparams * (pyfloat * train_log * DeepHit mlp)))
    : search :=
  foldl (λ best pr, keep_best pr.1 pr.2 best) search_init rs.

(** *** The prediction table of a fold *)

Definition column_name (r : Z) (t_val : pyfloat) : string :=
  "pred_event" +:+ pretty (r + 1) +:+ "_time" +:+ str_float t_val.

(** [pd.DataFrame({'time': ..., 'delta': ...})]. *)
Definition new_table {S} (durations : list pyfloat) (events : list Z) : M S DataFrame :=
  if decide (length durations = length events)
  then ret {| df_rows := length durations;
              df_columns := [("time", FloatCol durations); ("delta", IntCol events)] |}
  else raise ValueError.

(** [df_out[f'pred_event{r+1}_time{t_val}'] = cif_test[r][t_idx, :]]. *)
Definition set_column {S} (cif_test : list matrix) (r : Z) (t_idx : nat)
    (t_val : pyfloat) (df_out : DataFrame) : M S DataFrame :=
  let* cif_r := getitem cif_test (Z.to_nat r) in
  let* values := getitem cif_r t_idx in
  df_setitem df_out (column_name r t_val) (FloatCol values).

Definition build_table {S} (n_risks : Z) (durations : list pyfloat) (events : list Z)
    (index : list pyfloat) (cif_test : list matrix) : M S DataFrame :=
  let* df_out := new_table durations events in
  for_in (py_range n_risks) (λ r df_out,
    for_in (enumerate index) (λ '(t_idx, t_val) df_out,
      set_column cif_test r t_idx t_val df_out)
    df_out) df_out.

(** The (risk, bin) pairs in the order the two loops visit them. *)
Definition table_cells (n_risks : Z) (index : list pyfloat)
    : list (Z * (nat * pyfloat)) :=
  r ← py_range n_risks; it ← enumerate index; [(r, it)].

Definition output_dir : string := "deep_hit_predictions".

(** [os.path.join(output_dir, f"fold_{fold_num+1}_predictions.csv")]. *)
Definition csv_file (fold_num : nat) : string :=
  output_dir +:+ "/" +:+ "fold_" +:+ pretty (fold_num + 1)%nat +:+ "_predictions.csv".

(** *** The state of the run *)

Inductive line : Type :=
| Separator
| TrainingFold (k total : nat)
| BestParams (k : nat) (p : hparams) (val_cindex : pyfloat)
| TestCIndex (k : nat) (v : pyfloat)
| TestIBS (k : nat) (v : pyfloat)
| SummaryHeader
| SummaryCIndex (mean lower upper : pyfloat)
| SummaryIBS (mean lower upper : pyfloat).

Record world : Type := {
  w_heap : heap;
  w_rng : rng_state;
  stdout : list line;
  written : list (string * DataFrame);
  fold_c_indexes : list pyfloat;
  fold_ibss : list pyfloat
}.

(** The table fold [k] writes when it starts in the state [w]: the one
    [build_table] makes from the test labels of the data this fold prepares
    from its split, and from the incidences that the model this fold's search
    retains predicts for this fold's test rows. *)
Definition fold_table (c : config) (g : globals) (k : nat)
    (sp : list nat * list nat) (w : world) (df : DataFrame) : Prop :=
  ∃ fd h' best r' model (s : world),
    prepare_fold c g k sp.1 sp.2 (w_heap w) = (Ok fd, h')
    ∧ grid_search c g fd (w_rng w) = (Ok best, r')
    ∧ best_model best = Some model
    ∧ build_table (num_risks g) (durations_test_fold fd) (events_test_fold fd)
        (duration_index model) (predict_cif model (X_test fd)) s = (Ok df, s).

Definition on_heap {A} (m : M heap A) : M world A :=
  zoom w_heap (λ h w, {| w_heap := h; w_rng := w_rng w; stdout := stdout w;
                         written := written w;
                         fold_c_indexes := fold_c_indexes w;
                         fold_ibss := fold_ibss w |}) m.

Definition on_rng {A} (m : M rng_state A) : M world A :=
  zoom w_rng (λ r w, {| w_heap := w_heap w; w_rng := r; stdout := stdout w;
                        written := written w;
                        fold_c_indexes := fold_c_indexes w;
                        fold_ibss := fold_ibss w |}) m.

Definition print (l : line) : M world unit :=
  modify (λ w, {| w_heap := w_heap w; w_rng := w_rng w; stdout := stdout w ++ [l];
                  written := written w;
                  fold_c_indexes := fold_c_indexes w;
                  fold_ibss := fold_ibss w |}).

Definition to_csv (path : string) (df : DataFrame) : M world unit :=
  modify (λ w, {| w_heap := w_heap w; w_rng := w_rng w; stdout := stdout w;
                  written := written w ++ [(path, df)];
                  fold_c_indexes := fold_c_indexes w;
                  fold_ibss := fold_ibss w |}).

Definition append_c_index (v : pyfloat) : M world unit :=
  modify (λ w, {| w_heap := w_heap w; w_rng := w_rng w; stdout := stdout w;
                  written := written w;
                  fold_c_indexes := fold_c_indexes w ++ [v];
                  fold_ibss := fold_ibss w |}).

Definition append_ibs (v : pyfloat) : M world unit :=
  modify (λ w, {| w_heap := w_heap w; w_rng := w_rng w; stdout := stdout w;
                  written := written w;
                  fold_c_indexes := fold_c_indexes w;
                  fold_ibss := fold_ibss w ++ [v] |}).

(** *** Test concordance and integrated Brier score of a fold *)

(** Lines 264 to 273: the time grid is the unique event-1 times of the test
    fold; the Brier scores on it are integrated by the trapezoidal rule and
    divided by the length of the grid's range. *)
Definition ibs_step (fold_num : nat) (surv : matrix) (index durations : list pyfloat)
    (ev : list bool) : M world unit :=
  let unique_event_times := np_unique (mask_select durations ev) in
  let time_grid := unique_event_times in
  let brier_scores := brier_score surv index durations ev time_grid in
  let* integral := np_trapz brier_scores time_grid in
  let* t_last := getitem_last time_grid in
  let* t_first := getitem time_grid 0 in
  let ibs_test := fdiv integral (fsub t_last t_first) in
  do* append_ibs ibs_test in
  print (TestIBS (fold_num + 1) ibs_test).

(** The body of the loop over the splits. *)
Definition run_fold (c : config) (g : globals) (fold_num : nat)
    (split : list nat * list nat) : M world unit :=
  do* print Separator in
  do* print (TrainingFold (fold_num + 1) 25) in
  do* print Separator in
  let* fd := on_heap (prepare_fold c g fold_num split.1 split.2) in
  let* best := on_rng (grid_search c g fd) in
  (* [best_params[0]] on [None] is a TypeError *)
  let* p := lift_option TypeError (best_params best) in
  do* print (BestParams (fold_num + 1) p (best_val_c_index best)) in
  let* model := lift_option AttributeError (best_model best) in
  let cif_test := predict_cif model (X_test fd) in
  let index := duration_index model in
  let* df_out := build_table (num_risks g) (durations_test_fold fd)
                   (events_test_fold fd) index cif_test in
  do* to_csv (csv_file fold_num) df_out in
  let* cif0 := getitem cif_test 0 in
  let* cif1_test := make_frame cif0 index in
  let surv := one_minus cif1_test in
  let ev := is_event1 (events_test_fold fd) in
  let* c_index_test :=
    lift_option ZeroDivisionError
      (concordance_td surv index (durations_test_fold fd) ev) in
  do* append_c_index c_index_test in
  do* print (TestCIndex (fold_num + 1) c_index_test) in
  ibs_step fold_num surv index (durations_test_fold fd) ev.

Definition run_folds (c : config) (g : globals)
    (splits : list (list nat * list nat)) : M world unit :=
  for_in (enumerate splits) (λ fs _, run_fold c g fs.1 fs.2) tt.

(** *** 5) Confidence intervals *)

Definition fsqrt (x : pyfloat) : pyfloat :=
  match x with
  | Finite q => match (q ?= 0)%Q with Lt => NaN | _ => Finite (sqrt_pos q) end
  | PosInf => PosInf
  | NegInf | NaN => NaN
  end.

(** [scipy.stats.sem(data)]: [np.std(data, ddof=1) / np.sqrt(n)]. *)
Definition stats_sem (data : list pyfloat) : pyfloat :=
  fdiv (fsqrt (np_var 1 data)) (fsqrt (of_nat (length data))).

Definition compute_confidence_interval {S} (data : list pyfloat)
    (confidence : pyfloat) : M S (pyfloat * pyfloat * pyfloat) :=
  let n := Z.of_nat (length data) in
  let mean := np_mean data in
  let sem := stats_sem data in
  let h := fmul sem (t_ppf (fdiv (fadd (Finite 1) confidence) (Finite 2)) (n - 1)) in
  ret (mean, fsub mean h, fadd mean h).

Definition default_confidence : pyfloat := Finite 0.95.

(** The level at which the quantile is taken: [(1 + confidence) / 2.]. *)
Definition ci_level (confidence : pyfloat) : pyfloat :=
  fdiv (fadd (Finite 1) confidence) (Finite 2).

(** *** The script *)

Definition main (c : config) (ds : dataset) : M world unit :=
  let* g := on_heap (setup ds) in
  let* X := on_heap (read_matrix (X_all g)) in
  let splits :=
    rskf_split (n_splits c) (n_repeats c) (random_state c) X (y_event1 g) in
  do* run_folds c g splits in
  let* c_indexes := gets fold_c_indexes in
  let* (cindex_mean, cindex_lower, cindex_upper) :=
    compute_confidence_interval c_indexes default_confidence in
  let* ibss := gets fold_ibss in
  let* (ibs_mean, ibs_lower, ibs_upper) :=
    compute_confidence_interval ibss default_confidence in
  do* print SummaryHeader in
  do* print (SummaryCIndex cindex_mean cindex_lower cindex_upper) in
  do* print (SummaryIBS ibs_mean ibs_lower ibs_upper) in
  print Separator.

Definition initial_world (r : rng_state) : world :=
  {| w_heap := []; w_rng := r; stdout := []; written := [];
     fold_c_indexes := []; fold_ibss := [] |}.

End Pipeline.

(** ** Stand-in collaborators

    Small computable collaborators, used to run the script on concrete data.
    They keep the shapes the libraries keep (one transformed row per row, one
    incidence matrix per risk net, one Brier score per grid time) and are
    otherwise arbitrary. *)

Module Demo.

(** A rational square root, rounded down to six decimals. *)
Definition sqrt6 (q : Q) : Q :=
  Z.sqrt (Qnum q * Zpos (Qden q) * 10 ^ 12) # (Qden q * 10 ^ 6).

(** Quantiles of Student's t with four degrees of freedom at a few levels,
    joined by straight lines; NaN without a positive number of degrees. *)
Definition t_table : list (Q * Q) :=
  [(0.5, 0); (0.9, 1.5332); (0.95, 2.1318); (0.975, 2.7764);
   (0.99, 3.7469); (0.995, 4.6041)]%Q.

Fixpoint interpolate (tbl : list (Q * Q)) (p : Q) : pyfloat :=
  match tbl with
  | (p0, t0) :: (((p1, t1) :: _) as tbl') =>
      if Qle_bool p p1
      then Finite (Qred (t0 + (t1 - t0) * (p - p0) / (p1 - p0)))
      else interpolate tbl' p
  | _ => PosInf
  end.

Definition t_quantile (p : pyfloat) (df : Z) : pyfloat :=
  if Z.leb df 0 then NaN
  else match p with
       | Finite p => if Qle_bool 0.5 p then interpolate t_table p else NaN
       | _ => NaN
       end.

Definition show_float (x : pyfloat) : string :=
  match x with
  | Finite q => pretty (Qnum (Qred q)) +:+ "/" +:+ pretty (Zpos (Qden (Qred q)))
  | PosInf => "inf"
  | NegInf => "-inf"
  | NaN => "nan"
  end.

(** Fold [j] of a repeat tests the rows [i] with [i mod n_splits = j]. *)
Definition kfold (n_splits n_repeats : nat) (seed : Z) (X : matrix) (y : list Z)
    : list (list nat * list nat) :=
  _ ← seq 0 n_repeats;
  j ← seq 0 n_splits;
  [(filter (λ i, (i mod n_splits)%nat ≠ j) (seq 0 (length X)),
    filter (λ i, (i mod n_splits)%nat = j) (seq 0 (length X)))].

(** Every second index goes to validation. *)
Definition holdout (idx : list nat) (test_size : Q) (stratify : list Z) (seed : Z)
    : list nat * list nat :=
  (filter (λ i, (i mod 2)%nat ≠ 1%nat) idx, filter (λ i, (i mod 2)%nat = 1%nat) idx).

(** Centering: the fitted state is the column means. *)
Definition column (m : matrix) (j : nat) : list pyfloat :=
  (λ r, default NaN (r !! j)) <$> m.

Definition center_fit (m : matrix) : list pyfloat :=
  match m with
  | [] => []
  | r :: _ => (λ j, np_mean (column m j)) <$> seq 0 (length r)
  end.

Definition center_transform (means : list pyfloat) (m : matrix) : matrix :=
  (λ r, imap (λ j x, match x, default (Finite 0) (means !! j) with
                     | Finite a, Finite b => Finite (Qred (a - b))
                     | _, _ => NaN
                     end) r) <$> m.

(** Cut points [0, 1, ..., num_durations - 1]; a duration falls in the bin of
    its integer part, capped at the last cut. *)
Definition cuts_fit (n : Z) (durations : list pyfloat) (events : list Z) : list pyfloat :=
  of_Z <$> py_range n.

Definition bin_of (cuts : list pyfloat) (t : pyfloat) : Z :=
  match t with
  | Finite q => Z.max 0 (Z.min (Z.of_nat (length cuts) - 1) (Qnum q / Zpos (Qden q)))
  | _ => 0
  end.

(** As pycox, the transform raises when no label holds an event. *)
Definition cuts_transform (cuts : list pyfloat) (durations : list pyfloat)
    (events : list Z) : option (list Z * list Z) :=
  if forallb (Z.eqb 0) events then None
  else Some (bin_of cuts <$> durations, events).

(** The generator is a counter; a network remembers its sizes, its dropout
    rate and the draw it was initialised with. *)
Definition net : Type := nat * list nat * nat * Q * nat.

Definition new_net (i : nat) (nodes : list nat) (o : nat) (bn : bool) (dropout : Q)
    (g : nat) : net * nat :=
  ((i, nodes, o, dropout, g), S g).

Definition train (model : DeepHit net) (input : matrix) (target : list Z * list Z)
    (batch_size epochs : Z) (val_data : matrix * (list Z * list Z)) (g : nat)
    : (CauseSpecificNet net * nat) * nat :=
  ((dh_net model, g), S g).

(** Incidence of risk [r] at bin [t]: [alpha * (t + 1) / (bins * risks)]. *)
Definition cif (model : DeepHit net) (input : matrix) : list matrix :=
  let bins := length (duration_index model) in
  let risks := length (risk_nets (dh_net model)) in
  (λ _, (λ t, (λ _, Finite (Qred (dh_alpha model * (Z.of_nat t + 1 # 1)
                                   / (Z.of_nat (bins * risks) # 1)))) <$> input)
        <$> seq 0 bins) <$> seq 0 risks.

(** Two subjects are comparable, as pycox has it, when the one with the
    shorter time had the event, or when their times are equal and one of
    them had it. *)
Definition comparable (ti tj : pyfloat) (di dj : bool) : bool :=
  (fgtb tj ti && di) || (feqb ti tj && (di || dj)).

Definition has_comparable_pair (durations : list pyfloat) (events : list bool) : bool :=
  existsb (λ '(i, (ti, di)),
    existsb (λ '(j, (tj, dj)), negb (Nat.eqb i j) && comparable ti tj di dj)
      (zip (seq 0 (length durations)) (zip durations events)))
    (zip (seq 0 (length durations)) (zip durations events)).

(** The score is the first incidence value, recovered from the survival
    table; as pycox, the concordance raises when no pair of subjects is
    comparable. *)
Definition score (surv : matrix) (index durations : list pyfloat) (events : list bool)
    : option pyfloat :=
  if has_comparable_pair durations events
  then Some match surv !! 0%nat ≫= λ row, row !! 0%nat with
            | Some (Finite q) => Finite (Qred (1 - q))
            | _ => NaN
            end
  else None.

Definition brier (surv : matrix) (index durations : list pyfloat) (events : list bool)
    (time_grid : list pyfloat) : list pyfloat :=
  (λ _, Finite 0.25) <$> time_grid.

#[export] Instance collaborators : Collaborators := {|
  sqrt_pos := sqrt6;
  t_ppf := t_quantile;
  str_float := show_float;
  rskf_split := kfold;
  train_test_split := holdout;
  scaler := list pyfloat;
  scaler_fit := center_fit;
  scaler_transform := center_transform;
  labtrans := list pyfloat;
  lt_fit := cuts_fit;
  lt_transform := cuts_transform;
  lt_cuts := id;
  lt_out_features := length;
  rng_state := nat;
  mlp := net;
  MLPVanilla := new_net;
  train_log := nat;
  model_fit := train;
  predict_cif := cif;
  concordance_td := score;
  brier_score := brier
|}.

(** Eight subjects, one one-hot column pair and one continuous column. *)
Definition subjects : dataset := {|
  ds_time := map Finite [3; 120; 7; 2; 9; 5; 7; 1]%Q;
  ds_event := [1; 0; 1; 2; 1; 1; 1; 1];
  ds_cat_ohe := map (map Finite) [[1; 0]; [0; 1]; [1; 0]; [1; 0];
                                   [0; 1]; [0; 1]; [1; 0]; [0; 1]]%Q;
  ds_cat_width := 2;
  ds_cont := map (map Finite) [[10]; [20]; [30]; [40]; [50]; [60]; [70]; [80]]%Q;
  ds_cont_width := 1
|}.

(** The per-fold scores of the specification's example. *)
Definition c_indexes : list Q := [0.70; 0.72; 0.75; 0.74; 0.73]%Q.

Definition small_config : config := {|
  num_durations := 3;
  num_nodes_shared := [4; 3]%nat;
  num_nodes_indiv := [3]%nat;
  grid := {| pg_lr := [0.001%Q]; pg_alpha := [0.2%Q; 0.5%Q]; pg_sigma := [0.1%Q];
             pg_dropout := [0.5%Q; 0.1%Q]; pg_batch_size := [128] |};
  n_splits := 2;
  n_repeats := 1;
  random_state := 123
|}.

(** The globals [setup] builds for [subjects], and a fold of five subjects. *)
Definition tiny_globals : globals := {|
  y_time := 0; y_event := 1; X_all := 2;
  cat_dim := 2; in_features := 3; num_risks := 2;
  y_event1 := [1; 0; 1; 0; 1; 1; 1; 1]
|}.

Definition tiny_fold : fold_data := {|
  X_train := map (map Finite) [[1; 0; -20]; [0; 1; 20]]%Q;
  X_val := map (map Finite) [[1; 0; 0]; [0; 1; 10]]%Q;
  X_test := map (map Finite) [[0; 1; 40]]%Q;
  y_val := ([Finite 5; Finite 8], [1; 0]);
  durations_train := [2; 0];
  events_train := [1; 0];
  durations_val := [2; 2];
  events_val := [1; 0];
  durations_test_fold := [Finite 7];
  events_test_fold := [1];
  fold_scaler := [Finite 30];
  fold_labtrans := map Finite [0; 1; 2]%Q
|}.

(** The arrays [setup] allocates for [subjects], and the state of the run
    when the loop over the folds starts. *)
Definition T0 : list pyfloat :=
  Eval vm_compute in np_clip (Finite 0) (Finite 114) <$> ds_time subjects.
Definition E0 : list Z := ds_event subjects.
Definition X0 : matrix :=
  Eval vm_compute in zip_with app (ds_cat_ohe subjects) (ds_cont subjects).
Definition heap0 : heap := [A1f T0; A1i E0; A2 X0].
Definition world0 : world :=
  {| w_heap := heap0; w_rng := 0%nat; stdout := []; written := [];
     fold_c_indexes := []; fold_ibss := [] |}.

(** The first split the stand-in splitter yields for eight rows. *)
Definition split0 : list nat * list nat := ([1; 3; 5; 7]%nat, [0; 2; 4; 6]%nat).

(** As [subjects], without a censored subject. *)
Definition cohort : dataset := {|
  ds_time := map Finite [3; 120; 7; 2; 9; 5; 7; 1]%Q;
  ds_event := [1; 1; 1; 2; 1; 1; 1; 1];
  ds_cat_ohe := ds_cat_ohe subjects;
  ds_cat_width := 2;
  ds_cont := ds_cont subjects;
  ds_cont_width := 1
|}.



(** Every subject is censored. *)
Definition censored_sheet : dataset := {|
  ds_time := map Finite [3; 120; 7; 2; 9; 5; 7; 1]%Q;
  ds_event := [0; 0; 0; 0; 0; 0; 0; 0];
  ds_cat_ohe := ds_cat_ohe subjects;
  ds_cat_width := 2;
  ds_cont := ds_cont subjects;
  ds_cont_width := 1
|}.

(** [small_config] with no learning rate to try. *)
Definition empty_grid_config : config := {|
  num_durations := 3;
  num_nodes_shared := [4; 3]%nat;
  num_nodes_indiv := [3]%nat;
  grid := {| pg_lr := []; pg_alpha := [0.2%Q; 0.5%Q]; pg_sigma := [0.1%Q];
             pg_dropout := [0.5%Q; 0.1%Q]; pg_batch_size := [128] |};
  n_splits := 2;
  n_repeats := 1;
  random_state := 123
|}.

(** The state in which the script ends on [cohort], on [clipped_cohort], on
    [eventless_cohort] and on [censored_sheet]. *)
Definition final_world : world :=
  Eval vm_compute in (main small_config cohort (initial_world 0%nat)).2.



Definition final_world_censored : world :=
  Eval vm_compute in (main small_config censored_sheet (initial_world 0%nat)).2.

Definition tiny_trials :=
  Eval vm_compute in
    match run_trials small_config tiny_globals tiny_fold
            (combinations (grid small_config)) 0%nat with
    | (Ok rs, _) => rs
    | _ => []
    end.

End Demo.

(** ** Further parts of the script

    The forward pass of the network, and the vocabulary in which the
    properties of the preprocessing, the fold loop and the summary are
    stated. *)

(** *** The forward pass of [CauseSpecificNet] (lines 89 to 93) *)

(** [torch.stack(ts, dim=1)] of two-dimensional tensors: entry [b] of the
    result holds row [b] of every tensor, in the order of the list.  An empty
    list, and tensors of different sizes, are a RuntimeError. *)
Definition torch_stack_dim1 {S} (ts : list matrix) : M S (list matrix) :=
  match ts with
  | [] => raise RuntimeError
  | t :: ts' =>
      if bool_decide (Forall (λ t', shape t' = shape t) ts')
      then ret ((λ b, (λ t', default [] (t' !! b)) <$> ts) <$> seq 0 (length t))
      else raise RuntimeError
  end.

Section Forward.
Context `{Collaborators}.

(** What a [MLPVanilla] computes on a batch, or the exception it raises (a
    batch norm in training mode refuses a batch of one row, with a
    ValueError). *)
Variable mlp_apply : mlp → matrix → outcome matrix.

Definition call {S} (net : mlp) (input : matrix) : M S matrix :=
  λ s, (mlp_apply net input, s).

Definition forward {S} (net : CauseSpecificNet mlp) (input : matrix)
    : M S (list matrix) :=
  let* out := call (shared_net net) input in
  let* out := for_in (risk_nets net)
                (λ net acc, let* o := call net out in ret (acc ++ [o])) [] in
  torch_stack_dim1 out.

End Forward.

(** *** Vocabulary *)

(** The lines the body of the fold loop prints, as opposed to the summary. *)
Definition is_summary_line (l : line) : bool :=
  match l with
  | SummaryHeader | SummaryCIndex _ _ _ | SummaryIBS _ _ _ => true
  | _ => false
  end.

(** A list of rationals whose neighbours are related by [R]: increasing for
    [Qlt], non-decreasing for [Qle]. *)
Fixpoint ascending (R : Q → Q → Prop) (l : list Q) : Prop :=
  match l with
  | x :: l' =>
      match l' with
      | y :: _ => R x y ∧ ascending R l'
      | [] => True
      end
  | [] => True
  end.

(** The terms [np.trapz] sums for finite ordinates [y] at finite abscissas
    [x]. *)
Definition trapezoids (y x : list Q) : list Q :=
  (λ v, v / 2)%Q
  <$> zip_with Qmult (zip_with (λ a b, b + - a)%Q x (drop 1 x))
        (zip_with Qplus (drop 1 y) (take (length y - 1) y)).

(** The stand-in collaborators with a concordance that is never a number. *)
Definition unscored : Collaborators := {|
  sqrt_pos := Demo.sqrt6;
  t_ppf := Demo.t_quantile;
  str_float := Demo.show_float;
  rskf_split := Demo.kfold;
  train_test_split := Demo.holdout;
  scaler := list pyfloat;
  scaler_fit := Demo.center_fit;
  scaler_transform := Demo.center_transform;
  labtrans := list pyfloat;
  lt_fit := Demo.cuts_fit;
  lt_transform := Demo.cuts_transform;
  lt_cuts := id;
  lt_out_features := length;
  rng_state := nat;
  mlp := Demo.net;
  MLPVanilla := Demo.new_net;
  train_log := nat;
  model_fit := Demo.train;
  predict_cif := Demo.cif;
  concordance_td := λ _ _ _ _, Some NaN;
  brier_score := Demo.brier
|}.

(** A sheet without rows. *)
Definition blank_sheet : dataset := {|
  ds_time := []; ds_event := []; ds_cat_ohe := []; ds_cat_width := 2;
  ds_cont := []; ds_cont_width := 1
|}.

(** A stand-in for what a stand-in network computes: one row of zeros per
    input row, as wide as the network's output, and a ValueError on a batch
    of one row. *)
Definition zero_rows (n : Demo.net) (x : matrix) : outcome matrix :=
  match x with
  | [_] => Raise ValueError
  | _ => Ok ((λ _, replicate n.1.1.2 (Finite 0)) <$> x)
  end.

(** The state in which the loop over the folds starts on [Demo.cohort]. *)
Definition cohort_world : world (H:=Demo.collaborators) :=
  @Build_world Demo.collaborators
    [A1f Demo.T0; A1i (ds_event Demo.cohort); A2 Demo.X0] 0%nat [] [] [] [].

(** The state [Demo.world0] for the collaborators without a score. *)
Definition unscored_world : world (H:=unscored) :=
  @Build_world unscored Demo.heap0 0%nat [] [] [] [].

(** The first fold of [Demo.cohort] as the script prepares it, the heap it
    leaves, and what the search of that fold retains. *)
Definition cohort_fold : fold_data (H:=Demo.collaborators) :=
  Eval vm_compute in
    match prepare_fold Demo.small_config Demo.tiny_globals 0
            Demo.split0.1 Demo.split0.2 (w_heap cohort_world) with
    | (Ok fd, _) => fd
    | (Raise _, _) => Demo.tiny_fold
    end.

Definition cohort_heap : heap :=
  Eval vm_compute in
    (prepare_fold (H:=Demo.collaborators) Demo.small_config Demo.tiny_globals 0
       Demo.split0.1 Demo.split0.2 (w_heap cohort_world)).2.

Definition cohort_best : search (H:=Demo.collaborators) :=
  Eval vm_compute in
    match grid_search Demo.small_config Demo.tiny_globals cohort_fold 0%nat with
    | (Ok best, _) => best
    | (Raise _, _) => search_init
    end.

Definition cohort_model : DeepHit Demo.net :=
  Eval vm_compute in
    match best_model cohort_best with
    | Some model => model
    | None => {| dh_net := {| shared_net := (0, [], 0, 0%Q, 0)%nat; risk_nets := [] |};
                 dh_lr := 0; dh_alpha := 0; dh_sigma := 0; duration_index := [] |}
    end.

(** The first fold of [Demo.subjects] as the script prepares it, and the
    heap it leaves. *)
Definition subjects_fold : fold_data (H:=Demo.collaborators) :=
  Eval vm_compute in
    match prepare_fold Demo.small_config Demo.tiny_globals 0
            Demo.split0.1 Demo.split0.2 Demo.heap0 with
    | (Ok fd, _) => fd
    | (Raise _, _) => Demo.tiny_fold
    end.

Definition subjects_heap : heap :=
  Eval vm_compute in
    (prepare_fold (H:=Demo.collaborators) Demo.small_config Demo.tiny_globals 0
       Demo.split0.1 Demo.split0.2 Demo.heap0).2.








(** The table the first fold of [Demo.cohort] writes. *)
Definition cohort_table : DataFrame :=
  Eval vm_compute in
    match build_table (H:=Demo.collaborators) 2 (durations_test_fold cohort_fold)
            (events_test_fold cohort_fold) (duration_index cohort_model)
            (Demo.cif cohort_model (X_test cohort_fold)) cohort_world with
    | (Ok df, _) => df
    | (Raise _, _) => {| df_rows := 0; df_columns := [] |}
    end.

(** The globals [setup] builds for [Demo.censored_sheet], and the state in
    which the loop over the folds starts on it. *)
Definition censored_globals : globals := {|
  y_time := 0; y_event := 1; X_all := 2;
  cat_dim := 2; in_features := 3; num_risks := 0;
  y_event1 := [0; 0; 0; 0; 0; 0; 0; 0]
|}.

Definition censored_world : world (H:=Demo.collaborators) :=
  @Build_world Demo.collaborators
    [A1f Demo.T0; A1i (ds_event Demo.censored_sheet); A2 Demo.X0] 0%nat [] [] [] [].

(** * Properties *)

(** ** Floats *)

Section FloatFacts.

Lemma fmul_NaN_r x : fmul x NaN = NaN.
Proof. by destruct x. Qed.

Lemma fsub_NaN_r x : fsub x NaN = NaN.
Proof. by destruct x. Qed.

Lemma fadd_NaN_r x : fadd x NaN = NaN.
Proof. by destruct x. Qed.

Lemma fdiv_NaN_r x : fdiv x NaN = NaN.
Proof. by destruct x. Qed.

Lemma fgtb_NaN_r x : fgtb x NaN = false.
Proof. by destruct x. Qed.

Lemma fgtb_NaN_l y : fgtb NaN y = false.
Proof. reflexivity. Qed.

(** The helpers compute what numpy computes. *)
Example np_unique_sorts :
  np_unique [Finite 7; Finite 3; Finite 7; Finite 114; Finite 3]
  = [Finite 3; Finite 7; Finite 114].
Proof. reflexivity. Qed.

Example np_trapz_two_points :
  np_trapz [Finite 1; Finite 3] [Finite 0; Finite 2] tt = (Ok (Finite (8 # 2)), tt).
Proof. reflexivity. Qed.

Example np_trapz_shape_mismatch :
  np_trapz [Finite 1; Finite 3; Finite 2; Finite 5] [Finite 0; Finite 2; Finite 3] tt
  = (Raise ValueError, tt).
Proof. reflexivity. Qed.

Example np_clip_horizon :
  np_clip (Finite 0) (Finite 114) <$> [Finite 120; Finite (-1); Finite 5; NaN]
  = [Finite 114; Finite 0; Finite 5; NaN].
Proof. reflexivity. Qed.

Example zero_over_zero : fdiv (Finite 0) (Finite 0) = NaN.
Proof. reflexivity. Qed.

Lemma Qcompare_refl_eq (q r : Q) : (q == r)%Q → (q ?= r)%Q = Eq.
Proof. apply Qeq_alt. Qed.

Lemma Qcompare_pos (q : Q) : (0 < q)%Q → (q ?= 0)%Q = Gt.
Proof. apply Qgt_alt. Qed.

Lemma fgtb_irrefl x : fgtb x x = false.
Proof.
  destruct x as [q| | |]; simpl; try reflexivity.
  by rewrite Qcompare_refl_eq.
Qed.


Lemma fsum_Finite_acc (a : Q) (qs : list Q) :
  foldl fadd (Finite a) (Finite <$> qs) = Finite (foldl Qplus a qs).
Proof.
  revert a. induction qs as [|q qs IH]; intros a; simpl; [done|]. apply IH.
Qed.

Lemma fsum_Finite (qs : list Q) :
  fsum (Finite <$> qs) = Finite (foldl Qplus 0%Q qs).
Proof. apply fsum_Finite_acc. Qed.

Lemma fdiv_Finite_pos (a b : Q) :
  (0 < b)%Q → fdiv (Finite a) (Finite b) = Finite (a / b).
Proof. intros Hb. simpl. by rewrite Qcompare_pos. Qed.

Lemma inject_nat_pos (n : nat) : (0 < n)%nat → (0 < inject_Z (Z.of_nat n))%Q.
Proof.
  intros Hn. change 0%Q with (inject_Z 0). rewrite <- Zlt_Qlt. lia.
Qed.

Lemma Qsum_nonneg_acc (a : Q) (qs : list Q) :
  (0 <= a)%Q → Forall (λ q, (0 <= q)%Q) qs → (0 <= foldl Qplus a qs)%Q.
Proof.
  revert a. induction qs as [|q qs IH]; intros a Ha Hqs; simpl; [done|].
  inversion Hqs; subst. apply IH; [|done].
  rewrite <- (Qplus_0_l 0). by apply Qplus_le_compat.
Qed.

End FloatFacts.

(** ** The state and exception monad *)

Section MonadFacts.
Context {S : Type}.

Lemma bind_ok {A B} (m : M S A) (k : A → M S B) s a s' :
  m s = (Ok a, s') → bind m k s = k a s'.
Proof. intros Hm. unfold bind. by rewrite Hm. Qed.

Lemma bind_raise {A B} (m : M S A) (k : A → M S B) s e s' :
  m s = (Raise e, s') → bind m k s = (Raise e, s').
Proof. intros Hm. unfold bind. by rewrite Hm. Qed.

Lemma bind_Ok_inv {A B} (m : M S A) (k : A → M S B) s b s'' :
  bind m k s = (Ok b, s'') → ∃ a s', m s = (Ok a, s') ∧ k a s' = (Ok b, s'').
Proof.
  unfold bind. destruct (m s) as [[a|e] s'] eqn:Hm; intros Hk; [eauto|done].
Qed.

Lemma bind_ext {A B} (m1 m2 : M S A) (k1 k2 : A → M S B) s :
  m1 s = m2 s → (∀ a s', k1 a s' = k2 a s') → bind m1 k1 s = bind m2 k2 s.
Proof.
  intros Hm Hk. unfold bind. rewrite Hm.
  destruct (m2 s) as [[a|e] s']; [apply Hk|done].
Qed.

Lemma for_in_ext {A B} (l : list A) (f1 f2 : A → B → M S B) acc s :
  (∀ x acc s, f1 x acc s = f2 x acc s) →
  for_in l f1 acc s = for_in l f2 acc s.
Proof.
  intros Hf. revert acc s. induction l as [|x l IH]; intros acc s; simpl; [done|].
  apply bind_ext; [apply Hf|]. intros a s'. apply IH.
Qed.

Lemma for_in_app {A B} (l1 l2 : list A) (f : A → B → M S B) acc s :
  for_in (l1 ++ l2) f acc s = bind (for_in l1 f acc) (for_in l2 f) s.
Proof.
  revert acc s. induction l1 as [|x l1 IH]; intros acc s; simpl.
  - reflexivity.
  - unfold bind. destruct (f x acc s) as [[a|e] s']; [|done].
    rewrite IH. reflexivity.
Qed.

(** A loop over a concatenation of blocks is a loop over the blocks, each
    running its own loop. *)
Lemma for_in_bind {A A' B} (l : list A') (g : A' → list A)
    (f : A → B → M S B) acc s :
  for_in (l ≫= g) f acc s = for_in l (λ x acc, for_in (g x) f acc) acc s.
Proof.
  revert acc s. induction l as [|x l IH]; intros acc s; simpl; [done|].
  rewrite for_in_app. apply bind_ext; [done|]. intros a s'. apply IH.
Qed.

Lemma for_in_singleton {A B} (x : A) (f : A → B → M S B) acc s :
  for_in [x] f acc s = f x acc s.
Proof.
  simpl. unfold bind. by destruct (f x acc s) as [[a|e] s'].
Qed.

End MonadFacts.

(** ** The confidence-interval aggregator *)

Section AggregatorFacts.
Context `{Collaborators}.

Lemma np_mean_Finite (qs : list Q) :
  (0 < length qs)%nat →
  np_mean (Finite <$> qs)
  = Finite (foldl Qplus 0%Q qs / inject_Z (Z.of_nat (length qs))).
Proof.
  intros Hn. unfold np_mean. rewrite fsum_Finite, length_fmap.
  apply fdiv_Finite_pos. by apply inject_nat_pos.
Qed.

Lemma stats_sem_small (data : list pyfloat) :
  (length data < 2)%nat → stats_sem data = NaN.
Proof.
  intros Hn. destruct data as [|x [|y data]]; simpl in Hn; [| |lia].
  - reflexivity.
  - unfold stats_sem, np_var, np_mean, fsum. simpl length. simpl foldl.
    destruct x as [q| | |]; try reflexivity.
    simpl.
    rewrite Qcompare_refl_eq; [reflexivity|].
    field.
Qed.

Lemma Qsquares_nonneg (m : Q) (qs : list Q) :
  Forall (λ q, (0 <= q)%Q) ((λ x, (x + - m) * (x + - m))%Q <$> qs).
Proof.
  apply Forall_fmap, Forall_forall. intros x _. simpl.
  generalize (x + - m)%Q. intros y. unfold Qle, Qmult. simpl.
  pose proof (Z.square_nonneg (Qnum y)). lia.
Qed.

(** The standard error of [n >= 2] numbers is a number as soon as square
    roots of positive numbers are positive. *)
Lemma stats_sem_Finite (qs : list Q) :
  (2 <= length qs)%nat →
  (0 < sqrt_pos (inject_Z (Z.of_nat (length qs))))%Q →
  ∃ se, stats_sem (Finite <$> qs) = Finite se.
Proof.
  intros Hn Hsqrt. unfold stats_sem, np_var.
  rewrite np_mean_Finite by lia. rewrite length_fmap.
  set (m := (foldl Qplus 0 qs / inject_Z (Z.of_nat (length qs)))%Q).
  rewrite <- list_fmap_compose.
  assert (Hdev : (λ x, fmul (fsub x (Finite m)) (fsub x (Finite m))) ∘ Finite
                 = Finite ∘ (λ x, (x + - m) * (x + - m))%Q) by reflexivity.
  rewrite Hdev, list_fmap_compose, fsum_Finite.
  set (ss := foldl Qplus 0%Q _).
  assert (Hss : (0 <= ss)%Q).
  { apply Qsum_nonneg_acc; [apply Qle_refl|apply Qsquares_nonneg]. }
  assert (Hd : (0 < inject_Z (Z.max (Z.of_nat (length qs) - 1) 0))%Q).
  { change 0%Q with (inject_Z 0). rewrite <- Zlt_Qlt. lia. }
  unfold of_Z. rewrite fdiv_Finite_pos by done.
  assert (Hv : (0 <= ss / inject_Z (Z.max (Z.of_nat (length qs) - 1) 0))%Q).
  { apply Qle_shift_div_l; [done|]. by rewrite Qmult_0_l. }
  unfold fsqrt, of_nat, of_Z.
  destruct (Qcompare_spec (ss / inject_Z (Z.max (Z.of_nat (length qs) - 1) 0)) 0)
    as [Heq|Hlt|Hgt].
  - rewrite Qcompare_pos by (by apply inject_nat_pos; lia).
    rewrite fdiv_Finite_pos; [eauto|]. exact Hsqrt.
  - exfalso. by apply (Qlt_not_le _ _ Hlt).
  - rewrite Qcompare_pos by (by apply inject_nat_pos; lia).
    rewrite fdiv_Finite_pos; [eauto|]. exact Hsqrt.
Qed.

(** C2, as amended: for fewer than two values the aggregator raises nothing.
    It returns the mean of the data (the value itself for one value, NaN for
    none) with both bounds NaN, whatever the confidence level and whatever
    the quantile function returns. *)
Theorem confidence_interval_small_sample {S} (data : list pyfloat)
    (confidence : pyfloat) (s : S) :
  (length data < 2)%nat →
  compute_confidence_interval data confidence s
  = (Ok (np_mean data, NaN, NaN), s)
  ∧ (∀ x, data = [Finite x] → feq (np_mean data) (Finite x))
  ∧ (data = [] → np_mean data = NaN).
Proof.
  intros Hn. split; [|split].
  - unfold compute_confidence_interval, ret.
    rewrite stats_sem_small by done. simpl fmul.
    by rewrite fsub_NaN_r, fadd_NaN_r.
  - intros x ->. unfold np_mean, fsum. simpl. field.
  - intros ->. reflexivity.
Qed.

(** C6: for [n >= 2] numbers the aggregator returns the sample mean
    [sum / n] and the interval [mean - h, mean + h], where [h] is the
    standard error of the mean times the Student-t quantile with [n - 1]
    degrees of freedom at level [(1 + confidence) / 2] (0.975 for the default
    0.95); the interval is symmetric about the mean; it is strictly wider at a
    confidence level whose quantile is larger; and the mean of
    [0.70, 0.72, 0.75, 0.74, 0.73] is 0.728. *)
Theorem confidence_interval_student_t {S} (qs : list Q) (s : S) :
  let n := length qs in
  let mean := (foldl Qplus 0 qs / inject_Z (Z.of_nat n))%Q in
  (2 <= n)%nat →
  (0 < sqrt_pos (inject_Z (Z.of_nat n)))%Q →
  ∃ se, stats_sem (Finite <$> qs) = Finite se
    ∧ (∀ confidence tq,
         t_ppf (ci_level confidence) (Z.of_nat n - 1) = Finite tq →
         ∃ lower upper,
           compute_confidence_interval (Finite <$> qs) confidence s
           = (Ok (Finite mean, Finite lower, Finite upper), s)
           ∧ (mean - lower == se * tq)%Q ∧ (upper - mean == se * tq)%Q)
    ∧ (∀ c1 c2 t1 t2 lower1 upper1 lower2 upper2,
         t_ppf (ci_level c1) (Z.of_nat n - 1) = Finite t1 →
         t_ppf (ci_level c2) (Z.of_nat n - 1) = Finite t2 →
         (t1 < t2)%Q → (0 < se)%Q →
         compute_confidence_interval (Finite <$> qs) c1 s
         = (Ok (Finite mean, Finite lower1, Finite upper1), s) →
         compute_confidence_interval (Finite <$> qs) c2 s
         = (Ok (Finite mean, Finite lower2, Finite upper2), s) →
         (lower2 < lower1)%Q ∧ (upper1 < upper2)%Q)
    ∧ feq (ci_level default_confidence) (Finite 0.975)
    ∧ feq (np_mean (Finite <$> [0.70; 0.72; 0.75; 0.74; 0.73]%Q)) (Finite 0.728).
Proof.
  intros n mean Hn Hsqrt.
  destruct (stats_sem_Finite qs Hn Hsqrt) as [se Hse].
  assert (Hci : ∀ confidence tq,
             t_ppf (ci_level confidence) (Z.of_nat n - 1) = Finite tq →
             compute_confidence_interval (Finite <$> qs) confidence s
             = (Ok (Finite mean, Finite (mean + - (se * tq)),
                    Finite (mean + se * tq)), s)).
  { intros confidence tq Htq. unfold compute_confidence_interval, ret.
    rewrite Hse, np_mean_Finite by lia. rewrite length_fmap.
    fold (ci_level confidence). fold n. by rewrite Htq. }
  exists se. split; [done|]. split; [|split; [|split]].
  - intros confidence tq Htq. eexists _, _. split; [by apply Hci|].
    split; ring.
  - intros c1 c2 t1 t2 lo1 up1 lo2 up2 Ht1 Ht2 Hlt Hpos H1 H2.
    rewrite (Hci _ _ Ht1) in H1. rewrite (Hci _ _ Ht2) in H2.
    injection H1 as <- <-. injection H2 as <- <-.
    assert (se * t1 < se * t2)%Q by (by apply Qmult_lt_l).
    split; lra.
  - reflexivity.
  - reflexivity.
Qed.

End AggregatorFacts.

(** ** The number of risk networks *)

Section NetFacts.
Context `{Collaborators}.

Lemma foldl_max_ge (x : Z) (v : list Z) : x ≤ foldl Z.max x v.
Proof.
  revert x. induction v as [|y v IH]; intros x; simpl; [lia|].
  specialize (IH (Z.max x y)). lia.
Qed.

Lemma foldl_max_spec (x : Z) (v : list Z) :
  foldl Z.max x v ∈ x :: v ∧ ∀ e, e ∈ x :: v → e ≤ foldl Z.max x v.
Proof.
  revert x. induction v as [|y v IH]; intros x; simpl.
  - split; [apply elem_of_cons; by left|].
    intros e He. apply list_elem_of_singleton in He. lia.
  - destruct (IH (Z.max x y)) as [Hin Hle]. split.
    + apply elem_of_cons in Hin as [Hin|Hin].
      * rewrite Hin.
        destruct (Z.max_spec x y) as [[_ ->]|[_ ->]]; rewrite !elem_of_cons; auto.
      * rewrite !elem_of_cons; auto.
    + intros e He. pose proof (foldl_max_ge (Z.max x y) v).
      apply elem_of_cons in He as [->|He]; [lia|].
      apply elem_of_cons in He as [->|He]; [lia|].
      apply Hle. rewrite elem_of_cons; auto.
Qed.

(** [series_max] is the largest element. *)
Lemma series_max_spec (events : list Z) (m : Z) :
  series_max events = Some m ↔ m ∈ events ∧ ∀ e, e ∈ events → e ≤ m.
Proof.
  destruct events as [|x v]; simpl.
  - split; [done|]. intros [Hin _]. by apply elem_of_nil in Hin.
  - destruct (foldl_max_spec x v) as [Hin Hle]. split.
    + intros [= <-]. done.
    + intros [Hm Hmax]. f_equal. specialize (Hle _ Hm). specialize (Hmax _ Hin). lia.
Qed.

Lemma new_mlp_eq (i : nat) (nodes : list nat) (o : nat) (bn : bool) (dropout : Q)
    (r : rng_state) :
  new_mlp i nodes o bn dropout r
  = (Ok (MLPVanilla i nodes o bn dropout r).1, (MLPVanilla i nodes o bn dropout r).2).
Proof. unfold new_mlp. by destruct (MLPVanilla i nodes o bn dropout r). Qed.

Lemma risk_net_step (shared indiv : list nat) (out : nat) (bn : bool) (dropout : Q)
    (w : nat) (acc : list mlp) (r : rng_state) :
  last shared = Some w →
  (let* w := getitem_last shared in
   let* net := new_mlp w indiv out bn dropout in
   ret (acc ++ [net])) r
  = (Ok (acc ++ [(MLPVanilla w indiv out bn dropout r).1]),
     (MLPVanilla w indiv out bn dropout r).2).
Proof.
  intros Hw. unfold getitem_last, bind, lift_option, ret, new_mlp. rewrite Hw.
  by destruct (MLPVanilla w indiv out bn dropout r).
Qed.

Lemma risk_net_loop (shared indiv : list nat) (out : nat) (bn : bool) (dropout : Q)
    (w : nat) (iters : list Z) (acc : list mlp) (r : rng_state) :
  last shared = Some w →
  ∃ nets r',
    for_in iters
      (λ _ nets,
         let* w := getitem_last shared in
         let* net := new_mlp w indiv out bn dropout in
         ret (nets ++ [net])) acc r
    = (Ok nets, r') ∧ length nets = (length acc + length iters)%nat.
Proof.
  intros Hw. revert acc r. induction iters as [|i iters IH]; intros acc r; simpl.
  - exists acc, r. split; [done|lia].
  - erewrite bind_ok by (by apply risk_net_step).
    destruct (IH (acc ++ [(MLPVanilla w indiv out bn dropout r).1])
                (MLPVanilla w indiv out bn dropout r).2) as (nets & r' & -> & Hlen).
    exists nets, r'. split; [done|]. rewrite length_app in Hlen. simpl in Hlen. lia.
Qed.

Lemma py_range_length (n : Z) : length (py_range n) = Z.to_nat n.
Proof. unfold py_range. by rewrite length_fmap, length_seq. Qed.

Lemma init_Ok_inv in_feat shared indiv n_risks out bn dropout r net r' :
  CauseSpecificNet_init in_feat shared indiv n_risks out bn dropout r = (Ok net, r') →
  shared ≠ [] ∧ length (risk_nets net) = Z.to_nat n_risks.
Proof.
  unfold CauseSpecificNet_init.
  intros (w & r1 & Hw & Hrest)%bind_Ok_inv.
  unfold getitem_last, lift_option in Hw.
  destruct (last shared) as [w'|] eqn:Hlast; [|done]. injection Hw as -> ->.
  split; [by intros ->|].
  apply bind_Ok_inv in Hrest as (s & r2 & _ & Hrest).
  apply bind_Ok_inv in Hrest as (nets & r3 & Hloop & Hrest).
  injection Hrest as <- _. simpl.
  destruct (risk_net_loop shared indiv out bn dropout w (py_range n_risks) [] r2 Hlast)
    as (nets' & r4 & Hloop' & Hlen).
  rewrite Hloop' in Hloop. injection Hloop as -> _.
  by rewrite Hlen, py_range_length.
Qed.

End NetFacts.

(** ** The grid search *)

Section GridSearchFacts.
Context `{Collaborators}.

Lemma fgtb_Finite_true (a b : Q) : fgtb (Finite a) (Finite b) = true ↔ (b < a)%Q.
Proof.
  simpl. destruct (Qcompare_spec a b) as [Heq|Hlt|Hgt]; split; try done.
  - intros Hba. rewrite Heq in Hba. by apply Qlt_irrefl in Hba.
  - intros Hba. exfalso. apply (Qlt_irrefl a). by apply (Qlt_trans _ b).
Qed.

Lemma fgtb_Finite_false (a b : Q) : fgtb (Finite a) (Finite b) = false ↔ (a <= b)%Q.
Proof.
  rewrite <- not_true_iff_false, fgtb_Finite_true.
  split; [apply Qnot_lt_le|apply Qle_not_lt].
Qed.

Lemma bind_length {A B} (f : A → list B) (l : list A) (k : nat) :
  (∀ x, length (f x) = k) → length (l ≫= f) = (length l * k)%nat.
Proof.
  intros Hf. induction l as [|x l IH]; [done|].
  rewrite bind_cons, length_app, IH, Hf. simpl. lia.
Qed.

Lemma combinations_length (pg : param_grid) :
  length (combinations pg)
  = (length (pg_lr pg) * (length (pg_alpha pg) * (length (pg_sigma pg)
     * (length (pg_dropout pg) * (length (pg_batch_size pg) * 1)))))%nat.
Proof.
  unfold combinations.
  repeat (apply bind_length; intros ?). reflexivity.
Qed.

Lemma elem_of_combinations (pg : param_grid) (p : hparams) :
  p ∈ combinations pg ↔
  hp_lr p ∈ pg_lr pg ∧ hp_alpha p ∈ pg_alpha pg ∧ hp_sigma p ∈ pg_sigma pg
  ∧ hp_dropout p ∈ pg_dropout pg ∧ hp_batch_size p ∈ pg_batch_size pg.
Proof.
  unfold combinations. split.
  - intros Hp.
    apply list_elem_of_bind in Hp as (lr & Hp & Hlr).
    apply list_elem_of_bind in Hp as (alpha & Hp & Halpha).
    apply list_elem_of_bind in Hp as (sigma & Hp & Hsigma).
    apply list_elem_of_bind in Hp as (dropout & Hp & Hdropout).
    apply list_elem_of_bind in Hp as (bs & Hp & Hbs).
    apply list_elem_of_singleton in Hp as ->. done.
  - intros (Hlr & Halpha & Hsigma & Hdropout & Hbs).
    apply list_elem_of_bind. exists (hp_lr p). split; [|done].
    apply list_elem_of_bind. exists (hp_alpha p). split; [|done].
    apply list_elem_of_bind. exists (hp_sigma p). split; [|done].
    apply list_elem_of_bind. exists (hp_dropout p). split; [|done].
    apply list_elem_of_bind. exists (hp_batch_size p). split; [|done].
    apply list_elem_of_singleton. by destruct p.
Qed.

(** The five nested loops are one loop over [combinations]. *)
Lemma grid_search_flat (c : config) (g : globals) (fd : fold_data) (r : rng_state) :
  grid_search c g fd r
  = for_in (combinations (grid c))
      (λ p best, let* x := trial c g fd p in ret (keep_best p x best))
      search_init r.
Proof.
  unfold grid_search, combinations. symmetry.
  rewrite for_in_bind. apply for_in_ext. intros lr best1 r1.
  rewrite for_in_bind. apply for_in_ext. intros alpha best2 r2.
  rewrite for_in_bind. apply for_in_ext. intros sigma best3 r3.
  rewrite for_in_bind. apply for_in_ext. intros dropout best4 r4.
  rewrite for_in_bind. apply for_in_ext. intros bs best5 r5.
  by rewrite for_in_singleton.
Qed.

(** Interleaving the comparison with the trials, or running all trials and
    comparing afterwards, is the same. *)
Lemma loop_is_trials_then_select (c : config) (g : globals) (fd : fold_data)
    (ps : list hparams) acc (r : rng_state) :
  for_in ps (λ p best, let* x := trial c g fd p in ret (keep_best p x best))
    (foldl (λ best pr, keep_best pr.1 pr.2 best) search_init acc) r
  = (let* rs := for_in ps (λ p rs, let* x := trial c g fd p in ret (rs ++ [(p, x)])) acc in
     ret (foldl (λ best pr, keep_best pr.1 pr.2 best) search_init rs)) r.
Proof.
  revert acc r. induction ps as [|p ps IH]; intros acc r; simpl; [done|].
  unfold bind at 1 2 4 5 6. destruct (trial c g fd p r) as [[x|e] r1]; simpl; [|done].
  specialize (IH (acc ++ [(p, x)]) r1). rewrite foldl_app in IH. simpl in IH.
  rewrite IH. reflexivity.
Qed.

Lemma run_trials_params (c : config) (g : globals) (fd : fold_data)
    (ps : list hparams) acc (r : rng_state) rs r' :
  for_in ps (λ p rs, let* x := trial c g fd p in ret (rs ++ [(p, x)])) acc r
  = (Ok rs, r') →
  rs.*1 = acc.*1 ++ ps.
Proof.
  revert acc r. induction ps as [|p ps IH]; intros acc r; simpl.
  - intros [= <- <-]. by rewrite app_nil_r.
  - intros (acc' & r1 & Hstep & Hrest)%bind_Ok_inv.
    apply bind_Ok_inv in Hstep as (x & r2 & _ & [= <- <-]).
    apply IH in Hrest. rewrite Hrest, fmap_app. simpl. by rewrite <- app_assoc.
Qed.

(** What a trial that completes did: it built a fresh network for
    [num_risks] risks with the combination's dropout rate, from the generator
    as it found it; it put the network in a model with the combination's
    learning rate, [alpha] and [sigma] and the fold's cut points; it trained
    that model on the fold's training rows and discretized labels with the
    combination's batch size, for 200 epochs, against the validation rows;
    and its score is the concordance of the survival table [1 - cif_val[0]]
    of the trained model on the validation labels for event 1. *)
Lemma trial_Ok_inv c g fd p r sc log model r' :
  trial c g fd p r = (Ok (sc, log, model), r') →
  ∃ net r1 cif0,
    CauseSpecificNet_init (in_features g) (num_nodes_shared c) (num_nodes_indiv c)
      (num_risks g) (lt_out_features (fold_labtrans fd)) true (hp_dropout p) r
    = (Ok net, r1)
    ∧ model_fit {| dh_net := net; dh_lr := hp_lr p; dh_alpha := hp_alpha p;
                   dh_sigma := hp_sigma p;
                   duration_index := lt_cuts (fold_labtrans fd) |}
        (X_train fd) (durations_train fd, events_train fd) (hp_batch_size p) 200
        (X_val fd, (durations_val fd, events_val fd)) r1
      = ((dh_net model, log), r')
    ∧ dh_lr model = hp_lr p ∧ dh_alpha model = hp_alpha p
    ∧ dh_sigma model = hp_sigma p
    ∧ duration_index model = lt_cuts (fold_labtrans fd)
    ∧ predict_cif model (X_val fd) !! 0%nat = Some cif0
    ∧ length cif0 = length (duration_index model)
    ∧ concordance_td (one_minus cif0) (duration_index model)
        (y_val fd).1 (is_event1 (y_val fd).2) = Some sc.
Proof.
  unfold trial.
  intros (net & r1 & Hinit & Hrest)%bind_Ok_inv.
  apply bind_Ok_inv in Hrest as ([net' log'] & r2 & Hfit & Hrest).
  apply bind_Ok_inv in Hrest as (cif0 & r3 & Hcif & Hrest).
  apply bind_Ok_inv in Hrest as (cif1 & r4 & Hframe & Hrest).
  apply bind_Ok_inv in Hrest as (sc' & r5 & Hsc & Hrest).
  injection Hrest as <- <- <- <-.
  unfold fit in Hfit.
  destruct (model_fit _ _ _ _ _ _ r1) as [res r2'] eqn:Hmodel_fit.
  injection Hfit as -> ->.
  unfold getitem, lift_option in Hcif. simpl in Hcif.
  destruct (predict_cif _ (X_val fd) !! 0%nat) as [cif0'|] eqn:Hlook; [|done].
  injection Hcif as -> ->.
  unfold make_frame in Hframe. simpl in Hframe.
  destruct (decide _) as [Hlen|]; [|done]. injection Hframe as -> ->.
  unfold lift_option in Hsc. simpl in Hsc.
  destruct (concordance_td _ _ _ _) as [sc''|] eqn:Hconc; [|done].
  injection Hsc as -> ->.
  exists net, r1, cif1. simpl. repeat split; done.
Qed.

(** A trial completes when the constructor returns, the incidences of
    event 1 have one row per cut point and the concordance is defined. *)
Lemma trial_complete c g fd p r net r1 net' log r2 cif0 sc :
  CauseSpecificNet_init (in_features g) (num_nodes_shared c) (num_nodes_indiv c)
    (num_risks g) (lt_out_features (fold_labtrans fd)) true (hp_dropout p) r
  = (Ok net, r1) →
  model_fit {| dh_net := net; dh_lr := hp_lr p; dh_alpha := hp_alpha p;
               dh_sigma := hp_sigma p;
               duration_index := lt_cuts (fold_labtrans fd) |}
    (X_train fd) (durations_train fd, events_train fd) (hp_batch_size p) 200
    (X_val fd, (durations_val fd, events_val fd)) r1
  = ((net', log), r2) →
  let model := {| dh_net := net'; dh_lr := hp_lr p; dh_alpha := hp_alpha p;
                  dh_sigma := hp_sigma p;
                  duration_index := lt_cuts (fold_labtrans fd) |} in
  predict_cif model (X_val fd) !! 0%nat = Some cif0 →
  length cif0 = length (lt_cuts (fold_labtrans fd)) →
  concordance_td (one_minus cif0) (lt_cuts (fold_labtrans fd))
    (y_val fd).1 (is_event1 (y_val fd).2) = Some sc →
  trial c g fd p r = (Ok (sc, log, model), r2).
Proof.
  intros Hinit Hfit model Hcif Hlen Hsc. unfold trial.
  erewrite bind_ok by exact Hinit.
  erewrite bind_ok by (unfold fit; rewrite Hfit; reflexivity).
  cbv beta iota. simpl dh_lr. simpl dh_alpha. simpl dh_sigma. simpl duration_index.
  fold model.
  erewrite bind_ok by (unfold getitem, lift_option; rewrite Hcif; reflexivity).
  erewrite bind_ok
    by (unfold make_frame; rewrite decide_True by exact Hlen; reflexivity).
  erewrite bind_ok by (unfold lift_option; rewrite Hsc; reflexivity).
  reflexivity.
Qed.

(** The results of a run of trials lie behind the accumulator it started
    with. *)
Lemma run_trials_extends (c : config) (g : globals) (fd : fold_data)
    (ps : list hparams) acc (r : rng_state) rs r' :
  for_in ps (λ p rs, let* x := trial c g fd p in ret (rs ++ [(p, x)])) acc r
  = (Ok rs, r') →
  ∃ new, rs = acc ++ new.
Proof.
  revert acc r. induction ps as [|p ps IH]; intros acc r; simpl.
  - intros [= <- <-]. exists []. by rewrite app_nil_r.
  - intros (acc' & r1 & Hstep & Hrest)%bind_Ok_inv.
    apply bind_Ok_inv in Hstep as (x & r2 & _ & [= <- <-]).
    apply IH in Hrest as (new & ->). exists ((p, x) :: new).
    by rewrite <- app_assoc.
Qed.

(** Result [i] of a run of trials is what the trial of combination [i]
    returned from the generator state that the first [i] trials left, and
    that trial left the state from which the next one starts. *)
Lemma run_trials_chain (c : config) (g : globals) (fd : fold_data)
    (ps : list hparams) acc (r : rng_state) rs r' :
  for_in ps (λ p rs, let* x := trial c g fd p in ret (rs ++ [(p, x)])) acc r
  = (Ok rs, r') →
  ∀ i p x,
    rs !! (length acc + i)%nat = Some (p, x) →
    ps !! i = Some p
    ∧ trial c g fd p
        (for_in (take i ps)
           (λ p rs, let* x := trial c g fd p in ret (rs ++ [(p, x)])) acc r).2
      = (Ok x,
         (for_in (take (S i) ps)
            (λ p rs, let* x := trial c g fd p in ret (rs ++ [(p, x)])) acc r).2).
Proof.
  revert acc r. induction ps as [|p0 ps IH]; intros acc r; simpl.
  - intros [= <- <-] i p x Hi. apply lookup_lt_Some in Hi. lia.
  - intros (acc' & r1 & Hstep & Hrest)%bind_Ok_inv.
    apply bind_Ok_inv in Hstep as (x0 & r2 & Htrial & [= <- <-]).
    intros [|i] p x Hi.
    + destruct (run_trials_extends _ _ _ _ _ _ _ _ Hrest) as (new & ->).
      rewrite Nat.add_0_r, <- app_assoc in Hi.
      change ([(p0, x0)] ++ new) with ((p0, x0) :: new) in Hi.
      rewrite list_lookup_middle in Hi by done.
      injection Hi as <- <-. split; [done|].
      rewrite take_0. simpl. unfold bind at 1 2. rewrite Htrial. reflexivity.
    + replace (length acc + S i)%nat with (length (acc ++ [(p0, x0)]) + i)%nat in Hi
        by (rewrite length_app; simpl; lia).
      destruct (IH _ _ Hrest i p x Hi) as [Hp Hchain]. split; [done|].
      assert (Hstep : (let* x1 := trial c g fd p0 in ret (acc ++ [(p0, x1)])) r
                      = (Ok (acc ++ [(p0, x0)]), r2))
        by (unfold bind; rewrite Htrial; reflexivity).
      simpl. by rewrite !(bind_ok _ _ _ _ _ Hstep).
Qed.

(** What the comparison retains from a list of finite scores: the first
    result whose score no other result exceeds. *)
Lemma select_best_first_max
    (rs : list (hparams * (pyfloat * train_log * DeepHit mlp))) :
  rs ≠ [] →
  (∀ pr, pr ∈ rs → is_finite (trial_score pr)) →
  ∃ i p sc log model,
    rs !! i = Some (p, (sc, log, model))
    ∧ select_best rs = {| best_val_c_index := sc; best_params := Some p;
                          best_log := Some log; best_model := Some model |}
    ∧ (∀ pr, pr ∈ rs → fgtb (trial_score pr) sc = false)
    ∧ (∀ j pr, (j < i)%nat → rs !! j = Some pr → fgtb sc (trial_score pr) = true).
Proof.
  induction rs as [|[p' [[sc' log'] model']] rs IH] using rev_ind; [done|].
  intros _ Hfin. unfold select_best. rewrite foldl_app. simpl.
  fold (select_best rs).
  assert (Hsc' : is_finite sc').
  { apply (Hfin (p', (sc', log', model'))), elem_of_app. right.
    by apply list_elem_of_singleton. }
  destruct sc' as [q'| | |]; try done.
  destruct rs as [|pr0 rs0].
  { exists 0%nat, p', (Finite q'), log', model'. simpl. split; [done|]. split; [done|].
    split.
    - intros pr ->%list_elem_of_singleton. apply fgtb_irrefl.
    - intros j pr Hj. lia. }
  destruct IH as (i & p & sc & log & model & Hi & Hsel & Hmax & Hfirst); [done| |].
  { intros pr Hpr. apply Hfin, elem_of_app. by left. }
  assert (Hsc : is_finite sc).
  { apply (Hfin (p, (sc, log, model))), elem_of_app. left.
    by eapply list_elem_of_lookup_2. }
  destruct sc as [q| | |]; try done.
  rewrite Hsel. simpl best_val_c_index.
  destruct (fgtb (Finite q') (Finite q)) eqn:Hcmp.
  - apply fgtb_Finite_true in Hcmp.
    exists (length (pr0 :: rs0)), p', (Finite q'), log', model'.
    split; [by rewrite list_lookup_middle|]. split; [done|]. split.
    + intros pr [Hpr| ->%list_elem_of_singleton]%elem_of_app; [|apply fgtb_irrefl].
      specialize (Hmax pr Hpr). specialize (Hfin pr (proj2 (elem_of_app _ _ _) (or_introl Hpr))).
      destruct (trial_score pr) as [s| | |]; try done.
      apply fgtb_Finite_false in Hmax. apply fgtb_Finite_false. lra.
    + intros j pr Hj Hpr. rewrite lookup_app_l in Hpr by done.
      assert (Hin : pr ∈ pr0 :: rs0) by (by eapply list_elem_of_lookup_2).
      specialize (Hmax pr Hin). specialize (Hfin pr (proj2 (elem_of_app _ _ _) (or_introl Hin))).
      destruct (trial_score pr) as [s| | |]; try done.
      apply fgtb_Finite_false in Hmax. apply fgtb_Finite_true. lra.
  - exists i, p, (Finite q), log, model.
    split; [by apply lookup_app_l_Some|]. split; [done|]. split.
    + intros pr [Hpr| ->%list_elem_of_singleton]%elem_of_app; [by apply Hmax|done].
    + intros j pr Hj Hpr. apply (Hfirst j pr Hj).
      apply lookup_lt_Some in Hi. by rewrite lookup_app_l in Hpr by lia.
Qed.

(** C3: the grid search runs one trial for every combination of the
    Cartesian product of the grid, in the order of the loops.  Trial [i]
    builds a fresh network for [num_risks] risks with the dropout rate of
    combination [i], from the generator state the first [i] trials left;
    trains it under the combination's learning rate, [alpha], [sigma] and
    batch size for 200 epochs on the fold's training data against its
    validation data; and scores the trained model by the concordance of
    [1 - cif_val[0]] on the validation labels for event 1.  A trial completes
    whenever the constructor returns, the incidences have one row per cut
    point and the concordance is defined.  The search retains the first
    combination whose validation concordance none exceeds, with the model and
    the log of that trial. *)
Theorem grid_search_first_best (c : config) (g : globals) (fd : fold_data)
    (r : rng_state) :
  (∀ p, p ∈ combinations (grid c) ↔
        hp_lr p ∈ pg_lr (grid c) ∧ hp_alpha p ∈ pg_alpha (grid c)
        ∧ hp_sigma p ∈ pg_sigma (grid c) ∧ hp_dropout p ∈ pg_dropout (grid c)
        ∧ hp_batch_size p ∈ pg_batch_size (grid c))
  ∧ length (combinations (grid c))
    = (length (pg_lr (grid c)) * (length (pg_alpha (grid c))
       * (length (pg_sigma (grid c)) * (length (pg_dropout (grid c))
       * (length (pg_batch_size (grid c)) * 1)))))%nat
  ∧ grid_search c g fd r
    = (let* rs := run_trials c g fd (combinations (grid c)) in
       ret (select_best rs)) r
  ∧ (∀ p r0 net r1 net' log r2 cif0 sc,
       CauseSpecificNet_init (in_features g) (num_nodes_shared c)
         (num_nodes_indiv c) (num_risks g) (lt_out_features (fold_labtrans fd))
         true (hp_dropout p) r0
       = (Ok net, r1) →
       model_fit {| dh_net := net; dh_lr := hp_lr p; dh_alpha := hp_alpha p;
                    dh_sigma := hp_sigma p;
                    duration_index := lt_cuts (fold_labtrans fd) |}
         (X_train fd) (durations_train fd, events_train fd) (hp_batch_size p) 200
         (X_val fd, (durations_val fd, events_val fd)) r1
       = ((net', log), r2) →
       let model := {| dh_net := net'; dh_lr := hp_lr p; dh_alpha := hp_alpha p;
                       dh_sigma := hp_sigma p;
                       duration_index := lt_cuts (fold_labtrans fd) |} in
       predict_cif model (X_val fd) !! 0%nat = Some cif0 →
       length cif0 = length (lt_cuts (fold_labtrans fd)) →
       concordance_td (one_minus cif0) (lt_cuts (fold_labtrans fd))
         (y_val fd).1 (is_event1 (y_val fd).2) = Some sc →
       trial c g fd p r0 = (Ok (sc, log, model), r2))
  ∧ ∀ rs r',
      run_trials c g fd (combinations (grid c)) r = (Ok rs, r') →
      rs.*1 = combinations (grid c)
      ∧ grid_search c g fd r = (Ok (select_best rs), r')
      ∧ (∀ i p sc log model,
           rs !! i = Some (p, (sc, log, model)) →
           combinations (grid c) !! i = Some p
           ∧ ∃ net r1 cif0,
               CauseSpecificNet_init (in_features g) (num_nodes_shared c)
                 (num_nodes_indiv c) (num_risks g)
                 (lt_out_features (fold_labtrans fd)) true (hp_dropout p)
                 (run_trials c g fd (take i (combinations (grid c))) r).2
               = (Ok net, r1)
               ∧ model_fit {| dh_net := net; dh_lr := hp_lr p;
                              dh_alpha := hp_alpha p; dh_sigma := hp_sigma p;
                              duration_index := lt_cuts (fold_labtrans fd) |}
                   (X_train fd) (durations_train fd, events_train fd)
                   (hp_batch_size p) 200
                   (X_val fd, (durations_val fd, events_val fd)) r1
                 = ((dh_net model, log),
                    (run_trials c g fd (take (S i) (combinations (grid c))) r).2)
               ∧ dh_lr model = hp_lr p ∧ dh_alpha model = hp_alpha p
               ∧ dh_sigma model = hp_sigma p
               ∧ duration_index model = lt_cuts (fold_labtrans fd)
               ∧ predict_cif model (X_val fd) !! 0%nat = Some cif0
               ∧ length cif0 = length (duration_index model)
               ∧ concordance_td (one_minus cif0) (duration_index model)
                   (y_val fd).1 (is_event1 (y_val fd).2) = Some sc)
      ∧ (rs ≠ [] →
         (∀ pr, pr ∈ rs → is_finite (trial_score pr)) →
         ∃ i p sc log model,
           rs !! i = Some (p, (sc, log, model))
           ∧ select_best rs
             = {| best_val_c_index := sc; best_params := Some p;
                  best_log := Some log; best_model := Some model |}
           ∧ (∀ pr, pr ∈ rs → fgtb (trial_score pr) sc = false)
           ∧ (∀ j pr, (j < i)%nat → rs !! j = Some pr →
                      fgtb sc (trial_score pr) = true)).
Proof.
  assert (Heq : grid_search c g fd r
                = (let* rs := run_trials c g fd (combinations (grid c)) in
                   ret (select_best rs)) r).
  { rewrite grid_search_flat.
    apply (loop_is_trials_then_select c g fd (combinations (grid c)) [] r). }
  split; [apply elem_of_combinations|]. split; [apply combinations_length|].
  split; [exact Heq|].
  split.
  { intros p r0 net r1 net' log r2 cif0 sc Hinit Hfit model Hcif Hlen Hsc.
    by eapply trial_complete. }
  intros rs r' Hrs. split; [|split; [|split]].
  - by apply run_trials_params in Hrs.
  - rewrite Heq. by erewrite bind_ok by apply Hrs.
  - intros i p sc log model Hi.
    destruct (run_trials_chain c g fd _ [] r rs r' Hrs i p (sc, log, model) Hi)
      as [Hp Htrial].
    split; [exact Hp|].
    by apply trial_Ok_inv in Htrial.
  - apply select_best_first_max.
Qed.

End GridSearchFacts.

(** ** Arrays: what a fold may write *)

Section HeapFacts.
Context `{Collaborators}.

Lemma stateless_ret {S A} (a : A) : stateless (S:=S) (ret a).
Proof. done. Qed.

Lemma stateless_raise {S A} (e : exn) : stateless (S:=S) (A:=A) (raise e).
Proof. done. Qed.

Lemma stateless_lift_option {S A} (e : exn) (o : option A) :
  stateless (S:=S) (lift_option e o).
Proof. by destruct o. Qed.

Lemma stateless_bind {S A B} (m : M S A) (k : A → M S B) :
  stateless m → (∀ a, stateless (k a)) → stateless (bind m k).
Proof.
  intros Hm Hk s. unfold bind. specialize (Hm s).
  destruct (m s) as [[a|e] s']; simpl in *; subst; [apply Hk|done].
Qed.

Lemma stateless_for_in {S A B} (l : list A) (f : A → B → M S B) (acc : B) :
  (∀ x acc, stateless (f x acc)) → stateless (for_in l f acc).
Proof.
  intros Hf. revert acc. induction l as [|x l IH]; intros acc; simpl.
  - apply stateless_ret.
  - apply stateless_bind; [apply Hf|apply IH].
Qed.

Lemma stateless_eq {S A} (m : M S A) s o s' : stateless m → m s = (o, s') → s' = s.
Proof. intros Hm Hs. specialize (Hm s). by rewrite Hs in Hm. Qed.

Lemma stateless_broadcast2 {S} f x y : stateless (S:=S) (broadcast2 f x y).
Proof.
  unfold broadcast2. case_decide; [done|].
  destruct x as [|a [|a' x]], y as [|b [|b' y]]; done.
Qed.

Lemma stateless_np_trapz {S} y x : stateless (S:=S) (np_trapz y x).
Proof.
  unfold np_trapz. apply stateless_bind; [apply stateless_broadcast2|].
  intros s. apply stateless_bind; [apply stateless_broadcast2|]. done.
Qed.

Lemma stateless_build_table {S} n_risks durations events index cif :
  stateless (S:=S) (build_table n_risks durations events index cif).
Proof.
  unfold build_table. apply stateless_bind.
  { unfold new_table. by case_decide. }
  intros df. apply stateless_for_in. intros r df1.
  apply stateless_for_in. intros [t_idx t_val] df2. unfold set_column.
  apply stateless_bind; [apply stateless_lift_option|]. intros cif_r.
  apply stateless_bind; [apply stateless_lift_option|]. intros values.
  unfold df_setitem. by case_decide.
Qed.

Lemma frames_bind {A B} base (m : M heap A) (k : A → M heap B) post1 post2 :
  frames base m post1 → (∀ a, post1 a → frames base (k a) post2) →
  frames base (bind m k) post2.
Proof.
  intros Hm Hk h Hh. unfold bind. destruct (Hm h Hh) as [Hpre Hpost].
  destruct (m h) as [[a|e] h']; simpl in *; [|done].
  by apply Hk.
Qed.

Lemma frames_stateless {A} base (m : M heap A) :
  stateless m → frames base m (λ _, True).
Proof.
  intros Hm h Hh. rewrite Hm. split; [done|]. by destruct (m h).1.
Qed.

Lemma stateless_read l : stateless (read l).
Proof. apply stateless_bind; [done|]. intros h. apply stateless_lift_option. Qed.

Lemma stateless_read_matrix l : stateless (read_matrix l).
Proof. apply stateless_bind; [apply stateless_read|]. by intros []. Qed.

Lemma stateless_read_floats l : stateless (read_floats l).
Proof. apply stateless_bind; [apply stateless_read|]. by intros []. Qed.

Lemma stateless_read_ints l : stateless (read_ints l).
Proof. apply stateless_bind; [apply stateless_read|]. by intros []. Qed.

Lemma stateless_getitem_cols l c : stateless (getitem_cols l c).
Proof. apply stateless_bind; [apply stateless_read_matrix|]. done. Qed.

(** A new array gets a location past every array of [base]. *)
Lemma frames_alloc base a : frames base (alloc a) (λ l, length base ≤ l)%nat.
Proof.
  intros h Hh. simpl. split.
  - by apply prefix_app_r.
  - by apply prefix_length.
Qed.

Lemma frames_fancy_index base l idx :
  frames base (fancy_index l idx) (λ l', length base ≤ l')%nat.
Proof.
  unfold fancy_index.
  eapply frames_bind; [apply frames_stateless, stateless_read|]. intros a _.
  eapply frames_bind; [apply frames_stateless, stateless_lift_option|]. intros a' _.
  apply frames_alloc.
Qed.

(** Writing into an array past [base] keeps [base]. *)
Lemma frames_setitem_cols base l c v :
  (length base ≤ l)%nat → frames base (setitem_cols l c v) (λ _, True).
Proof.
  intros Hl. unfold setitem_cols.
  eapply frames_bind; [apply frames_stateless, stateless_read_matrix|]. intros m _.
  case_decide; [|by apply frames_stateless].
  intros h [ext ->]. simpl. split; [|done].
  rewrite insert_app_r_alt by done. by apply prefix_app_r.
Qed.

Lemma frames_prepare_fold base c g fold_num train_idx test_idx :
  frames base (prepare_fold c g fold_num train_idx test_idx) (λ _, True).
Proof.
  unfold prepare_fold.
  do 6 (eapply frames_bind; [apply frames_fancy_index|]; intros ? ?).
  eapply frames_bind; [apply frames_stateless, stateless_read_matrix|]. intros X_full _.
  eapply frames_bind; [apply frames_stateless, stateless_read_ints|]. intros stratify _.
  destruct (train_test_split _ _ _ _) as [tr_idx val_idx].
  do 6 (eapply frames_bind; [apply frames_fancy_index|]; intros ? ?).
  do 3 (eapply frames_bind; [apply frames_stateless, stateless_getitem_cols|];
        intros ? _;
        eapply frames_bind; [by apply frames_setitem_cols|]; intros _ _).
  eapply frames_bind; [apply frames_stateless, stateless_read_floats|]. intros ? _.
  eapply frames_bind; [apply frames_stateless, stateless_read_ints|]. intros ? _.
  eapply frames_bind; [apply frames_stateless, stateless_read_floats|]. intros ? _.
  eapply frames_bind; [apply frames_stateless, stateless_read_ints|]. intros ? _.
  eapply frames_bind; [apply frames_stateless, stateless_lift_option|].
  intros [d_train e_train] _.
  eapply frames_bind; [apply frames_stateless, stateless_lift_option|].
  intros [d_val e_val] _.
  eapply frames_bind; [apply frames_stateless, stateless_read_floats|]. intros ? _.
  eapply frames_bind; [apply frames_stateless, stateless_read_ints|]. intros ? _.
  do 3 (eapply frames_bind; [apply frames_stateless, stateless_read_matrix|]; intros ? _).
  by apply frames_stateless.
Qed.

End HeapFacts.

(** ** One fold: the arrays it builds *)

Section FoldFacts.
Context `{Collaborators}.

Lemma lookup_local (h ext : heap) (j : nat) :
  (h ++ ext) !! (length h + j)%nat = ext !! j.
Proof. rewrite lookup_app_r by lia. f_equal. lia. Qed.

Lemma lookup_global (h ext : heap) (l : loc) a :
  h !! l = Some a → (h ++ ext) !! l = Some a.
Proof. apply lookup_app_l_Some. Qed.

Lemma read_at (h : heap) l a : h !! l = Some a → read l h = (Ok a, h).
Proof. intros Hl. unfold read, bind, gets, lift_option. simpl. by rewrite Hl. Qed.

Lemma read_matrix_at (h : heap) l m :
  h !! l = Some (A2 m) → read_matrix l h = (Ok m, h).
Proof. intros Hl. unfold read_matrix. by erewrite bind_ok by by apply read_at. Qed.

Lemma read_floats_at (h : heap) l v :
  h !! l = Some (A1f v) → read_floats l h = (Ok v, h).
Proof. intros Hl. unfold read_floats. by erewrite bind_ok by by apply read_at. Qed.

Lemma read_ints_at (h : heap) l v :
  h !! l = Some (A1i v) → read_ints l h = (Ok v, h).
Proof. intros Hl. unfold read_ints. by erewrite bind_ok by by apply read_at. Qed.

Lemma fancy_index_at (h ext : heap) l a idx a' :
  (h ++ ext) !! l = Some a → ndarray_take a idx = Some a' →
  fancy_index l idx (h ++ ext)
  = (Ok (length h + length ext)%nat, h ++ (ext ++ [a'])).
Proof.
  intros Hl Ha. unfold fancy_index.
  erewrite bind_ok by by apply read_at.
  rewrite Ha. simpl. unfold bind, ret, alloc.
  by rewrite length_app, app_assoc.
Qed.

Lemma getitem_cols_at (h : heap) l c m :
  h !! l = Some (A2 m) → getitem_cols l c h = (Ok (drop c <$> m), h).
Proof.
  intros Hl. unfold getitem_cols. by erewrite bind_ok by by apply read_matrix_at.
Qed.

Lemma setitem_cols_local (h ext : heap) j c m v :
  ext !! j = Some (A2 m) → shape v = shape (drop c <$> m) →
  setitem_cols (length h + j) c v (h ++ ext)
  = (Ok tt, h ++ <[j := A2 (replace_cols c m v)]> ext).
Proof.
  intros Hj Hv. unfold setitem_cols.
  erewrite bind_ok by (apply read_matrix_at; by rewrite lookup_local).
  rewrite decide_True by done. unfold modify.
  by rewrite insert_app_r.
Qed.

Ltac heap_lookup :=
  first [ by apply lookup_global | rewrite lookup_local; reflexivity ].

(** The fold's preparation on valid index arrays, step by step: it raises
    exactly when the label transform does, after it allocated and scaled its
    twelve arrays. *)
Lemma prepare_fold_slices (c : config) (g : globals) (k : nat)
    (train_idx test_idx tr va : list nat) (h : heap)
    (X Xf Xte Xtr Xva : matrix) (T Tf Tte Ttr Tva : list pyfloat)
    (E Ef Ete Etr Eva : list Z) :
  h !! X_all g = Some (A2 X) → h !! y_time g = Some (A1f T) →
  h !! y_event g = Some (A1i E) →
  take_idx X train_idx = Some Xf → take_idx X test_idx = Some Xte →
  take_idx T train_idx = Some Tf → take_idx E train_idx = Some Ef →
  take_idx T test_idx = Some Tte → take_idx E test_idx = Some Ete →
  train_test_split (seq 0 (length Xf)) 0.2%Q Ef (Z.of_nat k) = (tr, va) →
  take_idx Xf tr = Some Xtr → take_idx Xf va = Some Xva →
  take_idx Tf tr = Some Ttr → take_idx Ef tr = Some Etr →
  take_idx Tf va = Some Tva → take_idx Ef va = Some Eva →
  (∀ sc m, shape (scaler_transform sc m) = shape m) →
  let sc := scaler_fit (drop (cat_dim g) <$> Xtr) in
  let lt := lt_fit (num_durations c) Ttr Etr in
  let h' :=
    h ++ [A2 Xf; A2 (scaled sc (cat_dim g) Xte); A1f Tf; A1i Ef; A1f Tte; A1i Ete;
          A2 (scaled sc (cat_dim g) Xtr); A2 (scaled sc (cat_dim g) Xva);
          A1f Ttr; A1i Etr; A1f Tva; A1i Eva] in
  prepare_fold c g k train_idx test_idx h
  = match lt_transform lt Ttr Etr, lt_transform lt Tva Eva with
    | Some train, Some val =>
        (Ok {| X_train := scaled sc (cat_dim g) Xtr;
               X_val := scaled sc (cat_dim g) Xva;
               X_test := scaled sc (cat_dim g) Xte;
               y_val := (Tva, Eva);
               durations_train := train.1;
               events_train := train.2;
               durations_val := val.1;
               events_val := val.2;
               durations_test_fold := Tte;
               events_test_fold := Ete;
               fold_scaler := sc;
               fold_labtrans := lt |}, h')
    | _, _ => (Raise ValueError, h')
    end.
Proof.
  intros HX HT HE HXf HXte HTf HEf HTte HEte Hsplit HXtr HXva HTtr HEtr HTva HEva
    Hshape sc lt h'. subst h'.
  unfold prepare_fold. rewrite <- (app_nil_r h) at 1.
  erewrite bind_ok
    by (eapply fancy_index_at; [heap_lookup|simpl; by rewrite HXf]).
  erewrite bind_ok
    by (eapply fancy_index_at; [heap_lookup|simpl; by rewrite HXte]).
  erewrite bind_ok
    by (eapply fancy_index_at; [heap_lookup|simpl; by rewrite HTf]).
  erewrite bind_ok
    by (eapply fancy_index_at; [heap_lookup|simpl; by rewrite HEf]).
  erewrite bind_ok
    by (eapply fancy_index_at; [heap_lookup|simpl; by rewrite HTte]).
  erewrite bind_ok
    by (eapply fancy_index_at; [heap_lookup|simpl; by rewrite HEte]).
  simpl app. simpl length.
  erewrite bind_ok by (eapply read_matrix_at; heap_lookup).
  erewrite bind_ok by (eapply read_ints_at; heap_lookup).
  rewrite Hsplit.
  erewrite bind_ok
    by (eapply fancy_index_at; [heap_lookup|simpl; by rewrite HXtr]).
  erewrite bind_ok
    by (eapply fancy_index_at; [heap_lookup|simpl; by rewrite HXva]).
  erewrite bind_ok
    by (eapply fancy_index_at; [heap_lookup|simpl; by rewrite HTtr]).
  erewrite bind_ok
    by (eapply fancy_index_at; [heap_lookup|simpl; by rewrite HEtr]).
  erewrite bind_ok
    by (eapply fancy_index_at; [heap_lookup|simpl; by rewrite HTva]).
  erewrite bind_ok
    by (eapply fancy_index_at; [heap_lookup|simpl; by rewrite HEva]).
  simpl app. simpl length.
  erewrite bind_ok by (eapply getitem_cols_at; heap_lookup).
  fold sc.
  erewrite bind_ok by (eapply setitem_cols_local; [reflexivity|apply Hshape]).
  simpl (<[_:=_]> _).
  erewrite bind_ok by (eapply getitem_cols_at; heap_lookup).
  erewrite bind_ok by (eapply setitem_cols_local; [reflexivity|apply Hshape]).
  simpl (<[_:=_]> _).
  erewrite bind_ok by (eapply getitem_cols_at; heap_lookup).
  erewrite bind_ok by (eapply setitem_cols_local; [reflexivity|apply Hshape]).
  simpl (<[_:=_]> _).
  erewrite bind_ok by (eapply read_floats_at; heap_lookup).
  erewrite bind_ok by (eapply read_ints_at; heap_lookup).
  erewrite bind_ok by (eapply read_floats_at; heap_lookup).
  erewrite bind_ok by (eapply read_ints_at; heap_lookup).
  fold lt.
  destruct (lt_transform lt Ttr Etr) as [[d_train e_train]|]; [|reflexivity].
  erewrite bind_ok by reflexivity. cbv beta iota.
  destruct (lt_transform lt Tva Eva) as [[d_val e_val]|]; [|reflexivity].
  erewrite bind_ok by reflexivity. cbv beta iota.
  erewrite bind_ok by (eapply read_floats_at; heap_lookup).
  erewrite bind_ok by (eapply read_ints_at; heap_lookup).
  erewrite bind_ok by (eapply read_matrix_at; heap_lookup).
  erewrite bind_ok by (eapply read_matrix_at; heap_lookup).
  erewrite bind_ok by (eapply read_matrix_at; heap_lookup).
  reflexivity.
Qed.

End FoldFacts.

Section FoldClaims.
Context `{Collaborators}.

Lemma take_idx_valid {A} (a : list A) (idx : list nat) :
  Forall (λ i, (i < length a)%nat) idx →
  ∃ a', take_idx a idx = Some a' ∧ length a' = length idx.
Proof.
  intros Hidx. unfold take_idx.
  destruct (mapM (λ i, a !! i) idx) as [a'|] eqn:Hmap.
  - exists a'. split; [done|]. symmetry. by eapply length_mapM.
  - exfalso. apply eq_None_not_Some in Hmap. apply Hmap, mapM_is_Some.
    eapply Forall_impl; [exact Hidx|]. intros i Hi. by apply lookup_lt_is_Some.
Qed.

(** Valid index arrays select rows: the slices of the fold exist. *)
Lemma slices_exist (X : matrix) (T : list pyfloat) (E : list Z)
    (train_idx test_idx : list nat) (k : nat) :
  length T = length X → length E = length X →
  Forall (λ i, (i < length X)%nat) train_idx →
  Forall (λ i, (i < length X)%nat) test_idx →
  (∀ idx ts st seed,
      Forall (λ i, i ∈ idx) (train_test_split idx ts st seed).1
      ∧ Forall (λ i, i ∈ idx) (train_test_split idx ts st seed).2) →
  ∃ sl, slices_of X T E train_idx test_idx k sl.
Proof.
  intros HT HE Htrain Htest Hsplit.
  destruct (take_idx_valid X train_idx Htrain) as (Xf & HXf & HlenXf).
  destruct (take_idx_valid X test_idx Htest) as (Xte & HXte & _).
  destruct (take_idx_valid T train_idx) as (Tf & HTf & HlenTf); [by rewrite HT|].
  destruct (take_idx_valid E train_idx) as (Ef & HEf & HlenEf); [by rewrite HE|].
  destruct (take_idx_valid T test_idx) as (Tte & HTte & _); [by rewrite HT|].
  destruct (take_idx_valid E test_idx) as (Ete & HEte & _); [by rewrite HE|].
  destruct (train_test_split (seq 0 (length Xf)) 0.2%Q Ef (Z.of_nat k))
    as [tr va] eqn:Hsp.
  destruct (Hsplit (seq 0 (length Xf)) 0.2%Q Ef (Z.of_nat k)) as [Htr Hva].
  rewrite Hsp in Htr, Hva. simpl in Htr, Hva.
  assert (Htr' : Forall (λ i, (i < length Xf)%nat) tr).
  { eapply Forall_impl; [exact Htr|]. intros i Hi. apply elem_of_seq in Hi. lia. }
  assert (Hva' : Forall (λ i, (i < length Xf)%nat) va).
  { eapply Forall_impl; [exact Hva|]. intros i Hi. apply elem_of_seq in Hi. lia. }
  destruct (take_idx_valid Xf tr Htr') as (Xtr & HXtr & _).
  destruct (take_idx_valid Xf va Hva') as (Xva & HXva & _).
  destruct (take_idx_valid Tf tr) as (Ttr & HTtr & _); [by rewrite HlenTf, <- HlenXf|].
  destruct (take_idx_valid Ef tr) as (Etr & HEtr & _); [by rewrite HlenEf, <- HlenXf|].
  destruct (take_idx_valid Tf va) as (Tva & HTva & _); [by rewrite HlenTf, <- HlenXf|].
  destruct (take_idx_valid Ef va) as (Eva & HEva & _); [by rewrite HlenEf, <- HlenXf|].
  exists {| outer_X := Xf; test_X := Xte; outer_T := Tf; outer_E := Ef;
            test_T := Tte; test_E := Ete; inner_idx := tr; val_idx := va;
            inner_X := Xtr; val_X := Xva; inner_T := Ttr; inner_E := Etr;
            val_T := Tva; val_E := Eva |}.
  repeat split; done.
Qed.

(** Replacing the columns from [c] on leaves the columns before [c] alone. *)
Lemma replace_cols_split (c : nat) (m v : matrix) :
  shape v = shape (drop c <$> m) →
  take c <$> replace_cols c m v = take c <$> m
  ∧ drop c <$> replace_cols c m v = v.
Proof.
  unfold shape, replace_cols. revert v.
  induction m as [|r m IH]; intros [|n v] Hv; try done.
  rewrite !fmap_cons in Hv. injection Hv as Hn Hv.
  destruct (IH v Hv) as [IH1 IH2].
  cbn [zip_with]. rewrite !fmap_cons, IH1, IH2. rewrite length_drop in Hn.
  split; f_equal.
  - destruct (decide (c ≤ length r)%nat) as [Hc|Hc].
    + rewrite take_app_le by (rewrite length_take; lia).
      by rewrite take_take, Nat.min_id.
    + assert (n = []) as -> by (apply nil_length_inv; lia).
      rewrite app_nil_r. by rewrite take_take, Nat.min_id.
  - destruct (decide (c ≤ length r)%nat) as [Hc|Hc].
    + rewrite drop_app_length' by (rewrite length_take; lia). done.
    + assert (n = []) as -> by (apply nil_length_inv; lia).
      rewrite app_nil_r. rewrite drop_ge; [done|]. rewrite length_take. lia.
Qed.

Lemma scaled_split (sc : scaler) (c : nat) (m : matrix) :
  (∀ sc m, shape (scaler_transform sc m) = shape m) →
  take c <$> scaled sc c m = take c <$> m
  ∧ drop c <$> scaled sc c m = scaler_transform sc (drop c <$> m).
Proof. intros Hshape. apply replace_cols_split, Hshape. Qed.

End FoldClaims.

(** ** One fold against the state of the run *)

Section RunFoldFacts.
Context `{Collaborators}.

Lemma prepare_fold_prefix c g k tr te h :
  h `prefix_of` (prepare_fold c g k tr te h).2.
Proof. by apply (frames_prepare_fold h c g k tr te h). Qed.

(** The Brier step either raises, leaving the state alone, or appends one
    value to [fold_ibss] and prints it. *)
Lemma ibs_step_cases (k : nat) (surv : matrix) (index durations : list pyfloat)
    (ev : list bool) (w : world) :
  (∃ e, ibs_step k surv index durations ev w = (Raise e, w))
  ∨ (∃ v, ibs_step k surv index durations ev w
          = (Ok tt, {| w_heap := w_heap w; w_rng := w_rng w;
                       stdout := stdout w ++ [TestIBS (k + 1) v];
                       written := written w;
                       fold_c_indexes := fold_c_indexes w;
                       fold_ibss := fold_ibss w ++ [v] |})).
Proof.
  unfold ibs_step.
  set (grid := np_unique (mask_select durations ev)).
  set (bs := brier_score surv index durations ev grid).
  unfold bind.
  pose proof (stateless_np_trapz (S:=world) bs grid w) as Hs.
  destruct (np_trapz bs grid w) as [[integral|e] w1]; simpl in Hs; subst w1;
    [|left; eauto].
  unfold getitem_last, getitem, lift_option.
  destruct (last grid) as [t_last|]; [|left; eauto]. simpl.
  destruct (grid !! 0%nat) as [t_first|]; [|left; eauto]. simpl.
  right. eexists. reflexivity.
Qed.

Ltac unfold_run_fold :=
  unfold run_fold, print, to_csv, append_c_index, on_heap, on_rng, zoom, modify,
    bind, lift_option, ret, raise, getitem, make_frame; simpl.

Ltac run_fold_step :=
  match goal with
  | |- context [prepare_fold ?c ?g ?k ?a ?b ?h] =>
      let Hp := fresh "Hprefix" in
      pose proof (prepare_fold_prefix c g k a b h) as Hp;
      destruct (prepare_fold c g k a b h) as [[?fd|?e] ?h1] eqn:?Hprepare
  | |- context [grid_search ?c ?g ?fd ?r] =>
      destruct (grid_search c g fd r) as [[?best|?e] ?r1] eqn:?Hsearch
  | |- context [best_params ?b] =>
      destruct (best_params b) as [?p|] eqn:?Hparams
  | |- context [best_model ?b] =>
      destruct (best_model b) as [?model|] eqn:?Hmodel
  | |- context [build_table ?a ?b ?c ?d ?x ?s] =>
      let Hs := fresh "Hs" in
      pose proof (stateless_build_table a b c d x s) as Hs;
      destruct (build_table a b c d x s) as [[?df|?e] ?s1] eqn:?Htable;
      simpl in Hs; subst
  | |- context [predict_cif ?m ?x !! 0%nat] =>
      destruct (predict_cif m x !! 0%nat) as [?cif0|] eqn:?Hcif0
  | |- context [decide (length ?a = length ?b)] =>
      destruct (decide (length a = length b)) as [?Hlen|?Hlen]
  | |- context [concordance_td ?a ?b ?c ?d] =>
      destruct (concordance_td a b c d) as [?c_index|] eqn:?Hconcordance
  | |- context [ibs_step ?k ?a ?b ?c ?d ?w] =>
      let Hi := fresh "Hibs" in
      destruct (ibs_step_cases k a b c d w) as [[?e Hi]|[?v Hi]]; rewrite Hi
  end; simpl in *.

(** Whatever its outcome, a fold leaves every array that existed before it
    as it was. *)
Lemma run_fold_heap_prefix c g k sp w :
  w_heap w `prefix_of` w_heap (run_fold c g k sp w).2.
Proof. unfold_run_fold. repeat (run_fold_step; try done). Qed.

(** A fold that completes went through every step. *)
Lemma run_fold_Ok_inv c g k sp w w' :
  run_fold c g k sp w = (Ok tt, w') →
  ∃ fd best p model df (s : world) c_index ibs,
    prepare_fold c g k sp.1 sp.2 (w_heap w) = (Ok fd, w_heap w')
    ∧ grid_search c g fd (w_rng w) = (Ok best, w_rng w')
    ∧ best_params best = Some p
    ∧ best_model best = Some model
    ∧ build_table (num_risks g) (durations_test_fold fd) (events_test_fold fd)
        (duration_index model) (predict_cif model (X_test fd)) s = (Ok df, s)
    ∧ written w' = written w ++ [(csv_file k, df)]
    ∧ fold_c_indexes w' = fold_c_indexes w ++ [c_index]
    ∧ fold_ibss w' = fold_ibss w ++ [ibs]
    ∧ stdout w'
      = stdout w ++ [Separator; TrainingFold (k + 1) 25; Separator;
                     BestParams (k + 1) p (best_val_c_index best);
                     TestCIndex (k + 1) c_index; TestIBS (k + 1) ibs]
    ∧ ∃ cif0,
        predict_cif model (X_test fd) !! 0%nat = Some cif0
        ∧ concordance_td (one_minus cif0) (duration_index model)
            (durations_test_fold fd) (is_event1 (events_test_fold fd))
          = Some c_index.
Proof.
  unfold_run_fold. repeat (run_fold_step; try done).
  intros [= <-]. simpl.
  eexists fd, best, p, model, df, _, c_index, v.
  repeat split; try done.
  - by rewrite <- !app_assoc.
  - by exists cif0.
Qed.

(** With no combination to try, the search returns its initial state without
    touching the generator. *)
Lemma grid_search_empty c g fd r :
  combinations (grid c) = [] → grid_search c g fd r = (Ok search_init, r).
Proof. intros Hempty. by rewrite grid_search_flat, Hempty. Qed.

Lemma run_fold_empty_grid c g k sp w :
  combinations (grid c) = [] →
  ∃ e w',
    run_fold c g k sp w = (Raise e, w')
    ∧ w_heap w' = (prepare_fold c g k sp.1 sp.2 (w_heap w)).2
    ∧ w_rng w' = w_rng w
    ∧ stdout w' = stdout w ++ [Separator; TrainingFold (k + 1) 25; Separator]
    ∧ written w' = written w
    ∧ fold_c_indexes w' = fold_c_indexes w
    ∧ fold_ibss w' = fold_ibss w
    ∧ (∀ fd h1, prepare_fold c g k sp.1 sp.2 (w_heap w) = (Ok fd, h1) →
                e = TypeError).
Proof.
  intros Hempty. unfold_run_fold.
  run_fold_step.
  - rewrite (grid_search_empty c g fd (w_rng w) Hempty). simpl.
    eexists _, _. split; [reflexivity|]. simpl. rewrite <- !app_assoc.
    repeat split; done.
  - eexists _, _. split; [reflexivity|]. simpl. rewrite <- !app_assoc.
    repeat split; done.
Qed.

End RunFoldFacts.

(** ** The fold's data: scaling, discretization, isolation *)

Section FoldDataClaims.
Context `{Collaborators}.

Lemma for_in_invariant {S A B} (P : B → Prop) (l : list A) (f : A → B → M S B)
    acc s acc' s' :
  P acc →
  (∀ x a s a' s', P a → f x a s = (Ok a', s') → P a') →
  for_in l f acc s = (Ok acc', s') → P acc'.
Proof.
  intros Hacc Hstep. revert acc s Hacc.
  induction l as [|x l IH]; intros acc s Hacc; simpl.
  - by intros [= <- <-].
  - intros (a & s1 & Hf & Hrest)%bind_Ok_inv. eapply IH; [|exact Hrest].
    by eapply Hstep.
Qed.

Lemma trial_duration_index c g fd p r sc log model r' :
  trial c g fd p r = (Ok (sc, log, model), r') →
  duration_index model = lt_cuts (fold_labtrans fd).
Proof. by intros (? & ? & ? & ? & ? & ? & ? & ? & ? & ?)%trial_Ok_inv. Qed.

(** The model a search retains carries the cut points of the fold it was
    trained in. *)
Lemma grid_search_duration_index c g fd r best r' model :
  grid_search c g fd r = (Ok best, r') →
  best_model best = Some model →
  duration_index model = lt_cuts (fold_labtrans fd).
Proof.
  rewrite grid_search_flat. intros Hsearch.
  revert model.
  eapply (for_in_invariant
            (λ best, ∀ model, best_model best = Some model →
                              duration_index model = lt_cuts (fold_labtrans fd)));
    [| |exact Hsearch].
  - done.
  - intros p best0 s best1 s1 Hbest0 (x & s2 & Htrial & [= <- <-])%bind_Ok_inv.
    destruct x as [[sc log] m]. unfold keep_best.
    destruct (fgtb sc (best_val_c_index best0)); [|exact Hbest0].
    simpl. intros model [= <-]. by eapply trial_duration_index.
Qed.

(** The preparation of a fold on valid indices, with the rows it selects:
    it returns when the label transform returns on the inner-train and the
    validation labels, and raises a ValueError otherwise. *)
Lemma prepare_fold_valid c g k train_idx test_idx h X T E :
  h !! X_all g = Some (A2 X) → h !! y_time g = Some (A1f T) →
  h !! y_event g = Some (A1i E) →
  length T = length X → length E = length X →
  Forall (λ i, (i < length X)%nat) train_idx →
  Forall (λ i, (i < length X)%nat) test_idx →
  (∀ idx ts st seed,
      Forall (λ i, i ∈ idx) (train_test_split idx ts st seed).1
      ∧ Forall (λ i, i ∈ idx) (train_test_split idx ts st seed).2) →
  (∀ sc m, shape (scaler_transform sc m) = shape m) →
  ∃ sl,
    slices_of X T E train_idx test_idx k sl
    ∧ let sc := scaler_fit (drop (cat_dim g) <$> inner_X sl) in
      let lt := lt_fit (num_durations c) (inner_T sl) (inner_E sl) in
      let h' :=
        h ++ [A2 (outer_X sl); A2 (scaled sc (cat_dim g) (test_X sl));
              A1f (outer_T sl); A1i (outer_E sl); A1f (test_T sl); A1i (test_E sl);
              A2 (scaled sc (cat_dim g) (inner_X sl));
              A2 (scaled sc (cat_dim g) (val_X sl));
              A1f (inner_T sl); A1i (inner_E sl); A1f (val_T sl); A1i (val_E sl)] in
      prepare_fold c g k train_idx test_idx h
      = match lt_transform lt (inner_T sl) (inner_E sl),
              lt_transform lt (val_T sl) (val_E sl) with
        | Some train, Some val =>
            (Ok {| X_train := scaled sc (cat_dim g) (inner_X sl);
                   X_val := scaled sc (cat_dim g) (val_X sl);
                   X_test := scaled sc (cat_dim g) (test_X sl);
                   y_val := (val_T sl, val_E sl);
                   durations_train := train.1;
                   events_train := train.2;
                   durations_val := val.1;
                   events_val := val.2;
                   durations_test_fold := test_T sl;
                   events_test_fold := test_E sl;
                   fold_scaler := sc;
                   fold_labtrans := lt |}, h')
        | _, _ => (Raise ValueError, h')
        end.
Proof.
  intros HX HT HE HlT HlE Htrain Htest Hsplit Hshape.
  destruct (slices_exist X T E train_idx test_idx k HlT HlE Htrain Htest Hsplit)
    as [sl Hsl].
  exists sl. split; [exact Hsl|].
  destruct Hsl as (? & ? & ? & ? & ? & ? & ? & ? & ? & ? & ? & ? & ?).
  by eapply prepare_fold_slices.
Qed.

(** What a preparation that returns has returned. *)
Lemma prepare_fold_valid_Ok c g k train_idx test_idx h X T E fd h' :
  h !! X_all g = Some (A2 X) → h !! y_time g = Some (A1f T) →
  h !! y_event g = Some (A1i E) →
  length T = length X → length E = length X →
  Forall (λ i, (i < length X)%nat) train_idx →
  Forall (λ i, (i < length X)%nat) test_idx →
  (∀ idx ts st seed,
      Forall (λ i, i ∈ idx) (train_test_split idx ts st seed).1
      ∧ Forall (λ i, i ∈ idx) (train_test_split idx ts st seed).2) →
  (∀ sc m, shape (scaler_transform sc m) = shape m) →
  prepare_fold c g k train_idx test_idx h = (Ok fd, h') →
  ∃ sl,
    slices_of X T E train_idx test_idx k sl
    ∧ fold_scaler fd = scaler_fit (drop (cat_dim g) <$> inner_X sl)
    ∧ fold_labtrans fd = lt_fit (num_durations c) (inner_T sl) (inner_E sl)
    ∧ X_train fd = scaled (fold_scaler fd) (cat_dim g) (inner_X sl)
    ∧ X_val fd = scaled (fold_scaler fd) (cat_dim g) (val_X sl)
    ∧ X_test fd = scaled (fold_scaler fd) (cat_dim g) (test_X sl)
    ∧ y_val fd = (val_T sl, val_E sl)
    ∧ lt_transform (fold_labtrans fd) (inner_T sl) (inner_E sl)
      = Some (durations_train fd, events_train fd)
    ∧ lt_transform (fold_labtrans fd) (val_T sl) (val_E sl)
      = Some (durations_val fd, events_val fd)
    ∧ durations_test_fold fd = test_T sl
    ∧ events_test_fold fd = test_E sl
    ∧ h' = h ++ [A2 (outer_X sl); A2 (X_test fd);
                 A1f (outer_T sl); A1i (outer_E sl); A1f (test_T sl); A1i (test_E sl);
                 A2 (X_train fd); A2 (X_val fd);
                 A1f (inner_T sl); A1i (inner_E sl); A1f (val_T sl); A1i (val_E sl)].
Proof.
  intros HX HT HE HlT HlE Htrain Htest Hsplit Hshape Hprep.
  destruct (prepare_fold_valid c g k train_idx test_idx h X T E
              HX HT HE HlT HlE Htrain Htest Hsplit Hshape) as (sl & Hsl & Hrun).
  exists sl. split; [exact Hsl|]. simpl in Hrun. rewrite Hrun in Hprep.
  destruct (lt_transform _ (inner_T sl) _) as [[d_train e_train]|] eqn:Htr;
    [|done].
  destruct (lt_transform _ (val_T sl) _) as [[d_val e_val]|] eqn:Hva; [|done].
  injection Hprep as <- <-. simpl. repeat split; done.
Qed.

(** C4: in a fold the scaler is fitted on the continuous columns of the
    inner-train rows only; the transform with those fitted parameters is what
    the continuous columns of the inner-train, inner-validation and outer-test
    rows become, and the one-hot columns of all three stay as they were.  The
    parameters are a function of this fold's inner-train rows alone.  On
    valid indices the preparation returns whenever the label transform
    returns on the fold's inner-train and validation labels. *)
Theorem scaling_fitted_on_inner_train c g k train_idx test_idx h X T E :
  h !! X_all g = Some (A2 X) → h !! y_time g = Some (A1f T) →
  h !! y_event g = Some (A1i E) →
  length T = length X → length E = length X →
  Forall (λ i, (i < length X)%nat) train_idx →
  Forall (λ i, (i < length X)%nat) test_idx →
  (∀ idx ts st seed,
      Forall (λ i, i ∈ idx) (train_test_split idx ts st seed).1
      ∧ Forall (λ i, i ∈ idx) (train_test_split idx ts st seed).2) →
  (∀ sc m, shape (scaler_transform sc m) = shape m) →
  ∃ sl,
    slices_of X T E train_idx test_idx k sl
    ∧ (let lt := lt_fit (num_durations c) (inner_T sl) (inner_E sl) in
       is_Some (lt_transform lt (inner_T sl) (inner_E sl)) →
       is_Some (lt_transform lt (val_T sl) (val_E sl)) →
       ∃ fd h', prepare_fold c g k train_idx test_idx h = (Ok fd, h'))
    ∧ ∀ fd h',
        prepare_fold c g k train_idx test_idx h = (Ok fd, h') →
        fold_scaler fd = scaler_fit (drop (cat_dim g) <$> inner_X sl)
        ∧ drop (cat_dim g) <$> X_train fd
          = scaler_transform (fold_scaler fd) (drop (cat_dim g) <$> inner_X sl)
        ∧ drop (cat_dim g) <$> X_val fd
          = scaler_transform (fold_scaler fd) (drop (cat_dim g) <$> val_X sl)
        ∧ drop (cat_dim g) <$> X_test fd
          = scaler_transform (fold_scaler fd) (drop (cat_dim g) <$> test_X sl)
        ∧ take (cat_dim g) <$> X_train fd = take (cat_dim g) <$> inner_X sl
        ∧ take (cat_dim g) <$> X_val fd = take (cat_dim g) <$> val_X sl
        ∧ take (cat_dim g) <$> X_test fd = take (cat_dim g) <$> test_X sl.
Proof.
  intros HX HT HE HlT HlE Htrain Htest Hsplit Hshape.
  destruct (prepare_fold_valid c g k train_idx test_idx h X T E
              HX HT HE HlT HlE Htrain Htest Hsplit Hshape) as (sl & Hsl & Hrun).
  exists sl. split; [exact Hsl|]. simpl in Hrun. split.
  - intros lt [train Htr] [val Hva]. subst lt. rewrite Hrun, Htr, Hva. eauto.
  - intros fd h' Hprep. rewrite Hrun in Hprep.
    destruct (lt_transform _ (inner_T sl) _) as [[d_train e_train]|]; [|done].
    destruct (lt_transform _ (val_T sl) _) as [[d_val e_val]|]; [|done].
    injection Hprep as <- <-. simpl. split; [done|].
    repeat split; by apply scaled_split.
Qed.

(** C5: in a fold the discretization grid is fitted on the inner-train
    (time, event) pairs only and transforms the inner-train and the
    inner-validation labels; the outer-test labels are kept as the continuous
    times and event codes of the test rows; and every model the fold's search
    retains is indexed by the cut points of this fold's grid.  On valid
    indices the preparation returns whenever that transform returns on both
    label sets, and raises a ValueError when it does not. *)
Theorem grid_fitted_on_inner_train c g k train_idx test_idx h X T E :
  h !! X_all g = Some (A2 X) → h !! y_time g = Some (A1f T) →
  h !! y_event g = Some (A1i E) →
  length T = length X → length E = length X →
  Forall (λ i, (i < length X)%nat) train_idx →
  Forall (λ i, (i < length X)%nat) test_idx →
  (∀ idx ts st seed,
      Forall (λ i, i ∈ idx) (train_test_split idx ts st seed).1
      ∧ Forall (λ i, i ∈ idx) (train_test_split idx ts st seed).2) →
  (∀ sc m, shape (scaler_transform sc m) = shape m) →
  ∃ sl,
    slices_of X T E train_idx test_idx k sl
    ∧ (let lt := lt_fit (num_durations c) (inner_T sl) (inner_E sl) in
       (is_Some (lt_transform lt (inner_T sl) (inner_E sl)) →
        is_Some (lt_transform lt (val_T sl) (val_E sl)) →
        ∃ fd h', prepare_fold c g k train_idx test_idx h = (Ok fd, h'))
       ∧ (lt_transform lt (inner_T sl) (inner_E sl) = None
          ∨ lt_transform lt (val_T sl) (val_E sl) = None →
          ∃ h', prepare_fold c g k train_idx test_idx h = (Raise ValueError, h')))
    ∧ ∀ fd h',
        prepare_fold c g k train_idx test_idx h = (Ok fd, h') →
        fold_labtrans fd = lt_fit (num_durations c) (inner_T sl) (inner_E sl)
        ∧ lt_transform (fold_labtrans fd) (inner_T sl) (inner_E sl)
          = Some (durations_train fd, events_train fd)
        ∧ lt_transform (fold_labtrans fd) (val_T sl) (val_E sl)
          = Some (durations_val fd, events_val fd)
        ∧ y_val fd = (val_T sl, val_E sl)
        ∧ durations_test_fold fd = test_T sl
        ∧ events_test_fold fd = test_E sl
        ∧ (∀ r best r' model,
             grid_search c g fd r = (Ok best, r') →
             best_model best = Some model →
             duration_index model = lt_cuts (fold_labtrans fd)).
Proof.
  intros HX HT HE HlT HlE Htrain Htest Hsplit Hshape.
  destruct (prepare_fold_valid c g k train_idx test_idx h X T E
              HX HT HE HlT HlE Htrain Htest Hsplit Hshape) as (sl & Hsl & Hrun).
  exists sl. split; [exact Hsl|]. simpl in Hrun. split; [split|].
  - intros [train Htr] [val Hva]. rewrite Hrun, Htr, Hva. eauto.
  - intros Hnone. rewrite Hrun.
    destruct (lt_transform _ (inner_T sl) _) as [train|];
      [|by eauto].
    destruct (lt_transform _ (val_T sl) _) as [val|]; [|by eauto].
    by destruct Hnone.
  - intros fd h' Hprep. rewrite Hrun in Hprep.
    destruct (lt_transform _ (inner_T sl) _) as [[d_train e_train]|] eqn:Htr;
      [|done].
    destruct (lt_transform _ (val_T sl) _) as [[d_val e_val]|] eqn:Hva; [|done].
    injection Hprep as <- <-. simpl. repeat split; try done.
    intros r best r' model. apply grid_search_duration_index.
Qed.

Lemma run_folds_heap_prefix c g (l : list (nat * (list nat * list nat))) w :
  w_heap w
  `prefix_of` w_heap (for_in l (λ fs _, run_fold c g fs.1 fs.2) tt w).2.
Proof.
  revert w. induction l as [|[k sp] l IH]; intros w; simpl; [done|].
  unfold bind. pose proof (run_fold_heap_prefix c g k sp w) as Hfold.
  destruct (run_fold c g k sp w) as [[[]|e] w1]; simpl in *; [|done].
  etrans; [exact Hfold|apply IH].
Qed.

(** C9: whatever its outcome, a fold (and so the whole loop) leaves every
    array that existed before it unchanged, the global feature matrix and
    label arrays among them: it writes only into arrays it allocated itself.
    And what a fold computes from valid indices depends on the global arrays
    alone: on two heaps that hold the same global arrays and differ in
    everything earlier folds left behind, its preparation has the same
    outcome (the same data, or the ValueError of the label transform) and
    allocates the same arrays. *)
Theorem fold_leaves_existing_arrays c g :
  (∀ k sp w l a,
      w_heap w !! l = Some a → w_heap (run_fold c g k sp w).2 !! l = Some a)
  ∧ (∀ splits w l a,
      w_heap w !! l = Some a → w_heap (run_folds c g splits w).2 !! l = Some a)
  ∧ (∀ k train_idx test_idx h1 h2 X T E,
      h1 !! X_all g = Some (A2 X) → h1 !! y_time g = Some (A1f T) →
      h1 !! y_event g = Some (A1i E) →
      h2 !! X_all g = Some (A2 X) → h2 !! y_time g = Some (A1f T) →
      h2 !! y_event g = Some (A1i E) →
      length T = length X → length E = length X →
      Forall (λ i, (i < length X)%nat) train_idx →
      Forall (λ i, (i < length X)%nat) test_idx →
      (∀ idx ts st seed,
          Forall (λ i, i ∈ idx) (train_test_split idx ts st seed).1
          ∧ Forall (λ i, i ∈ idx) (train_test_split idx ts st seed).2) →
      (∀ sc m, shape (scaler_transform sc m) = shape m) →
      ∃ o ext,
        prepare_fold c g k train_idx test_idx h1 = (o, h1 ++ ext)
        ∧ prepare_fold c g k train_idx test_idx h2 = (o, h2 ++ ext)
        ∧ ∀ e, o = Raise e → e = ValueError).
Proof.
  split; [|split].
  - intros k sp w l a Hl.
    by eapply prefix_lookup_Some; [|apply run_fold_heap_prefix].
  - intros splits w l a Hl.
    by eapply prefix_lookup_Some; [|apply run_folds_heap_prefix].
  - intros k train_idx test_idx h1 h2 X T E HX1 HT1 HE1 HX2 HT2 HE2 HlT HlE
      Htrain Htest Hsplit Hshape.
    destruct (slices_exist X T E train_idx test_idx k HlT HlE Htrain Htest Hsplit)
      as [sl Hsl].
    destruct Hsl as (? & ? & ? & ? & ? & ? & ? & ? & ? & ? & ? & ? & ?).
    erewrite (prepare_fold_slices c g k train_idx test_idx _ _ h1) by done.
    erewrite (prepare_fold_slices c g k train_idx test_idx _ _ h2) by done.
    simpl.
    destruct (lt_transform _ (inner_T sl) _) as [train|];
      [destruct (lt_transform _ (val_T sl) _) as [val|]|];
      eexists _, _; (split; [reflexivity|]); (split; [reflexivity|]);
      by intros e [= <-].
Qed.

End FoldDataClaims.

(** ** Failures inside a fold *)

Section FailureClaims.
Context `{Collaborators}.




Lemma for_in_pure {S A B} (l : list A) (f : A → B → M S B) (acc : B) :
  (∀ x a, ∃ o, ∀ s, f x a s = (o, s)) → ∃ o, ∀ s, for_in l f acc s = (o, s).
Proof.
  intros Hf. revert acc. induction l as [|x l IH]; intros acc; simpl.
  - by exists (Ok acc).
  - destruct (Hf x acc) as [[a|e] Ho].
    + destruct (IH a) as [o' Ho']. exists o'. intros s.
      unfold bind. by rewrite Ho.
    + exists (Raise e). intros s. unfold bind. by rewrite Ho.
Qed.

Lemma set_column_pure {S} cif r t_idx t_val df :
  ∃ o, ∀ s : S, set_column cif r t_idx t_val df s = (o, s).
Proof.
  unfold set_column, getitem, df_setitem, bind, lift_option, ret, raise.
  destruct (cif !! Z.to_nat r) as [cif_r|]; [|by eexists].
  destruct (cif_r !! t_idx) as [values|]; [|by eexists].
  destruct (decide _); by eexists.
Qed.

(** What [build_table] returns does not depend on the state it runs in. *)
Lemma build_table_pure {S} n_risks durations events index cif :
  ∃ o, ∀ s : S, build_table n_risks durations events index cif s = (o, s).
Proof.
  unfold build_table, new_table.
  destruct (decide _); [|by exists (Raise ValueError)].
  destruct (for_in_pure (S:=S) (py_range n_risks)
              (λ r df_out,
                 for_in (enumerate index)
                   (λ '(t_idx, t_val) df_out,
                      set_column cif r t_idx t_val df_out) df_out)
              {| df_rows := length durations;
                 df_columns := [("time", FloatCol durations);
                                ("delta", IntCol events)] |}) as [o Ho].
  - intros r df. apply for_in_pure. intros [t_idx t_val] df'.
    apply set_column_pure.
  - exists o. intros s. unfold bind, ret. apply Ho.
Qed.








Lemma combinations_nil (pg : param_grid) :
  combinations pg = [] ↔
  pg_lr pg = [] ∨ pg_alpha pg = [] ∨ pg_sigma pg = [] ∨ pg_dropout pg = []
  ∨ pg_batch_size pg = [].
Proof.
  rewrite <- !length_zero_iff_nil, combinations_length. lia.
Qed.

(** C7, as amended: when a candidate list of the grid is empty there is no
    combination; the search of a fold then trains nothing and returns its
    initial state, and the fold raises when it reports [best_params] (a
    TypeError once the fold's arrays were prepared), after printing its banner
    and building and scaling its arrays, before writing a table or recording
    a metric.  The run so ends inside its first fold. *)
Theorem empty_grid_aborts_in_first_fold (c : config) (g : globals) :
  combinations (grid c) = [] →
  (pg_lr (grid c) = [] ∨ pg_alpha (grid c) = [] ∨ pg_sigma (grid c) = []
   ∨ pg_dropout (grid c) = [] ∨ pg_batch_size (grid c) = [])
  ∧ (∀ fd r, grid_search c g fd r = (Ok search_init, r))
  ∧ (∀ split rest w,
       ∃ e w',
         run_folds c g (split :: rest) w = (Raise e, w')
         ∧ w_heap w' = (prepare_fold c g 0 split.1 split.2 (w_heap w)).2
         ∧ w_rng w' = w_rng w
         ∧ stdout w' = stdout w ++ [Separator; TrainingFold 1 25; Separator]
         ∧ written w' = written w
         ∧ fold_c_indexes w' = fold_c_indexes w
         ∧ fold_ibss w' = fold_ibss w
         ∧ (∀ fd h1, prepare_fold c g 0 split.1 split.2 (w_heap w) = (Ok fd, h1) →
                     e = TypeError)).
Proof.
  intros Hempty. split; [by apply combinations_nil|]. split.
  - intros fd r. by apply grid_search_empty.
  - intros split rest w.
    destruct (run_fold_empty_grid c g 0 split w Hempty) as (e & w' & Hrun & Hfacts).
    exists e, w'. split; [|exact Hfacts].
    unfold run_folds, enumerate. simpl. by erewrite bind_raise by exact Hrun.
Qed.

End FailureClaims.

(** ** The number of risks in the pipeline *)

Section RiskNetClaims.
Context `{Collaborators}.

Lemma take_idx_Forall {A} (P : A → Prop) (a : list A) (idx : list nat) (a' : list A) :
  Forall P a → take_idx a idx = Some a' → Forall P a'.
Proof.
  intros HP Hm. apply mapM_Some in Hm.
  induction Hm as [|i x idx a' Hi _ IH]; constructor; [|exact IH].
  exact (Forall_lookup_1 P a i x HP Hi).
Qed.

(** A fold whose preparation raises ends there, before the search. *)
Lemma run_fold_prepare_raises c g k sp w e h' :
  prepare_fold c g k sp.1 sp.2 (w_heap w) = (Raise e, h') →
  run_fold c g k sp w
  = (Raise e,
     {| w_heap := h'; w_rng := w_rng w;
        stdout := stdout w ++ [Separator; TrainingFold (k + 1) 25; Separator];
        written := written w;
        fold_c_indexes := fold_c_indexes w;
        fold_ibss := fold_ibss w |}).
Proof.
  intros Hprep.
  unfold run_fold, print, on_heap, zoom, modify, bind. simpl.
  rewrite Hprep. simpl. by rewrite <- !app_assoc.
Qed.

(** The network of a trial is built for [num_risks] risks. *)
Lemma trial_risk_nets c g fd p r sc log model r' :
  trial c g fd p r = (Ok (sc, log, model), r') →
  ∃ net r1,
    CauseSpecificNet_init (in_features g) (num_nodes_shared c) (num_nodes_indiv c)
      (num_risks g) (lt_out_features (fold_labtrans fd)) true (hp_dropout p) r
    = (Ok net, r1)
    ∧ length (risk_nets net) = Z.to_nat (num_risks g)
    ∧ model_fit {| dh_net := net; dh_lr := hp_lr p; dh_alpha := hp_alpha p;
                   dh_sigma := hp_sigma p;
                   duration_index := lt_cuts (fold_labtrans fd) |}
        (X_train fd) (durations_train fd, events_train fd) (hp_batch_size p) 200
        (X_val fd, (durations_val fd, events_val fd)) r1
      = ((dh_net model, log), r').
Proof.
  intros (net & r1 & cif0 & Hinit & Hfit & _)%trial_Ok_inv.
  exists net, r1. split; [done|]. split; [|done].
  by apply init_Ok_inv in Hinit as [_ Hlen].
Qed.

(** So is the network from which the retained model was trained. *)
Lemma grid_search_risk_nets c g fd r best r' model :
  grid_search c g fd r = (Ok best, r') →
  best_model best = Some model →
  ∃ p net r0 r1 r2 log,
    CauseSpecificNet_init (in_features g) (num_nodes_shared c) (num_nodes_indiv c)
      (num_risks g) (lt_out_features (fold_labtrans fd)) true (hp_dropout p) r0
    = (Ok net, r1)
    ∧ length (risk_nets net) = Z.to_nat (num_risks g)
    ∧ model_fit {| dh_net := net; dh_lr := hp_lr p; dh_alpha := hp_alpha p;
                   dh_sigma := hp_sigma p;
                   duration_index := lt_cuts (fold_labtrans fd) |}
        (X_train fd) (durations_train fd, events_train fd) (hp_batch_size p) 200
        (X_val fd, (durations_val fd, events_val fd)) r1
      = ((dh_net model, log), r2).
Proof.
  rewrite grid_search_flat. intros Hsearch. revert model.
  eapply (for_in_invariant
            (λ best, ∀ model, best_model best = Some model →
               ∃ p net r0 r1 r2 log,
                 CauseSpecificNet_init (in_features g) (num_nodes_shared c)
                   (num_nodes_indiv c) (num_risks g)
                   (lt_out_features (fold_labtrans fd)) true (hp_dropout p) r0
                 = (Ok net, r1)
                 ∧ length (risk_nets net) = Z.to_nat (num_risks g)
                 ∧ model_fit {| dh_net := net; dh_lr := hp_lr p;
                                dh_alpha := hp_alpha p; dh_sigma := hp_sigma p;
                                duration_index := lt_cuts (fold_labtrans fd) |}
                     (X_train fd) (durations_train fd, events_train fd)
                     (hp_batch_size p) 200
                     (X_val fd, (durations_val fd, events_val fd)) r1
                   = ((dh_net model, log), r2)));
    [| |exact Hsearch].
  - done.
  - intros p best0 s best1 s1 Hbest0 (x & s2 & Htrial & [= <- <-])%bind_Ok_inv.
    destruct x as [[sc log] m]. unfold keep_best.
    destruct (fgtb sc (best_val_c_index best0)); [|exact Hbest0].
    simpl. intros model [= <-].
    apply trial_risk_nets in Htrial as (net & r1 & Hinit & Hlen & Hfit).
    by exists p, net, s, r1, s2, log.
Qed.

(** C10, as amended: when the largest event code of the dataset is [m] (and
    codes are not negative), [num_risks] is [m], in [setup] as well, and a
    network built with it has exactly [m] risk networks: one for [m = 1],
    none for [m = 0].  Every network a trial of the pipeline builds, and so
    the one from which the model a search retains was trained, is built with
    the [num_risks] of [setup], and has [m] risk networks.  When every event
    code is zero, and the label transform raises on labels that hold no
    event, no model is built: a fold on valid indices raises a ValueError
    when it transforms its inner-train labels, after printing its banner and
    allocating its arrays, with the generator untouched and nothing
    written. *)
Theorem risk_nets_match_largest_event_code {S} (events : list Z) (m : Z)
    (in_feat : nat) (shared indiv : list nat) (out : nat) (bn : bool)
    (dropout : Q) (s : S) (r : rng_state) :
  m ∈ events → (∀ e, e ∈ events → e ≤ m) → 0 ≤ m → shared ≠ [] →
  compute_num_risks events s = (Ok m, s)
  ∧ (∀ ds h g h',
       ds_event ds = events → setup ds h = (Ok g, h') →
       num_risks g = m
       ∧ (∀ c fd p r0 sc log model r2,
            trial c g fd p r0 = (Ok (sc, log, model), r2) →
            ∃ net r1,
              CauseSpecificNet_init (in_features g) (num_nodes_shared c)
                (num_nodes_indiv c) m (lt_out_features (fold_labtrans fd))
                true (hp_dropout p) r0
              = (Ok net, r1)
              ∧ Z.of_nat (length (risk_nets net)) = m
              ∧ model_fit {| dh_net := net; dh_lr := hp_lr p;
                             dh_alpha := hp_alpha p; dh_sigma := hp_sigma p;
                             duration_index := lt_cuts (fold_labtrans fd) |}
                  (X_train fd) (durations_train fd, events_train fd)
                  (hp_batch_size p) 200
                  (X_val fd, (durations_val fd, events_val fd)) r1
                = ((dh_net model, log), r2))
       ∧ (∀ c fd r0 best r3 model,
            grid_search c g fd r0 = (Ok best, r3) →
            best_model best = Some model →
            ∃ p net r0' r1 r2 log,
              CauseSpecificNet_init (in_features g) (num_nodes_shared c)
                (num_nodes_indiv c) m (lt_out_features (fold_labtrans fd))
                true (hp_dropout p) r0'
              = (Ok net, r1)
              ∧ Z.of_nat (length (risk_nets net)) = m
              ∧ model_fit {| dh_net := net; dh_lr := hp_lr p;
                             dh_alpha := hp_alpha p; dh_sigma := hp_sigma p;
                             duration_index := lt_cuts (fold_labtrans fd) |}
                  (X_train fd) (durations_train fd, events_train fd)
                  (hp_batch_size p) 200
                  (X_val fd, (durations_val fd, events_val fd)) r1
                = ((dh_net model, log), r2)))
  ∧ (∃ net r',
       CauseSpecificNet_init in_feat shared indiv m out bn dropout r = (Ok net, r')
       ∧ Z.of_nat (length (risk_nets net)) = m
       ∧ (m = 1 → ∃ n1, risk_nets net = [n1])
       ∧ (m = 0 → risk_nets net = []))
  ∧ (Forall (λ e, e = 0) events →
     (∀ lt durations labels,
        Forall (λ e, e = 0) labels → lt_transform lt durations labels = None) →
     ∀ c g k sp w X T,
       w_heap w !! X_all g = Some (A2 X) → w_heap w !! y_time g = Some (A1f T) →
       w_heap w !! y_event g = Some (A1i events) →
       length T = length X → length events = length X →
       Forall (λ i, (i < length X)%nat) sp.1 →
       Forall (λ i, (i < length X)%nat) sp.2 →
       (∀ idx ts st seed,
           Forall (λ i, i ∈ idx) (train_test_split idx ts st seed).1
           ∧ Forall (λ i, i ∈ idx) (train_test_split idx ts st seed).2) →
       (∀ sc x, shape (scaler_transform sc x) = shape x) →
       ∃ h',
         prepare_fold c g k sp.1 sp.2 (w_heap w) = (Raise ValueError, h')
         ∧ run_fold c g k sp w
           = (Raise ValueError,
              {| w_heap := h'; w_rng := w_rng w;
                 stdout := stdout w
                           ++ [Separator; TrainingFold (k + 1) 25; Separator];
                 written := written w;
                 fold_c_indexes := fold_c_indexes w;
                 fold_ibss := fold_ibss w |})).
Proof.
  intros Hin Hmax Hm Hshared.
  assert (Hnr : ∀ S' (s' : S'), compute_num_risks events s' = (Ok m, s')).
  { intros S' s'. unfold compute_num_risks.
    by rewrite (proj2 (series_max_spec events m) (conj Hin Hmax)). }
  split; [apply Hnr|]. split; [|split].
  - intros ds h g h' Hds Hsetup.
    assert (Hg : num_risks g = m).
    { revert Hsetup. unfold setup. rewrite Hds.
      intros (y0 & h1 & _ & Hrest)%bind_Ok_inv.
      apply bind_Ok_inv in Hrest as (y1 & h2 & _ & Hrest).
      rewrite (bind_ok _ _ _ _ _ (Hnr _ h2)) in Hrest.
      apply bind_Ok_inv in Hrest as (X & h3 & _ & Hrest).
      apply bind_Ok_inv in Hrest as (lX & h4 & _ & Hrest).
      by injection Hrest as <- _. }
    split; [exact Hg|]. rewrite <- Hg. split.
    + intros c fd p r0 sc log model r2 Htrial.
      apply trial_risk_nets in Htrial as (net & r1 & Hinit & Hlen & Hfit).
      exists net, r1. split; [done|]. split; [lia|done].
    + intros c fd r0 best r3 model Hsearch Hmodel.
      destruct (grid_search_risk_nets _ _ _ _ _ _ _ Hsearch Hmodel)
        as (p & net & r0' & r1 & r2 & log & Hinit & Hlen & Hfit).
      exists p, net, r0', r1, r2, log. split; [done|]. split; [lia|done].
  - destruct (last shared) as [w|] eqn:Hw; [|by apply last_None in Hw].
    unfold CauseSpecificNet_init.
    erewrite bind_ok by (unfold getitem_last; rewrite Hw; reflexivity).
    erewrite bind_ok by apply new_mlp_eq.
    set (sn := (MLPVanilla in_feat (removelast shared) w bn dropout r).1).
    set (r1 := (MLPVanilla in_feat (removelast shared) w bn dropout r).2).
    destruct (risk_net_loop shared indiv out bn dropout w (py_range m) [] r1 Hw)
      as (nets & r' & Hloop & Hlen).
    exists {| shared_net := sn; risk_nets := nets |}, r'.
    rewrite py_range_length in Hlen. simpl in Hlen.
    split; [|split; [|split]].
    + by erewrite bind_ok by apply Hloop.
    + simpl. lia.
    + intros ->. simpl. destruct nets as [|n1 [|n2 nets]]; simpl in Hlen; try lia. eauto.
    + intros ->. simpl. destruct nets; simpl in Hlen; [done|lia].
  - intros Hzero Hlib c g k sp w X T HX HT HE HlT HlE Htrain Htest Hsplit Hshape.
    destruct (prepare_fold_valid c g k sp.1 sp.2 (w_heap w) X T events
                HX HT HE HlT HlE Htrain Htest Hsplit Hshape) as (sl & Hsl & Hrun).
    simpl in Hrun.
    assert (Hinner : Forall (λ e, e = 0) (inner_E sl)).
    { destruct Hsl as (_ & _ & _ & HoE & _ & _ & _ & _ & _ & _ & HiE & _).
      eapply take_idx_Forall; [|exact HiE].
      eapply take_idx_Forall; [exact Hzero|exact HoE]. }
    rewrite (Hlib _ _ _ Hinner) in Hrun.
    eexists. split; [exact Hrun|]. by apply run_fold_prepare_raises.
Qed.

End RiskNetClaims.

(** ** The prediction tables *)

Section TableClaims.
Context `{Collaborators}.

Lemma lookup_assoc_set (name name' : string) (c : column)
    (cols : list (string * column)) :
  snd <$> find (λ kv, bool_decide (kv.1 = name')) (assoc_set name c cols)
  = if decide (name = name') then Some c
    else snd <$> find (λ kv, bool_decide (kv.1 = name')) cols.
Proof.
  induction cols as [|[k v] cols IH]; simpl.
  - destruct (decide (name = name')) as [->|Hne].
    + by rewrite bool_decide_true.
    + by rewrite bool_decide_false.
  - destruct (decide (k = name)) as [->|Hk]; simpl.
    + destruct (decide (name = name')) as [->|Hne].
      * by rewrite bool_decide_true.
      * by rewrite !bool_decide_false.
    + destruct (decide (k = name')) as [->|Hk'].
      * rewrite !bool_decide_true by done. by rewrite decide_False.
      * rewrite !bool_decide_false by done. exact IH.
Qed.

Lemma set_column_inv {S} cif r t_idx t_val df (s : S) df' s' :
  set_column cif r t_idx t_val df s = (Ok df', s') →
  ∃ cif_r values,
    cif !! Z.to_nat r = Some cif_r ∧ cif_r !! t_idx = Some values
    ∧ length values = df_rows df
    ∧ df' = {| df_rows := df_rows df;
               df_columns := assoc_set (column_name r t_val) (FloatCol values)
                               (df_columns df) |}.
Proof.
  unfold set_column, getitem.
  intros (cif_r & s1 & Hr & Hrest)%bind_Ok_inv.
  apply bind_Ok_inv in Hrest as (values & s2 & Hv & Hset).
  destruct (cif !! Z.to_nat r) as [cif_r'|] eqn:Hcif; [|done].
  injection Hr as -> ->.
  destruct (cif_r !! t_idx) as [values'|] eqn:Hvalues; [|done].
  injection Hv as -> ->.
  unfold df_setitem in Hset.
  destruct (decide (column_length (FloatCol values) = df_rows df)) as [Hlen|];
    [|done].
  injection Hset as <- <-. by exists cif_r, values.
Qed.

(** What the columns set in a loop over [cells] leave in the table: other
    columns are untouched, every cell has its column, and the column holds the
    cell's incidences when no other cell has the same column name. *)
Lemma set_columns_spec {S} cif (cells : list (Z * (nat * pyfloat))) df (s : S)
    df' s' :
  for_in cells (λ cell df, set_column cif cell.1 cell.2.1 cell.2.2 df) df s
  = (Ok df', s') →
  df_rows df' = df_rows df
  ∧ (∀ name, (∀ cell, cell ∈ cells → column_name cell.1 cell.2.2 ≠ name) →
             df_lookup df' name = df_lookup df name)
  ∧ (∀ cell, cell ∈ cells →
       ∃ values,
         df_lookup df' (column_name cell.1 cell.2.2) = Some (FloatCol values)
         ∧ length values = df_rows df
         ∧ (NoDup ((λ cell, column_name cell.1 cell.2.2) <$> cells) →
            ∃ cif_r, cif !! Z.to_nat cell.1 = Some cif_r
                     ∧ cif_r !! cell.2.1 = Some values)).
Proof.
  revert df s. induction cells as [|cell0 cells IH]; intros df s; simpl.
  - intros [= <- <-]. split; [done|]. split; [done|].
    intros cell Hcell. by apply elem_of_nil in Hcell.
  - intros (df1 & s1 & Hstep & Hrest)%bind_Ok_inv.
    apply set_column_inv in Hstep as (cif_r & values & Hr & Hv & Hlen & ->).
    destruct (IH _ _ Hrest) as (Hrows & Hother & Hcells). simpl in Hrows.
    split; [done|]. split.
    + intros name Hname. rewrite Hother.
      * unfold df_lookup. simpl. rewrite lookup_assoc_set.
        rewrite decide_False; [done|]. apply Hname, elem_of_cons. by left.
      * intros cell Hcell. apply Hname, elem_of_cons. by right.
    + intros cell [->|Hcell]%elem_of_cons.
      * destruct (decide (column_name cell0.1 cell0.2.2
                          ∈ (λ cell, column_name cell.1 cell.2.2) <$> cells))
          as [Hin|Hnotin].
        -- apply list_elem_of_fmap in Hin as (cell' & Hname & Hcell').
           destruct (Hcells cell' Hcell') as (values' & Hlook & Hlen' & _).
           exists values'. rewrite Hname. split; [done|]. split; [done|].
           intros Hnodup. exfalso. apply NoDup_cons in Hnodup as [Hnotin _].
           apply Hnotin.
           by apply (list_elem_of_fmap_2 (λ cell, column_name cell.1 cell.2.2)).
        -- exists values. split; [|split; [done|by eauto]].
           rewrite Hother.
           ++ unfold df_lookup. simpl. rewrite lookup_assoc_set.
              by rewrite decide_True.
           ++ intros cell Hcell Hname. apply Hnotin. rewrite <- Hname.
              by apply (list_elem_of_fmap_2 (λ cell, column_name cell.1 cell.2.2)).
      * destruct (Hcells cell Hcell) as (values' & Hlook & Hlen' & Hval).
        exists values'. split; [done|]. split; [done|].
        intros Hnodup. apply Hval. by apply NoDup_cons in Hnodup as [_ ?].
Qed.

Lemma build_table_flat {S} n_risks durations events index cif (s : S) :
  build_table n_risks durations events index cif s
  = (let* df_out := new_table durations events in
     for_in (table_cells n_risks index)
       (λ cell df, set_column cif cell.1 cell.2.1 cell.2.2 df) df_out) s.
Proof.
  unfold build_table, table_cells. apply bind_ext; [done|]. intros df s1.
  symmetry.
  rewrite for_in_bind. apply for_in_ext. intros r df1 s2.
  rewrite for_in_bind. apply for_in_ext. intros [t_idx t_val] df2 s3.
  by rewrite for_in_singleton.
Qed.

Lemma elem_of_py_range (n r : Z) : r ∈ py_range n ↔ 0 ≤ r < n.
Proof.
  unfold py_range. rewrite list_elem_of_fmap. split.
  - intros (i & -> & Hi). apply elem_of_seq in Hi. lia.
  - intros Hr. exists (Z.to_nat r). split; [lia|]. apply elem_of_seq. lia.
Qed.

Lemma elem_of_enumerate {A} (l : list A) (i : nat) (x : A) :
  (i, x) ∈ enumerate l ↔ l !! i = Some x.
Proof.
  unfold enumerate. rewrite list_elem_of_lookup. split.
  - intros (j & Hj). apply lookup_zip_with_Some in Hj
      as (i' & x' & [= <- <-] & Hi & Hx).
    apply lookup_seq in Hi as [-> _]. done.
  - intros Hx. exists i. apply lookup_zip_with_Some. exists i, x.
    split; [done|]. split; [|done]. apply lookup_seq. split; [done|].
    by apply lookup_lt_Some in Hx.
Qed.

Lemma elem_of_table_cells n_risks index r t_idx t_val :
  (r, (t_idx, t_val)) ∈ table_cells n_risks index ↔
  0 ≤ r < n_risks ∧ index !! t_idx = Some t_val.
Proof.
  unfold table_cells. rewrite list_elem_of_bind. split.
  - intros (r' & Hcell & Hr). apply list_elem_of_bind in Hcell as (it & Hcell & Hit).
    apply list_elem_of_singleton in Hcell as [= <- <-].
    split; [by apply elem_of_py_range|by apply elem_of_enumerate].
  - intros [Hr Ht]. exists r. split; [|by apply elem_of_py_range].
    apply list_elem_of_bind. exists (t_idx, t_val).
    split; [by apply list_elem_of_singleton|by apply elem_of_enumerate].
Qed.

Lemma column_name_not_label r t_val :
  column_name r t_val ≠ "time" ∧ column_name r t_val ≠ "delta"
  ∧ column_name r t_val ≠ "event-code".
Proof. unfold column_name. simpl. repeat split; discriminate. Qed.

(** The columns of a table [build_table] returns. *)
Lemma build_table_columns {S} n_risks durations events index cif (s : S) df s' :
  build_table n_risks durations events index cif s = (Ok df, s') →
  df_rows df = length durations
  ∧ df_lookup df "time" = Some (FloatCol durations)
  ∧ df_lookup df "delta" = Some (IntCol events)
  ∧ df_lookup df "event-code" = None
  ∧ (∀ r t_idx t_val,
       0 ≤ r < n_risks → index !! t_idx = Some t_val →
       ∃ values,
         df_lookup df (column_name r t_val) = Some (FloatCol values)
         ∧ length values = length durations
         ∧ (NoDup ((λ cell, column_name cell.1 cell.2.2)
                     <$> table_cells n_risks index) →
            ∃ cif_r, cif !! Z.to_nat r = Some cif_r ∧ cif_r !! t_idx = Some values)).
Proof.
  rewrite build_table_flat.
  intros (df0 & s0 & Hnew & Hloop)%bind_Ok_inv.
  unfold new_table in Hnew. case_decide; [|done]. injection Hnew as <- <-.
  apply set_columns_spec in Hloop as (Hrows & Hother & Hcells). simpl in *.
  split; [done|].
  split; [rewrite Hother; [done|]; intros; apply column_name_not_label|].
  split; [rewrite Hother; [done|]; intros; apply column_name_not_label|].
  split; [rewrite Hother; [done|]; intros; apply column_name_not_label|].
  intros r t_idx t_val Hr Ht.
  apply (Hcells (r, (t_idx, t_val))). by apply elem_of_table_cells.
Qed.

(** On incidences of the predicted shape the table is built. *)
Lemma set_columns_complete {S} cif (cells : list (Z * (nat * pyfloat))) df (s : S) :
  (∀ cell, cell ∈ cells →
     ∃ cif_r values,
       cif !! Z.to_nat cell.1 = Some cif_r ∧ cif_r !! cell.2.1 = Some values
       ∧ length values = df_rows df) →
  ∃ df',
    for_in cells (λ cell df, set_column cif cell.1 cell.2.1 cell.2.2 df) df s
    = (Ok df', s).
Proof.
  revert df. induction cells as [|cell cells IH]; intros df Hcells; simpl.
  - by exists df.
  - destruct (Hcells cell) as (cif_r & values & Hr & Hv & Hlen);
      [apply elem_of_cons; by left|].
    assert (Hstep : set_column cif cell.1 cell.2.1 cell.2.2 df s
                    = (Ok {| df_rows := df_rows df;
                             df_columns :=
                               assoc_set (column_name cell.1 cell.2.2)
                                 (FloatCol values) (df_columns df) |}, s)).
    { unfold set_column, getitem.
      erewrite bind_ok by (rewrite Hr; reflexivity).
      erewrite bind_ok by (rewrite Hv; reflexivity).
      unfold df_setitem. by rewrite decide_True. }
    erewrite bind_ok by exact Hstep.
    apply IH. intros cell' Hcell'. apply Hcells, elem_of_cons. by right.
Qed.

Lemma build_table_complete {S} n_risks durations events index cif (s : S) :
  length durations = length events →
  (∀ r t_idx t_val,
     0 ≤ r < n_risks → index !! t_idx = Some t_val →
     ∃ cif_r values,
       cif !! Z.to_nat r = Some cif_r ∧ cif_r !! t_idx = Some values
       ∧ length values = length durations) →
  ∃ df, build_table n_risks durations events index cif s = (Ok df, s).
Proof.
  intros Hlen Hcif. rewrite build_table_flat. unfold new_table.
  rewrite decide_True by done.
  erewrite bind_ok by reflexivity.
  apply set_columns_complete. intros [r [t_idx t_val]] Hcell.
  apply elem_of_table_cells in Hcell as [Hr Ht]. by apply (Hcif r t_idx t_val).
Qed.

Lemma string_length_app (s1 s2 : string) :
  String.length (s1 +:+ s2) = (String.length s1 + String.length s2)%nat.
Proof. induction s1 as [|a s1 IH]; simpl; [done|]. by rewrite IH. Qed.

Lemma string_app_inv_tail (s1 s2 t : string) : s1 +:+ t = s2 +:+ t → s1 = s2.
Proof.
  revert s2. induction s1 as [|a s1 IH]; intros [|b s2] Heq; simpl in Heq.
  - done.
  - apply (f_equal String.length) in Heq.
    rewrite ?string_length_app in Heq. simpl in Heq.
    rewrite ?string_length_app in Heq. lia.
  - apply (f_equal String.length) in Heq.
    rewrite ?string_length_app in Heq. simpl in Heq.
    rewrite ?string_length_app in Heq. lia.
  - injection Heq as -> Heq. f_equal. by apply IH.
Qed.

(** Distinct folds write distinct files. *)
Lemma csv_file_inj : Inj (=) (=) csv_file.
Proof.
  intros a b Heq. unfold csv_file in Heq.
  do 3 apply (inj (String.app _)) in Heq.
  apply string_app_inv_tail in Heq. apply (inj pretty) in Heq. lia.
Qed.

(** A loop over the folds that completes wrote one table per fold, under the
    name of the fold. *)
(** The state in which fold [j] of the loop started at [i] begins: the one
    the first [j] folds leave. *)
Lemma run_folds_from_written c g (splits : list (list nat * list nat)) (i : nat)
    w w' :
  for_in (zip (seq i (length splits)) splits)
    (λ fs _, run_fold c g fs.1 fs.2) tt w = (Ok tt, w') →
  ∃ tables,
    written w' = written w ++ tables
    ∧ tables.*1 = csv_file <$> seq i (length splits)
    ∧ ∀ j sp,
        splits !! j = Some sp →
        ∃ df,
          tables !! j = Some (csv_file (i + j), df)
          ∧ fold_table c g (i + j) sp
              (for_in (zip (seq i (length (take j splits))) (take j splits))
                 (λ fs _, run_fold c g fs.1 fs.2) tt w).2 df.
Proof.
  revert i w. induction splits as [|sp splits IH]; intros i w; simpl.
  - intros [= <-]. exists []. rewrite app_nil_r. by repeat split.
  - intros ([] & w1 & Hfold & Hrest)%bind_Ok_inv.
    pose proof Hfold as Hfold'.
    apply run_fold_Ok_inv in Hfold'
      as (fd & best & p & model & df & s & ci & ibs & Hprep & Hsearch & _ & Hmodel
          & Htable & Hwritten & _).
    apply IH in Hrest as (tables & Hw' & Hnames & Htables).
    exists ((csv_file i, df) :: tables).
    split; [by rewrite Hw', Hwritten, <- app_assoc|].
    split; [by rewrite fmap_cons, Hnames|].
    intros [|j] sp' Hsp'; simpl in Hsp'.
    + injection Hsp' as <-. exists df. rewrite Nat.add_0_r. split; [done|].
      simpl. by exists fd, (w_heap w1), best, (w_rng w1), model, s.
    + destruct (Htables j sp' Hsp') as (df' & Hdf' & Hfold_table).
      exists df'. replace (i + S j)%nat with (S i + j)%nat by lia.
      split; [done|]. simpl. unfold bind at 1. by rewrite Hfold.
Qed.

Lemma on_heap_written {A} (m : M heap A) (w : world) :
  written (on_heap m w).2 = written w.
Proof. unfold on_heap, zoom. by destruct (m (w_heap w)). Qed.

(** A run of the script that completes wrote what its loop wrote. *)
Lemma main_Ok_inv c ds w w' :
  main c ds w = (Ok tt, w') →
  ∃ g w1 X w2 w3,
    on_heap (setup ds) w = (Ok g, w1)
    ∧ on_heap (read_matrix (X_all g)) w1 = (Ok X, w2)
    ∧ run_folds c g
        (rskf_split (n_splits c) (n_repeats c) (random_state c) X (y_event1 g)) w2
      = (Ok tt, w3)
    ∧ written w2 = written w
    ∧ written w' = written w3.
Proof.
  unfold main. intros (g & w1 & Hsetup & Hrest)%bind_Ok_inv.
  apply bind_Ok_inv in Hrest as (X & w2 & Hread & Hrest).
  apply bind_Ok_inv in Hrest as ([] & w3 & Hfolds & Hrest).
  exists g, w1, X, w2, w3. repeat split; try done.
  - pose proof (on_heap_written (setup ds) w) as H1.
    pose proof (on_heap_written (read_matrix (X_all g)) w1) as H2.
    rewrite Hsetup in H1. rewrite Hread in H2. simpl in *. congruence.
  - revert Hrest.
    unfold bind, gets, compute_confidence_interval, ret, print, modify. simpl.
    by intros [= <-].
Qed.

(** The test labels of a fold prepared on valid indices are the global
    labels at the fold's test indices. *)
Lemma fold_table_test_rows c g k sp w df X T E :
  w_heap w !! X_all g = Some (A2 X) → w_heap w !! y_time g = Some (A1f T) →
  w_heap w !! y_event g = Some (A1i E) →
  length T = length X → length E = length X →
  Forall (λ i, (i < length X)%nat) sp.1 →
  Forall (λ i, (i < length X)%nat) sp.2 →
  (∀ idx ts st seed,
      Forall (λ i, i ∈ idx) (train_test_split idx ts st seed).1
      ∧ Forall (λ i, i ∈ idx) (train_test_split idx ts st seed).2) →
  (∀ sc m, shape (scaler_transform sc m) = shape m) →
  fold_table c g k sp w df →
  ∃ times events,
    take_idx T sp.2 = Some times ∧ take_idx E sp.2 = Some events
    ∧ df_rows df = length sp.2
    ∧ df_lookup df "time" = Some (FloatCol times)
    ∧ df_lookup df "delta" = Some (IntCol events).
Proof.
  intros HX HT HE HlT HlE Htrain Htest Hsplit Hshape
    (fd & h' & best & r' & model & s & Hprep & _ & _ & Htable).
  destruct (prepare_fold_valid_Ok c g k sp.1 sp.2 (w_heap w) X T E fd h'
              HX HT HE HlT HlE Htrain Htest Hsplit Hshape Hprep)
    as (sl & Hsl & _ & _ & _ & _ & _ & _ & _ & _ & Hdur & Hev & _).
  destruct Hsl as (_ & _ & _ & _ & HtT & HtE & _).
  apply build_table_columns in Htable as (Hrows & Htime & Hdelta & _).
  exists (test_T sl), (test_E sl). rewrite <- Hdur, <- Hev.
  repeat split; try done.
  - by rewrite Hdur.
  - by rewrite Hev.
  - rewrite Hrows, Hdur. symmetry. by eapply length_mapM.
Qed.

(** C8, as amended: the table a fold writes is built from the test labels of
    the data this fold prepared and from the incidences that the model this
    fold's search retained predicts for this fold's test rows.  It has one
    row per test subject, a column [time] with the observed times, a column
    [delta] with the event codes (and no column [event-code]), and for every
    risk [r] below [num_risks] and every cut point [t] of the model's grid,
    which is the grid of this fold, a column [pred_event{r+1}_time{t}]; that
    column holds the predicted incidences [cif_test[r][t_idx, :]] when the
    column names are pairwise distinct.  On valid indices the two label
    columns are the global times and event codes at the fold's test indices,
    in order.  The table is built whenever the incidences have one row per
    cut point and one value per test subject, for every risk.  A loop over
    the folds that completes has written exactly one table per split, in
    order, under the distinct names [fold_{n+1}_predictions.csv], the table
    under the name of fold [n] being the one fold [n] wrote from the state
    the earlier folds left; so a run that completes has written
    [n_splits * n_repeats] such tables when the splitter yields that many
    splits. *)
Theorem prediction_tables_written (c : config) :
  (∀ g k sp w df,
     fold_table c g k sp w df →
     ∃ fd h' best r' model,
       prepare_fold c g k sp.1 sp.2 (w_heap w) = (Ok fd, h')
       ∧ grid_search c g fd (w_rng w) = (Ok best, r')
       ∧ best_model best = Some model
       ∧ duration_index model = lt_cuts (fold_labtrans fd)
       ∧ df_rows df = length (durations_test_fold fd)
       ∧ df_lookup df "time" = Some (FloatCol (durations_test_fold fd))
       ∧ df_lookup df "delta" = Some (IntCol (events_test_fold fd))
       ∧ df_lookup df "event-code" = None
       ∧ (∀ r t_idx t_val,
            0 ≤ r < num_risks g → duration_index model !! t_idx = Some t_val →
            ∃ values,
              df_lookup df (column_name r t_val) = Some (FloatCol values)
              ∧ length values = length (durations_test_fold fd)
              ∧ (NoDup ((λ cell, column_name cell.1 cell.2.2)
                          <$> table_cells (num_risks g) (duration_index model)) →
                 ∃ cif_r,
                   predict_cif model (X_test fd) !! Z.to_nat r = Some cif_r
                   ∧ cif_r !! t_idx = Some values)))
  ∧ (∀ g k sp w df X T E,
       w_heap w !! X_all g = Some (A2 X) → w_heap w !! y_time g = Some (A1f T) →
       w_heap w !! y_event g = Some (A1i E) →
       length T = length X → length E = length X →
       Forall (λ i, (i < length X)%nat) sp.1 →
       Forall (λ i, (i < length X)%nat) sp.2 →
       (∀ idx ts st seed,
           Forall (λ i, i ∈ idx) (train_test_split idx ts st seed).1
           ∧ Forall (λ i, i ∈ idx) (train_test_split idx ts st seed).2) →
       (∀ sc m, shape (scaler_transform sc m) = shape m) →
       fold_table c g k sp w df →
       ∃ times events,
         take_idx T sp.2 = Some times ∧ take_idx E sp.2 = Some events
         ∧ df_rows df = length sp.2
         ∧ df_lookup df "time" = Some (FloatCol times)
         ∧ df_lookup df "delta" = Some (IntCol events))
  ∧ (∀ g fd model (s : world),
       length (durations_test_fold fd) = length (events_test_fold fd) →
       (∀ r t_idx t_val,
          0 ≤ r < num_risks g → duration_index model !! t_idx = Some t_val →
          ∃ cif_r values,
            predict_cif model (X_test fd) !! Z.to_nat r = Some cif_r
            ∧ cif_r !! t_idx = Some values
            ∧ length values = length (durations_test_fold fd)) →
       ∃ df,
         build_table (num_risks g) (durations_test_fold fd) (events_test_fold fd)
           (duration_index model) (predict_cif model (X_test fd)) s = (Ok df, s))
  ∧ (∀ g splits w w',
       run_folds c g splits w = (Ok tt, w') →
       ∃ tables,
         written w' = written w ++ tables
         ∧ tables.*1 = csv_file <$> seq 0 (length splits)
         ∧ NoDup tables.*1
         ∧ ∀ i sp,
             splits !! i = Some sp →
             ∃ df,
               tables !! i = Some (csv_file i, df)
               ∧ fold_table c g i sp (run_folds c g (take i splits) w).2 df)
  ∧ (∀ ds r w',
       (∀ X y, length (rskf_split (n_splits c) (n_repeats c) (random_state c) X y)
               = (n_splits c * n_repeats c)%nat) →
       main c ds (initial_world r) = (Ok tt, w') →
       length (written w') = (n_splits c * n_repeats c)%nat
       ∧ (written w').*1 = csv_file <$> seq 0 (n_splits c * n_repeats c)
       ∧ NoDup (written w').*1
       ∧ ∃ g X w0,
           on_heap (setup ds) (initial_world r) = (Ok g, w0)
           ∧ w_heap w0 !! X_all g = Some (A2 X)
           ∧ let splits := rskf_split (n_splits c) (n_repeats c) (random_state c)
                             X (y_event1 g) in
             ∀ i sp,
               splits !! i = Some sp →
               ∃ df,
                 written w' !! i = Some (csv_file i, df)
                 ∧ fold_table c g i sp (run_folds c g (take i splits) w0).2 df)
  ∧ csv_file 0 = "deep_hit_predictions/fold_1_predictions.csv".
Proof.
  assert (Hloop : ∀ g splits w w',
            run_folds c g splits w = (Ok tt, w') →
            ∃ tables,
              written w' = written w ++ tables
              ∧ tables.*1 = csv_file <$> seq 0 (length splits)
              ∧ NoDup tables.*1
              ∧ ∀ i sp,
                  splits !! i = Some sp →
                  ∃ df,
                    tables !! i = Some (csv_file i, df)
                    ∧ fold_table c g i sp (run_folds c g (take i splits) w).2 df).
  { intros g splits w w' Hrun.
    apply run_folds_from_written in Hrun as (tables & Hw & Hnames & Htables).
    exists tables. repeat split; try done.
    rewrite Hnames. apply (NoDup_fmap_2 csv_file (Inj0:=csv_file_inj)), NoDup_seq. }
  split; [|split; [|split; [|split; [exact Hloop|split; [|reflexivity]]]]].
  - intros g k sp w df (fd & h' & best & r' & model & s & Hprep & Hsearch & Hmodel
                        & Htable).
    exists fd, h', best, r', model.
    split; [done|]. split; [done|]. split; [done|].
    split; [by eapply grid_search_duration_index|].
    by apply build_table_columns in Htable.
  - intros g k sp w df X T E. apply fold_table_test_rows.
  - intros g fd model s Hlen Hcif.
    by apply build_table_complete.
  - intros ds r w' Hsplits Hmain.
    apply main_Ok_inv in Hmain
      as (g & w1 & X & w2 & w3 & Hsetup & Hread & Hrun & Hw2 & Hw').
    apply Hloop in Hrun as (tables & Hw3 & Hnames & Hnodup & Htables).
    assert (Hw12 : w2 = w1 ∧ w_heap w1 !! X_all g = Some (A2 X)).
    { revert Hread. unfold on_heap, zoom, read_matrix, read, bind, gets, lift_option.
      simpl. destruct (w_heap w1 !! X_all g) as [[m| |]|]; simpl; try done.
      intros [= <- <-]. by destruct w1. }
    destruct Hw12 as [-> HX].
    rewrite Hw', Hw3, Hw2. simpl. rewrite Hsplits in Hnames.
    repeat split.
    + by rewrite <- (length_fmap fst), Hnames, length_fmap, length_seq.
    + done.
    + done.
    + exists g, X, w1. split; [done|]. split; [done|]. exact Htables.
Qed.

End TableClaims.

(** ** Concrete runs

    The theorems above at concrete inputs, with the stand-in collaborators,
    and the runs on which the script departs from what was expected of it. *)

Section Runs.
Existing Instance Demo.collaborators.

(** The aggregator on the single value 0.7. *)
Lemma confidence_interval_small_sample_witness :
  (length [Finite 0.7] < 2)%nat
  ∧ compute_confidence_interval [Finite 0.7] default_confidence tt
    = (Ok (np_mean [Finite 0.7], NaN, NaN), tt).
Proof.
  split; [simpl; lia|].
  apply (confidence_interval_small_sample [Finite 0.7] default_confidence tt).
  simpl; lia.
Defined.

(** C2 fails as stated: on the single value 0.7 the aggregator returns
    normally, with NaN bounds. *)
Lemma single_value_returns_nan_bounds :
  compute_confidence_interval [Finite 0.7] default_confidence tt
  = (Ok (Finite 0.7, NaN, NaN), tt).
Proof. vm_compute. reflexivity. Qed.

(** The stand-in splitter returns entries of the index array, and the
    stand-in scaler keeps the shape of what it transforms. *)
Lemma holdout_members (idx : list nat) (ts : Q) (st : list Z) (seed : Z) :
  Forall (λ i, i ∈ idx) (Demo.holdout idx ts st seed).1
  ∧ Forall (λ i, i ∈ idx) (Demo.holdout idx ts st seed).2.
Proof.
  unfold Demo.holdout. simpl.
  split; apply Forall_forall; intros i Hi;
    by apply list_elem_of_filter in Hi as [_ Hi].
Qed.

Lemma center_shape (means : list pyfloat) (m : matrix) :
  shape (Demo.center_transform means m) = shape m.
Proof.
  unfold shape, Demo.center_transform. rewrite <- list_fmap_compose.
  apply list_fmap_ext. intros i r _. simpl. apply length_imap.
Qed.

Lemma rows_in_range :
  Forall (λ i, (i < length Demo.X0)%nat) Demo.split0.1
  ∧ Forall (λ i, (i < length Demo.X0)%nat) Demo.split0.2.
Proof. split; repeat constructor; simpl; lia. Qed.

(** The stand-in label transform raises on labels without an event. *)
Lemma cuts_transform_no_event (cuts durations : list pyfloat) (labels : list Z) :
  Forall (λ e, e = 0) labels → Demo.cuts_transform cuts durations labels = None.
Proof.
  intros Hzero. unfold Demo.cuts_transform.
  assert (Hall : forallb (Z.eqb 0) labels = true); [|by rewrite Hall].
  induction Hzero as [|e labels -> _ IH]; [done|]. simpl. exact IH.
Qed.

(** The events of [subjects] have largest code 2: two risk networks, also in
    the model the search of the first fold retains.  On [censored_sheet] the
    largest code is 0, and the first fold raises before its search. *)
Lemma risk_nets_match_largest_event_code_witness :
  2 ∈ ds_event Demo.subjects
  ∧ compute_num_risks (ds_event Demo.subjects) tt = (Ok 2, tt)
  ∧ (∃ net r',
       CauseSpecificNet_init 3 [4; 3]%nat [3]%nat 2 3 true 0.5%Q 0%nat = (Ok net, r')
       ∧ Z.of_nat (length (risk_nets net)) = 2)
  ∧ 0 ∈ ds_event Demo.censored_sheet
  ∧ ∃ h',
      run_fold Demo.small_config censored_globals 0 Demo.split0 censored_world
      = (Raise ValueError,
         {| w_heap := h'; w_rng := 0%nat;
            stdout := [Separator; TrainingFold 1 25; Separator];
            written := []; fold_c_indexes := []; fold_ibss := [] |}).
Proof.
  assert (Hin : 2 ∈ ds_event Demo.subjects).
  { simpl. rewrite !elem_of_cons. auto 10. }
  assert (Hmax : ∀ e, e ∈ ds_event Demo.subjects → e ≤ 2).
  { simpl. intros e. rewrite !elem_of_cons, elem_of_nil. lia. }
  destruct (risk_nets_match_largest_event_code (H:=Demo.collaborators)
              (ds_event Demo.subjects) 2
              3 [4; 3]%nat [3]%nat 3 true 0.5%Q tt 0%nat Hin Hmax)
    as (Hnr & _ & (net & r' & Hinit & Hlen & _) & _); [lia|done|].
  assert (Hin0 : 0 ∈ ds_event Demo.censored_sheet).
  { simpl. rewrite !elem_of_cons. auto. }
  assert (Hmax0 : ∀ e, e ∈ ds_event Demo.censored_sheet → e ≤ 0).
  { simpl. intros e. rewrite !elem_of_cons, elem_of_nil. lia. }
  assert (Hzero : Forall (λ e, e = 0) (ds_event Demo.censored_sheet)).
  { simpl. repeat constructor. }
  destruct (risk_nets_match_largest_event_code (H:=Demo.collaborators)
              (ds_event Demo.censored_sheet) 0
              3 [4; 3]%nat [3]%nat 3 true 0.5%Q tt 0%nat Hin0 Hmax0)
    as (_ & _ & _ & Hcensored); [lia|done|].
  destruct (Hcensored Hzero cuts_transform_no_event Demo.small_config
              censored_globals 0%nat Demo.split0 censored_world Demo.X0 Demo.T0
              eq_refl eq_refl eq_refl eq_refl eq_refl
              (proj1 rows_in_range) (proj2 rows_in_range)
              holdout_members center_shape) as (h' & _ & Hfold).
  split; [done|]. split; [done|]. split; [by exists net, r'|].
  split; [done|]. by exists h'.
Defined.

(** The aggregator on the five scores of the example, at the default level
    (the quantile of the table is [6941 / 2500 = 2.7764]). *)
Lemma confidence_interval_student_t_witness :
  (2 <= length Demo.c_indexes)%nat
  ∧ (0 < Demo.sqrt6 (inject_Z (Z.of_nat (length Demo.c_indexes))))%Q
  ∧ ∃ lower upper,
      compute_confidence_interval (Finite <$> Demo.c_indexes) default_confidence tt
      = (Ok (Finite (foldl Qplus 0 Demo.c_indexes / inject_Z 5)%Q,
             Finite lower, Finite upper), tt)
      ∧ (foldl Qplus 0 Demo.c_indexes / inject_Z 5 - lower
         == upper - foldl Qplus 0 Demo.c_indexes / inject_Z 5)%Q.
Proof.
  assert (Hn : (2 <= length Demo.c_indexes)%nat) by (simpl; lia).
  assert (Hsqrt : (0 < Demo.sqrt6 (inject_Z (Z.of_nat (length Demo.c_indexes))))%Q)
    by reflexivity.
  split; [done|]. split; [done|].
  destruct (confidence_interval_student_t (H:=Demo.collaborators)
              Demo.c_indexes tt Hn Hsqrt) as (se & Hse & Hci & _).
  destruct (Hci default_confidence (6941 # 2500)%Q eq_refl)
    as (lower & upper & Hcall & Hlo & Hup).
  exists lower, upper. split; [exact Hcall|].
  simpl length in Hlo, Hup. simpl Z.of_nat in Hlo, Hup.
  rewrite Hlo, Hup. reflexivity.
Defined.

(** The 1 x 2 x 1 x 2 x 1 grid of [small_config]: four trials, each on a
    network of its own, and the first of the two best ones is retained. *)
Lemma grid_search_first_best_witness :
  ∃ r' i p sc log model,
    run_trials Demo.small_config Demo.tiny_globals Demo.tiny_fold
      (combinations (grid Demo.small_config)) 0%nat = (Ok Demo.tiny_trials, r')
    ∧ length Demo.tiny_trials = 4%nat
    ∧ Demo.tiny_trials !! i = Some (p, (sc, log, model))
    ∧ combinations (grid Demo.small_config) !! i = Some p
    ∧ (∃ net r0 r1 cif0,
         CauseSpecificNet_init 3 [4; 3]%nat [3]%nat 2 3 true (hp_dropout p) r0
         = (Ok net, r1)
         ∧ dh_alpha model = hp_alpha p
         ∧ Demo.cif model (X_val Demo.tiny_fold) !! 0%nat = Some cif0
         ∧ Demo.score (one_minus cif0) (duration_index model)
             (y_val Demo.tiny_fold).1 (is_event1 (y_val Demo.tiny_fold).2)
           = Some sc)
    ∧ select_best Demo.tiny_trials
      = {| best_val_c_index := sc; best_params := Some p;
           best_log := Some log; best_model := Some model |}
    ∧ (∀ pr, pr ∈ Demo.tiny_trials → fgtb (trial_score pr) sc = false)
    ∧ (∀ j pr, (j < i)%nat → Demo.tiny_trials !! j = Some pr →
               fgtb sc (trial_score pr) = true)
    ∧ grid_search Demo.small_config Demo.tiny_globals Demo.tiny_fold 0%nat
      = (Ok (select_best Demo.tiny_trials), r').
Proof.
  assert (Hrun : run_trials Demo.small_config Demo.tiny_globals Demo.tiny_fold
                   (combinations (grid Demo.small_config)) 0%nat
                 = (Ok Demo.tiny_trials, 16%nat)) by (vm_compute; reflexivity).
  destruct (grid_search_first_best (H:=Demo.collaborators) Demo.small_config
              Demo.tiny_globals Demo.tiny_fold 0%nat) as (_ & _ & _ & _ & Hspec).
  destruct (Hspec _ _ Hrun) as (_ & Hsearch & Htrials & Hbest).
  destruct Hbest as (i & p & sc & log & model & Hi & Hsel & Hmax & Hfirst).
  - discriminate.
  - intros pr Hpr. unfold Demo.tiny_trials in Hpr.
    repeat (apply elem_of_cons in Hpr as [->|Hpr]; [exact I|]).
    by apply elem_of_nil in Hpr.
  - destruct (Htrials i p sc log model Hi)
      as (Hp & net & r1 & cif0 & Hinit & _ & _ & Halpha & _ & _ & Hcif & _ & Hsc).
    exists 16%nat, i, p, sc, log, model.
    split; [done|]. split; [done|]. split; [done|]. split; [done|].
    split; [by eexists net, _, r1, cif0|].
    repeat split; done.
Defined.

(** The retained combination has the larger [alpha] and, of the two dropout
    rates that tie, the first. *)
Lemma grid_search_demo_choice :
  best_params (select_best Demo.tiny_trials)
  = Some {| hp_lr := 0.001; hp_alpha := 0.5; hp_sigma := 0.1;
            hp_dropout := 0.5; hp_batch_size := 128 |}.
Proof. vm_compute. reflexivity. Qed.

(** The first fold of [subjects]: the scaler is fitted on the inner-train
    rows and applied to the test rows, whose one-hot columns stay. *)
Lemma scaling_fitted_on_inner_train_witness :
  Demo.heap0 !! X_all Demo.tiny_globals = Some (A2 Demo.X0)
  ∧ length Demo.T0 = length Demo.X0
  ∧ prepare_fold Demo.small_config Demo.tiny_globals 0
      Demo.split0.1 Demo.split0.2 Demo.heap0 = (Ok subjects_fold, subjects_heap)
  ∧ ∃ sl,
      slices_of Demo.X0 Demo.T0 Demo.E0 Demo.split0.1 Demo.split0.2 0 sl
      ∧ fold_scaler subjects_fold = scaler_fit (drop 2 <$> inner_X sl)
      ∧ drop 2 <$> X_test subjects_fold
        = scaler_transform (fold_scaler subjects_fold) (drop 2 <$> test_X sl)
      ∧ take 2 <$> X_test subjects_fold = take 2 <$> test_X sl.
Proof.
  assert (Hprep : prepare_fold Demo.small_config Demo.tiny_globals 0
                    Demo.split0.1 Demo.split0.2 Demo.heap0
                  = (Ok subjects_fold, subjects_heap)) by reflexivity.
  split; [reflexivity|]. split; [reflexivity|]. split; [exact Hprep|].
  destruct (scaling_fitted_on_inner_train (H:=Demo.collaborators)
              Demo.small_config Demo.tiny_globals 0 Demo.split0.1 Demo.split0.2
              Demo.heap0 Demo.X0 Demo.T0 Demo.E0
              eq_refl eq_refl eq_refl eq_refl eq_refl
              (proj1 rows_in_range) (proj2 rows_in_range)
              holdout_members center_shape)
    as (sl & Hsl & _ & Hfacts).
  destruct (Hfacts _ _ Hprep) as (Hfit & _ & _ & Htest & _ & _ & Hohe).
  exists sl.
  split; [exact Hsl|]. split; [exact Hfit|].
  split; [exact Htest|exact Hohe].
Defined.

(** The first fold of [subjects]: the grid is fitted on the inner-train
    labels, the test durations are the raw ones. *)
Lemma grid_fitted_on_inner_train_witness :
  Demo.heap0 !! y_time Demo.tiny_globals = Some (A1f Demo.T0)
  ∧ Demo.heap0 !! y_event Demo.tiny_globals = Some (A1i Demo.E0)
  ∧ prepare_fold Demo.small_config Demo.tiny_globals 0
      Demo.split0.1 Demo.split0.2 Demo.heap0 = (Ok subjects_fold, subjects_heap)
  ∧ ∃ sl,
      slices_of Demo.X0 Demo.T0 Demo.E0 Demo.split0.1 Demo.split0.2 0 sl
      ∧ fold_labtrans subjects_fold = lt_fit 3 (inner_T sl) (inner_E sl)
      ∧ lt_transform (fold_labtrans subjects_fold) (val_T sl) (val_E sl)
        = Some (durations_val subjects_fold, events_val subjects_fold)
      ∧ durations_test_fold subjects_fold = test_T sl.
Proof.
  assert (Hprep : prepare_fold Demo.small_config Demo.tiny_globals 0
                    Demo.split0.1 Demo.split0.2 Demo.heap0
                  = (Ok subjects_fold, subjects_heap)) by reflexivity.
  split; [reflexivity|]. split; [reflexivity|]. split; [exact Hprep|].
  destruct (grid_fitted_on_inner_train (H:=Demo.collaborators)
              Demo.small_config Demo.tiny_globals 0 Demo.split0.1 Demo.split0.2
              Demo.heap0 Demo.X0 Demo.T0 Demo.E0
              eq_refl eq_refl eq_refl eq_refl eq_refl
              (proj1 rows_in_range) (proj2 rows_in_range)
              holdout_members center_shape)
    as (sl & Hsl & _ & Hfacts).
  destruct (Hfacts _ _ Hprep) as (Hfit & _ & Hval & _ & Htest & _).
  exists sl.
  split; [exact Hsl|]. split; [exact Hfit|].
  split; [exact Hval|exact Htest].
Defined.

(** The global arrays of [subjects] after one fold, and after two. *)
Lemma fold_leaves_existing_arrays_witness :
  w_heap Demo.world0 !! 2%nat = Some (A2 Demo.X0)
  ∧ w_heap (run_fold Demo.small_config Demo.tiny_globals 0 Demo.split0
              Demo.world0).2 !! 2%nat = Some (A2 Demo.X0)
  ∧ w_heap (run_folds Demo.small_config Demo.tiny_globals
              [Demo.split0; (Demo.split0.2, Demo.split0.1)]
              Demo.world0).2 !! 0%nat = Some (A1f Demo.T0).
Proof.
  destruct (fold_leaves_existing_arrays (H:=Demo.collaborators)
              Demo.small_config Demo.tiny_globals) as (Hfold & Hloop & _).
  split; [reflexivity|]. split.
  - apply Hfold. reflexivity.
  - apply Hloop. reflexivity.
Defined.





(** C10 fails as stated.  On [censored_sheet], where every subject is
    censored, no model with zero risk networks is built: the run raises a
    ValueError in its first fold, when the inner-train labels are
    discretized, with its generator untouched and nothing written. *)
Lemma all_censored_run_builds_no_network :
  compute_num_risks (ds_event Demo.censored_sheet) tt = (Ok 0, tt)
  ∧ main Demo.small_config Demo.censored_sheet (initial_world 0%nat)
    = (Raise ValueError, Demo.final_world_censored)
  ∧ w_rng Demo.final_world_censored = 0%nat
  ∧ written Demo.final_world_censored = []
  ∧ stdout Demo.final_world_censored = [Separator; TrainingFold 1 25; Separator].
Proof. repeat split; reflexivity. Qed.

(** [empty_grid_config] has no learning rate: the loop over two splits
    raises in the first. *)
Lemma empty_grid_aborts_in_first_fold_witness :
  combinations (grid Demo.empty_grid_config) = []
  ∧ ∃ e w',
      run_folds Demo.empty_grid_config Demo.tiny_globals
        [Demo.split0; (Demo.split0.2, Demo.split0.1)] Demo.world0 = (Raise e, w')
      ∧ stdout w' = [Separator; TrainingFold 1 25; Separator]
      ∧ written w' = [].
Proof.
  split; [reflexivity|].
  destruct (empty_grid_aborts_in_first_fold (H:=Demo.collaborators)
              Demo.empty_grid_config Demo.tiny_globals eq_refl) as (_ & _ & Hrun).
  destruct (Hrun Demo.split0 [(Demo.split0.2, Demo.split0.1)] Demo.world0)
    as (e & w' & Hfolds & _ & _ & Hout & Hwritten & _).
  exists e, w'. repeat split; done.
Defined.

(** C7 fails as stated.  With an empty candidate list the run does not stop
    before the folds: it enters the first fold, prints its banner, allocates
    and scales the fold's twelve arrays next to the three global ones, and
    only then raises a TypeError; no table is written. *)
Lemma empty_grid_run_enters_first_fold :
  (main Demo.empty_grid_config Demo.cohort (initial_world 0%nat)).1
  = Raise TypeError
  ∧ stdout (main Demo.empty_grid_config Demo.cohort (initial_world 0%nat)).2
    = [Separator; TrainingFold 1 25; Separator]
  ∧ length (w_heap (main Demo.empty_grid_config Demo.cohort
                      (initial_world 0%nat)).2) = 15%nat
  ∧ written (main Demo.empty_grid_config Demo.cohort (initial_world 0%nat)).2 = [].
Proof. repeat split; reflexivity. Qed.

Lemma kfold_count (X : matrix) (y : list Z) :
  length (Demo.kfold 2 1 123 X y) = (2 * 1)%nat.
Proof. reflexivity. Qed.

(** The run on [cohort] completes: two splits, two tables, each the table
    of its fold; the table of the first fold holds the times and the event
    codes of the rows 0, 2, 4 and 6. *)
Lemma prediction_tables_written_witness :
  main Demo.small_config Demo.cohort (initial_world 0%nat)
  = (Ok tt, Demo.final_world)
  ∧ length (written Demo.final_world) = 2%nat
  ∧ (written Demo.final_world).*1
    = ["deep_hit_predictions/fold_1_predictions.csv";
       "deep_hit_predictions/fold_2_predictions.csv"]
  ∧ NoDup (written Demo.final_world).*1
  ∧ (∃ g X w0,
       on_heap (setup Demo.cohort) (initial_world 0%nat) = (Ok g, w0)
       ∧ ∀ i sp,
           Demo.kfold 2 1 123 X (y_event1 g) !! i = Some sp →
           ∃ df,
             written Demo.final_world !! i = Some (csv_file i, df)
             ∧ fold_table Demo.small_config g i sp
                 (run_folds Demo.small_config g
                    (take i (Demo.kfold 2 1 123 X (y_event1 g))) w0).2 df)
  ∧ fold_table Demo.small_config Demo.tiny_globals 0 Demo.split0 cohort_world
      cohort_table
  ∧ written Demo.final_world !! 0%nat = Some (csv_file 0, cohort_table)
  ∧ df_rows cohort_table = 4%nat
  ∧ df_lookup cohort_table "time"
    = Some (FloatCol [Finite 3; Finite 7; Finite 9; Finite 7])
  ∧ df_lookup cohort_table "delta" = Some (IntCol [1; 1; 1; 1]).
Proof.
  assert (Hmain : main Demo.small_config Demo.cohort (initial_world 0%nat)
                  = (Ok tt, Demo.final_world)) by reflexivity.
  assert (Htable : fold_table Demo.small_config Demo.tiny_globals 0 Demo.split0
                     cohort_world cohort_table).
  { exists cohort_fold, cohort_heap, cohort_best, 16%nat, cohort_model, cohort_world.
    repeat split; reflexivity. }
  destruct (prediction_tables_written (H:=Demo.collaborators) Demo.small_config)
    as (_ & Hrows & _ & _ & Hrun & _).
  destruct (Hrun Demo.cohort 0%nat Demo.final_world kfold_count Hmain)
    as (Hlen & Hnames & Hnodup & g & X & w0 & Hsetup & _ & Htables).
  destruct (Hrows Demo.tiny_globals 0%nat Demo.split0 cohort_world cohort_table
              Demo.X0 Demo.T0 (ds_event Demo.cohort)
              eq_refl eq_refl eq_refl eq_refl eq_refl
              (proj1 rows_in_range) (proj2 rows_in_range)
              holdout_members center_shape Htable)
    as (times & events & Htimes & Hevents & Hn & Htime & Hdelta).
  injection Htimes as <-. injection Hevents as <-.
  split; [exact Hmain|]. split; [exact Hlen|].
  split; [rewrite Hnames; vm_compute; reflexivity|].
  split; [exact Hnodup|].
  split; [exists g, X, w0; split; [exact Hsetup|exact Htables]|].
  split; [exact Htable|]. split; [vm_compute; reflexivity|].
  split; [exact Hn|]. split; [exact Htime|exact Hdelta].
Defined.

(** C8 fails as stated: the tables have no column [event-code]; the event
    codes are in the column [delta]. *)
Lemma table_has_delta_not_event_code :
  (λ t, (t.1, df_lookup t.2 "event-code", df_lookup t.2 "delta"))
    <$> written Demo.final_world !! 0%nat
  = Some ("deep_hit_predictions/fold_1_predictions.csv", None,
          Some (IntCol [1; 1; 1; 1])).
Proof. vm_compute. reflexivity. Qed.

End Runs.

(** * Further properties

    Properties of the parts of the script the sections above leave out: the
    preprocessing, the forward pass, the aggregator on special values, the
    Brier step on a regular grid, the logs of a run, the search, the rows of
    a fold and the header of a table. *)

(** ** Preprocessing *)

Section SetupFacts.

Lemma np_clip_bounds (x : pyfloat) :
  np_clip (Finite 0) (Finite 114) x = NaN
  ∨ ∃ q, np_clip (Finite 0) (Finite 114) x = Finite q ∧ (0 <= q <= 114)%Q.
Proof.
  destruct x as [q| | |];
    [|right; exists 114%Q; by split|right; exists 0%Q; by split|by left].
  right. unfold np_clip.
  destruct (fgtb (Finite 0) (Finite q)) eqn:Hlo.
  - exists 0%Q. by split.
  - apply fgtb_Finite_false in Hlo.
    destruct (fgtb (Finite q) (Finite 114)) eqn:Hhi.
    + exists 114%Q. by split.
    + apply fgtb_Finite_false in Hhi. exists q. by split.
Qed.

Lemma np_clip_inside (q : Q) :
  (0 <= q <= 114)%Q → np_clip (Finite 0) (Finite 114) (Finite q) = Finite q.
Proof.
  intros [Hlo Hhi]. unfold np_clip.
  rewrite (proj2 (fgtb_Finite_false 0 q)) by done.
  by rewrite (proj2 (fgtb_Finite_false q 114)).
Qed.

Lemma setup_Ok_inv (ds : dataset) (h : heap) g h' :
  setup ds h = (Ok g, h') →
  ∃ nr,
    series_max (ds_event ds) = Some nr
    ∧ length (ds_cat_ohe ds) = length (ds_cont ds)
    ∧ h' = h ++ [A1f (np_clip (Finite 0) (Finite 114) <$> ds_time ds);
                 A1i (ds_event ds);
                 A2 (zip_with app (ds_cat_ohe ds) (ds_cont ds))]
    ∧ g = {| y_time := length h; y_event := S (length h);
             X_all := S (S (length h));
             cat_dim := ds_cat_width ds;
             in_features := (ds_cat_width ds + ds_cont_width ds)%nat;
             num_risks := nr;
             y_event1 := (λ e, if Z.eqb e 1 then 1 else 0) <$> ds_event ds |}.
Proof.
  unfold setup, alloc, compute_num_risks, np_hstack, bind, lift_option, ret, raise.
  destruct (series_max (ds_event ds)) as [nr|]; [|done].
  destruct (decide (length (ds_cat_ohe ds) = length (ds_cont ds))) as [Hlen|]; [|done].
  intros [= <- <-]. exists nr. rewrite !length_app. simpl.
  rewrite <- !app_assoc. simpl.
  repeat split; try done. f_equal; lia.
Qed.

(** X1: the preprocessing stores the observed times clipped to the horizon:
    every stored time is NaN or lies in [0, 114]; a time within the horizon is
    stored as it is and a later one as 114. *)
Theorem setup_clips_times (ds : dataset) (h : heap) g h' :
  setup ds h = (Ok g, h') →
  ∃ T,
    h' !! y_time g = Some (A1f T)
    ∧ length T = length (ds_time ds)
    ∧ Forall (λ t, t = NaN ∨ ∃ q, t = Finite q ∧ (0 <= q <= 114)%Q) T
    ∧ (∀ i q, ds_time ds !! i = Some (Finite q) → (0 <= q <= 114)%Q →
              T !! i = Some (Finite q))
    ∧ (∀ i q, ds_time ds !! i = Some (Finite q) → (114 < q)%Q →
              T !! i = Some (Finite 114)).
Proof.
  intros (nr & _ & _ & -> & ->)%setup_Ok_inv. simpl.
  eexists. split; [|split; [|split; [|split]]].
  - rewrite lookup_app_r by lia. by rewrite Nat.sub_diag.
  - by rewrite length_fmap.
  - apply Forall_fmap, Forall_forall. intros x _. apply np_clip_bounds.
  - intros i q Hi Hq. rewrite list_lookup_fmap, Hi.
    change (Some (np_clip (Finite 0) (Finite 114) (Finite q)) = Some (Finite q)).
    by rewrite np_clip_inside.
  - intros i q Hi Hq. rewrite list_lookup_fmap, Hi.
    change (Some (np_clip (Finite 0) (Finite 114) (Finite q)) = Some (Finite 114)).
    unfold np_clip.
    rewrite (proj2 (fgtb_Finite_false 0 q)) by lra.
    by rewrite (proj2 (fgtb_Finite_true q 114)).
Qed.


Lemma hstack_split (w : nat) (a b : matrix) :
  length a = length b → Forall (λ r, length r = w) a →
  take w <$> zip_with app a b = a ∧ drop w <$> zip_with app a b = b.
Proof.
  revert b. induction a as [|r a IH]; intros [|c b] Hlen Hw; try done.
  inversion Hw as [|? ? Hr Ha]; subst. injection Hlen as Hlen.
  destruct (IH b Hlen Ha) as [IH1 IH2].
  cbn [zip_with]. rewrite !fmap_cons, IH1, IH2.
  split; f_equal.
  - by rewrite take_app_length.
  - by rewrite drop_app_length.
Qed.

Lemma hstack_width (w1 w2 : nat) (a b : matrix) :
  Forall (λ r, length r = w1) a → Forall (λ r, length r = w2) b →
  Forall (λ r, length r = (w1 + w2)%nat) (zip_with app a b).
Proof.
  intros Ha. revert b. induction Ha as [|r a Hr Ha IH]; intros b Hb; [constructor|].
  destruct Hb as [|c b Hc Hb]; [constructor|].
  cbn [zip_with]. constructor; [|by apply IH].
  rewrite length_app. lia.
Qed.

(** X2: on a sheet with at least one row whose one-hot block is [cat_width]
    columns wide, the preprocessing completes and allocates three arrays, the
    clipped times, the event codes and the feature matrix.  Every row of the
    feature matrix is the one-hot row followed by the continuous row, so the
    columns from [cat_dim] on, the ones each fold scales, are exactly the
    continuous columns; [in_features] is the width of every row; and the
    stratification label is 1 for event code 1 and 0 for every other code,
    the competing event included. *)
Theorem setup_feature_matrix (ds : dataset) (h : heap) :
  ds_event ds ≠ [] →
  length (ds_cat_ohe ds) = length (ds_cont ds) →
  Forall (λ r, length r = ds_cat_width ds) (ds_cat_ohe ds) →
  ∃ g X,
    setup ds h
    = (Ok g, h ++ [A1f (np_clip (Finite 0) (Finite 114) <$> ds_time ds);
                   A1i (ds_event ds); A2 X])
    ∧ y_time g = length h ∧ y_event g = S (length h) ∧ X_all g = S (S (length h))
    ∧ cat_dim g = ds_cat_width ds
    ∧ length X = length (ds_cont ds)
    ∧ take (cat_dim g) <$> X = ds_cat_ohe ds
    ∧ drop (cat_dim g) <$> X = ds_cont ds
    ∧ (Forall (λ r, length r = ds_cont_width ds) (ds_cont ds) →
       Forall (λ r, length r = in_features g) X)
    ∧ length (y_event1 g) = length (ds_event ds)
    ∧ (∀ i e, ds_event ds !! i = Some e →
              y_event1 g !! i = Some (if decide (e = 1) then 1 else 0)).
Proof.
  intros Hev Hlen Hw.
  destruct (series_max (ds_event ds)) as [nr|] eqn:Hmax;
    [|by destruct (ds_event ds)].
  eexists _, (zip_with app (ds_cat_ohe ds) (ds_cont ds)).
  split.
  { unfold setup, alloc, compute_num_risks, np_hstack, bind, lift_option, ret.
    rewrite Hmax. rewrite decide_True by done. rewrite !length_app. simpl.
    rewrite <- !app_assoc. simpl. reflexivity. }
  simpl. destruct (hstack_split (ds_cat_width ds) _ _ Hlen Hw) as [Ht Hd].
  repeat split; try done; try lia.
  - rewrite length_zip_with. lia.
  - intros Hc. by apply hstack_width.
  - by rewrite length_fmap.
  - intros i e Hi. rewrite list_lookup_fmap, Hi. simpl. f_equal.
    destruct (Z.eqb_spec e 1); by destruct (decide (e = 1)).
Qed.

End SetupFacts.

Section SetupRun.
Context `{Collaborators}.

(** X3: on a sheet without rows the script stops with a ValueError at
    [int(df['event'].max())]: the two label arrays exist by then, the feature
    matrix does not, no fold is entered, nothing is printed and no table is
    written. *)
Theorem empty_sheet_stops_before_folds (c : config) (ds : dataset) (w : world) :
  ds_event ds = [] →
  main c ds w
  = (Raise ValueError,
     {| w_heap := w_heap w ++ [A1f (np_clip (Finite 0) (Finite 114) <$> ds_time ds);
                               A1i []];
        w_rng := w_rng w; stdout := stdout w; written := written w;
        fold_c_indexes := fold_c_indexes w; fold_ibss := fold_ibss w |}).
Proof.
  intros Hev. unfold main, on_heap, zoom, setup, alloc, compute_num_risks, bind,
    lift_option, ret, raise.
  rewrite Hev. simpl. by rewrite <- app_assoc.
Qed.

End SetupRun.

(** ** The forward pass *)

Section ForwardFacts.
Context `{Collaborators}.
Variable mlp_apply : mlp → matrix → outcome matrix.

(** The list comprehension over the risk networks: the outputs in order,
    when every network returns. *)
Lemma risk_outputs {S} (nets : list mlp) (hidden : matrix) (acc : list matrix)
    (s : S) :
  (∀ n, n ∈ nets → ∃ o, mlp_apply n hidden = Ok o) →
  ∃ outs,
    for_in nets (λ net acc, let* o := call mlp_apply net hidden in ret (acc ++ [o]))
      acc s = (Ok (acc ++ outs), s)
    ∧ Forall2 (λ n o, mlp_apply n hidden = Ok o) nets outs.
Proof.
  revert acc. induction nets as [|n nets IH]; intros acc Hall; simpl.
  - exists []. by rewrite app_nil_r.
  - destruct (Hall n) as [o Ho]; [by left|].
    destruct (IH (acc ++ [o])) as (outs & Hloop & Houts).
    { intros n' Hn'. apply Hall. by right. }
    exists (o :: outs). split; [|by constructor].
    erewrite bind_ok by (unfold bind, call, ret; rewrite Ho; reflexivity).
    rewrite Hloop. by rewrite <- app_assoc.
Qed.

(** X4: a network built for no risk (the number of risks is zero or
    negative) has no risk network, and its forward pass never returns: it
    raises what the shared network raises on the input, and otherwise a
    RuntimeError, [torch.stack] being given an empty list. *)
Theorem forward_without_risks {S} in_feat shared indiv n_risks out bn dropout r
    net r' (input : matrix) (s : S) :
  CauseSpecificNet_init in_feat shared indiv n_risks out bn dropout r = (Ok net, r') →
  n_risks ≤ 0 →
  risk_nets net = []
  ∧ (∀ hidden,
       mlp_apply (shared_net net) input = Ok hidden →
       forward mlp_apply net input s = (Raise RuntimeError, s))
  ∧ (∀ e,
       mlp_apply (shared_net net) input = Raise e →
       forward mlp_apply net input s = (Raise e, s))
  ∧ ∀ t s', forward mlp_apply net input s ≠ (Ok t, s').
Proof.
  intros [_ Hlen]%init_Ok_inv Hn.
  assert (Hnil : risk_nets net = []).
  { apply nil_length_inv. lia. }
  split; [done|].
  unfold forward, bind, call. rewrite Hnil. simpl.
  split; [|split].
  - by intros hidden ->.
  - by intros e ->.
  - intros t s'. by destruct (mlp_apply (shared_net net) input).
Qed.

Lemma stack_rows {S} (ts : list matrix) (n o : nat) (s : S) :
  ts ≠ [] → Forall (λ t, shape t = replicate n o) ts →
  ∃ out,
    torch_stack_dim1 ts s = (Ok out, s)
    ∧ length out = n
    ∧ Forall (λ rows, shape rows = replicate (length ts) o) out
    ∧ ∀ b k t, ts !! k = Some t → (b < n)%nat →
               out !! b ≫= (λ rows, rows !! k) = t !! b.
Proof.
  intros Hne Hshape. destruct ts as [|t ts]; [done|]. clear Hne.
  unfold torch_stack_dim1.
  inversion Hshape as [|? ? Ht Hts]; subst.
  assert (Hlen : ∀ t', t' ∈ t :: ts → length t' = n).
  { intros t' Hin. rewrite Forall_forall in Hshape. apply Hshape in Hin.
    apply (f_equal length) in Hin. unfold shape in Hin.
    by rewrite length_fmap, length_replicate in Hin. }
  rewrite bool_decide_true.
  2:{ eapply Forall_impl; [exact Hts|]. intros t' Ht'. simpl in Ht'. congruence. }
  eexists. split; [reflexivity|].
  rewrite (Hlen t) by left.
  split; [by rewrite length_fmap, length_seq|]. split.
  - apply Forall_fmap, Forall_forall. intros b Hb%elem_of_seq. unfold compose, shape.
    rewrite <- list_fmap_compose.
    apply list_eq. intros k. rewrite list_lookup_fmap.
    destruct ((t :: ts) !! k) as [t'|] eqn:Hk.
    + pose proof (lookup_lt_Some _ _ _ Hk) as Hlt.
      rewrite lookup_replicate_2 by done. simpl. f_equal.
      pose proof Hk as Hin%list_elem_of_lookup_2.
      rewrite Forall_forall in Hshape. pose proof (Hshape _ Hin) as Hs.
      destruct (lookup_lt_is_Some_2 t' b) as [row Hrow]; [rewrite Hlen by done; lia|].
      rewrite Hrow. simpl.
      apply (f_equal (λ l, l !! b)) in Hs. unfold shape in Hs.
      rewrite list_lookup_fmap, Hrow, lookup_replicate_2 in Hs by lia.
      by injection Hs.
    + rewrite (proj1 (lookup_replicate_None (length (t :: ts)) o k)); [done|].
      by apply lookup_ge_None in Hk.
  - intros b k t' Hk Hb.
    rewrite list_lookup_fmap, lookup_seq_lt by done.
    cbn [fmap option_fmap option_map mbind option_bind].
    rewrite list_lookup_fmap, Hk. simpl.
    pose proof Hk as Hin%list_elem_of_lookup_2.
    destruct (lookup_lt_is_Some_2 t' b) as [row Hrow]; [rewrite Hlen by done; lia|].
    by rewrite Hrow.
Qed.

(** X5: for a network with at least one risk network, whose shared network
    returns one row per input row and whose risk networks return, from that
    output, one row of [out] values per row, the forward pass returns a
    tensor of shape [batch, num_risks, out]: one entry per input row, holding
    for every risk network, in order, the row that network computes from the
    shared network's output. *)
Theorem forward_stacks_risks {S} in_feat shared indiv n_risks out bn dropout r
    net r' (input hidden : matrix) (s : S) :
  CauseSpecificNet_init in_feat shared indiv n_risks out bn dropout r = (Ok net, r') →
  0 < n_risks →
  mlp_apply (shared_net net) input = Ok hidden →
  length hidden = length input →
  (∀ n, n ∈ risk_nets net →
        ∃ o, mlp_apply n hidden = Ok o ∧ shape o = replicate (length hidden) out) →
  ∃ t,
    forward mlp_apply net input s = (Ok t, s)
    ∧ length t = length input
    ∧ Forall (λ rows, shape rows = replicate (Z.to_nat n_risks) out) t
    ∧ ∀ b k n o, risk_nets net !! k = Some n → mlp_apply n hidden = Ok o →
                 (b < length input)%nat →
                 t !! b ≫= (λ rows, rows !! k) = o !! b.
Proof.
  intros [_ Hlen]%init_Ok_inv Hn Hshared Hrows Hrisk. unfold forward.
  erewrite bind_ok by (unfold call; rewrite Hshared; reflexivity).
  destruct (risk_outputs (risk_nets net) hidden [] s) as (outs & Hloop & Houts).
  { intros n Hin. destruct (Hrisk n Hin) as (o & Ho & _). by exists o. }
  erewrite bind_ok by exact Hloop. simpl.
  pose proof (Forall2_length _ _ _ Houts) as Hlen2.
  destruct (stack_rows outs (length input) out s) as (t & Ht & Hlt & Hshape & Hcell).
  - intros ->. simpl in Hlen2. lia.
  - apply Forall_forall. intros o Ho.
    apply list_elem_of_lookup_1 in Ho as [k Hk].
    destruct (Forall2_lookup_r _ _ _ _ _ Houts Hk) as (n & Hn' & Happ).
    destruct (Hrisk n (list_elem_of_lookup_2 _ _ _ Hn')) as (o' & Ho' & Hs).
    rewrite Happ in Ho'. injection Ho' as <-. by rewrite <- Hrows.
  - exists t. rewrite <- Hlen2, Hlen in Hshape.
    split; [done|]. split; [done|]. split; [done|].
    intros b k n o Hk Ho Hb.
    destruct (Forall2_lookup_l _ _ _ _ _ Houts Hk) as (o' & Ho' & Happ).
    rewrite Happ in Ho. injection Ho as <-. by apply Hcell.
Qed.

End ForwardFacts.

(** ** The aggregator on special values *)

Section AggregatorEdge.
Context `{Collaborators}.

Lemma foldl_fadd_NaN (l : list pyfloat) : foldl fadd NaN l = NaN.
Proof. by induction l. Qed.

Lemma fsum_NaN_acc (a : pyfloat) (l : list pyfloat) :
  NaN ∈ l → foldl fadd a l = NaN.
Proof.
  revert a. induction l as [|x l IH]; intros a Hin; [by apply elem_of_nil in Hin|].
  apply elem_of_cons in Hin as [<-|Hin]; simpl.
  - rewrite fadd_NaN_r. apply foldl_fadd_NaN.
  - by apply IH.
Qed.

(** X6: one NaN among the values makes the mean and both bounds NaN,
    whatever the other values, the confidence level and the quantile are: a
    single fold whose score is NaN turns the whole summary line into NaN. *)
Theorem nan_score_poisons_interval {S} (data : list pyfloat) (confidence : pyfloat)
    (s : S) :
  NaN ∈ data →
  compute_confidence_interval data confidence s = (Ok (NaN, NaN, NaN), s).
Proof.
  intros Hin. unfold compute_confidence_interval, ret, np_mean, fsum.
  by rewrite fsum_NaN_acc.
Qed.

Lemma stats_sem_nonneg (qs : list Q) :
  (2 <= length qs)%nat →
  (0 < sqrt_pos (inject_Z (Z.of_nat (length qs))))%Q →
  (∀ q, (0 <= q)%Q → (0 <= sqrt_pos q)%Q) →
  ∃ se, stats_sem (Finite <$> qs) = Finite se ∧ (0 <= se)%Q.
Proof.
  intros Hn Hsqrt Hpos. unfold stats_sem, np_var.
  rewrite np_mean_Finite by lia. rewrite length_fmap.
  set (m := (foldl Qplus 0 qs / inject_Z (Z.of_nat (length qs)))%Q).
  rewrite <- list_fmap_compose.
  assert (Hdev : (λ x, fmul (fsub x (Finite m)) (fsub x (Finite m))) ∘ Finite
                 = Finite ∘ (λ x, (x + - m) * (x + - m))%Q) by reflexivity.
  rewrite Hdev, list_fmap_compose, fsum_Finite.
  set (ss := foldl Qplus 0%Q _).
  assert (Hss : (0 <= ss)%Q).
  { apply Qsum_nonneg_acc; [apply Qle_refl|apply Qsquares_nonneg]. }
  assert (Hd : (0 < inject_Z (Z.max (Z.of_nat (length qs) - 1) 0))%Q).
  { change 0%Q with (inject_Z 0). rewrite <- Zlt_Qlt. lia. }
  unfold of_Z. rewrite fdiv_Finite_pos by done.
  set (v := (ss / inject_Z (Z.max (Z.of_nat (length qs) - 1) 0))%Q).
  assert (Hv : (0 <= v)%Q).
  { apply Qle_shift_div_l; [done|]. by rewrite Qmult_0_l. }
  assert (Hse : (0 <= sqrt_pos v / sqrt_pos (inject_Z (Z.of_nat (length qs))))%Q).
  { apply Qle_shift_div_l; [done|]. rewrite Qmult_0_l. by apply Hpos. }
  unfold fsqrt, of_nat, of_Z.
  destruct (Qcompare_spec v 0) as [Heq|Hlt|Hgt].
  - rewrite Qcompare_pos by (by apply inject_nat_pos; lia).
    rewrite fdiv_Finite_pos by done. eauto.
  - exfalso. by apply (Qlt_not_le _ _ Hlt).
  - rewrite Qcompare_pos by (by apply inject_nat_pos; lia).
    rewrite fdiv_Finite_pos by done. eauto.
Qed.

(** X7: for [n >= 2] numbers the bounds enclose the mean when the quantile
    is not negative, as at every level from one half on; at a level whose
    quantile is negative (a confidence below zero) the two bounds come out
    swapped, the returned lower bound above the mean and the upper one below
    it. *)
Theorem confidence_bounds_follow_quantile_sign {S} (qs : list Q)
    (confidence : pyfloat) (tq : Q) (s : S) :
  (2 <= length qs)%nat →
  (0 < sqrt_pos (inject_Z (Z.of_nat (length qs))))%Q →
  (∀ q, (0 <= q)%Q → (0 <= sqrt_pos q)%Q) →
  t_ppf (ci_level confidence) (Z.of_nat (length qs) - 1) = Finite tq →
  ∃ se mean lower upper,
    stats_sem (Finite <$> qs) = Finite se
    ∧ compute_confidence_interval (Finite <$> qs) confidence s
      = (Ok (Finite mean, Finite lower, Finite upper), s)
    ∧ ((0 <= tq)%Q → (lower <= mean)%Q ∧ (mean <= upper)%Q)
    ∧ ((tq < 0)%Q → (0 < se)%Q → (upper < mean)%Q ∧ (mean < lower)%Q).
Proof.
  intros Hn Hsqrt Hpos Htq.
  destruct (stats_sem_nonneg qs Hn Hsqrt Hpos) as (se & Hse & Hse0).
  eexists se, _, _, _. split; [done|]. split.
  { unfold compute_confidence_interval, ret.
    rewrite Hse, np_mean_Finite by lia. rewrite length_fmap.
    fold (ci_level confidence). rewrite Htq. reflexivity. }
  split.
  - intros Ht. assert (0 <= se * tq)%Q by (by apply Qmult_le_0_compat).
    split; lra.
  - intros Ht Hse1.
    assert (0 < se * - tq)%Q by (apply Qmult_lt_0_compat; [done|lra]).
    split; lra.
Qed.

End AggregatorEdge.

(** ** The integrated Brier score on a grid of two or more times *)

Section BrierFacts.
Context `{Collaborators}.

Lemma mask_select_fmap {A B} (f : A → B) (a : list A) (mask : list bool) :
  mask_select (f <$> a) mask = f <$> mask_select a mask.
Proof.
  revert mask. induction a as [|x a IH]; intros [|b mask]; try done.
  rewrite fmap_cons. cbn [mask_select]. destruct b; [|apply IH].
  by rewrite fmap_cons, IH.
Qed.

Lemma sort_leb_Finite (x y : Q) :
  sort_leb (Finite x) (Finite y) = true ↔ (x <= y)%Q.
Proof.
  unfold sort_leb. rewrite negb_true_iff. apply fgtb_Finite_false.
Qed.

Lemma sort_insert_finite (x : Q) (l : list Q) :
  ascending Qle l →
  ∃ l', sort_insert (Finite x) (Finite <$> l) = Finite <$> l'
        ∧ ascending Qle l'
        ∧ ∀ z, head l' = Some z → z = x ∨ head l = Some z.
Proof.
  induction l as [|y l IH]; intros Hl.
  - exists [x]. repeat split; try done. intros z [= <-]. by left.
  - rewrite fmap_cons. cbn [sort_insert].
    destruct (sort_leb (Finite x) (Finite y)) eqn:Hxy.
    + apply sort_leb_Finite in Hxy. exists (x :: y :: l).
      repeat split; try done. intros z [= <-]. by left.
    + assert (Hyx : (y < x)%Q).
      { apply Qnot_le_lt. intros Hle%sort_leb_Finite. congruence. }
      assert (Hl' : ascending Qle l) by (destruct l; [done|apply Hl]).
      destruct (IH Hl') as (l' & -> & Hasc & Hhead).
      exists (y :: l'). split; [done|]. split.
      * destruct l' as [|z l']; [done|]. split; [|done].
        destruct (Hhead z eq_refl) as [->|Hz]; [by apply Qlt_le_weak|].
        destruct l as [|z' l]; [done|]. injection Hz as ->. apply Hl.
      * intros z [= <-]. by right.
Qed.

Lemma np_sort_finite (qs : list Q) :
  ∃ l, np_sort (Finite <$> qs) = Finite <$> l ∧ ascending Qle l.
Proof.
  induction qs as [|q qs (l & IH & Hl)]; [by exists []|].
  unfold np_sort in *. rewrite fmap_cons. cbn [foldr]. rewrite IH.
  destruct (sort_insert_finite q l Hl) as (l' & -> & Hl' & _). by exists l'.
Qed.

Lemma dedup_sorted_finite (l : list Q) :
  ascending Qle l →
  ∃ us, dedup_sorted (Finite <$> l) = Finite <$> us
        ∧ ascending Qlt us
        ∧ ∀ y, head l = Some y → ∃ z, head us = Some z ∧ (z == y)%Q.
Proof.
  induction l as [|x l IH]; intros Hl; [by exists []|].
  destruct l as [|y l].
  - exists [x]. repeat split; try done. intros z [= <-]. by exists x.
  - destruct Hl as [Hxy Hl]. destruct (IH Hl) as (us & Hus & Hasc & Hhead).
    destruct (Hhead y eq_refl) as (z & Hz & Hzy).
    rewrite !fmap_cons in *. cbn [dedup_sorted]. cbn [dedup_sorted] in Hus.
    destruct (same_value (Finite x) (Finite y)) eqn:Hsame.
    + exists us. split; [exact Hus|]. split; [done|].
      intros x' [= <-]. exists z. split; [done|].
      apply Qeq_bool_iff in Hsame. by rewrite Hzy, Hsame.
    + exists (x :: us). split; [by rewrite Hus|]. split.
      * destruct us as [|z' us]; [done|]. injection Hz as ->.
        split; [|done]. rewrite Hzy.
        apply Qle_lt_or_eq in Hxy as [Hlt|Heq]; [done|].
        apply Qeq_bool_iff in Heq. simpl in Hsame. congruence.
      * intros x' [= <-]. by exists x.
Qed.

(** [np.unique] of numbers is a strictly increasing list of numbers. *)
Lemma np_unique_finite (qs : list Q) :
  ∃ us, np_unique (Finite <$> qs) = Finite <$> us ∧ ascending Qlt us.
Proof.
  unfold np_unique. destruct (np_sort_finite qs) as (l & -> & Hl).
  destruct (dedup_sorted_finite l Hl) as (us & -> & Hus & _). by exists us.
Qed.

Lemma zip_with_Finite (f : pyfloat → pyfloat → pyfloat) (g : Q → Q → Q)
    (a b : list Q) :
  (∀ x y, f (Finite x) (Finite y) = Finite (g x y)) →
  zip_with f (Finite <$> a) (Finite <$> b) = Finite <$> zip_with g a b.
Proof.
  intros Hfg. revert b. induction a as [|x a IH]; intros [|y b]; try done.
  rewrite !fmap_cons. cbn [zip_with]. by rewrite fmap_cons, Hfg, IH.
Qed.

(** On numbers, one ordinate per abscissa, [np.trapz] returns the sum of the
    trapezoids. *)
Lemma np_trapz_Finite {S} (bs us : list Q) (s : S) :
  length bs = length us →
  np_trapz (Finite <$> bs) (Finite <$> us) s
  = (Ok (Finite (foldl Qplus 0%Q (trapezoids bs us))), s).
Proof.
  intros Hlen. unfold np_trapz, np_diff, broadcast2.
  rewrite <- !fmap_drop, <- !fmap_take, !length_fmap.
  rewrite decide_True by (rewrite length_drop, length_take; lia).
  unfold bind at 1. unfold ret at 1.
  rewrite (zip_with_Finite _ (λ a b, b + - a)%Q) by done.
  rewrite (zip_with_Finite _ Qplus) by done.
  rewrite !length_fmap.
  rewrite decide_True
    by (rewrite !length_zip_with, !length_drop, length_take; lia).
  unfold bind, ret.
  rewrite (zip_with_Finite _ Qmult) by done.
  rewrite <- list_fmap_compose.
  assert (Hhalf : (λ v, fdiv v (Finite 2)) ∘ Finite = Finite ∘ (λ v, v / 2)%Q)
    by reflexivity.
  by rewrite Hhalf, list_fmap_compose, fsum_Finite.
Qed.

Lemma trapezoids_cons (b0 b1 u0 u1 : Q) (bs us : list Q) :
  trapezoids (b0 :: b1 :: bs) (u0 :: u1 :: us)
  = ((u1 + - u0) * (b1 + b0) / 2)%Q :: trapezoids (b1 :: bs) (u1 :: us).
Proof.
  unfold trapezoids. simpl. rewrite ?Nat.sub_0_r. reflexivity.
Qed.

Lemma foldl_Qplus_bounds (lo hi : Q) (us bs : list Q) (acc u0 ul : Q) :
  ascending Qlt us → length bs = length us →
  Forall (λ b, (lo <= b)%Q ∧ (b <= hi)%Q) bs →
  head us = Some u0 → last us = Some ul →
  (u0 <= ul)%Q
  ∧ (acc + lo * (ul - u0) <= foldl Qplus acc (trapezoids bs us))%Q
  ∧ (foldl Qplus acc (trapezoids bs us) <= acc + hi * (ul - u0))%Q.
Proof.
  revert bs acc u0. induction us as [|u us IH]; intros bs acc u0 Hasc Hlen Hbs Hu0 Hul;
    [done|].
  injection Hu0 as ->.
  destruct us as [|u1 us].
  - injection Hul as ->. destruct bs as [|b [|b' bs]]; try done.
    unfold trapezoids. simpl. split; [lra|]. split; lra.
  - destruct bs as [|b0 [|b1 bs]]; try done.
    destruct Hasc as [Hlt Hasc].
    inversion Hbs as [|? ? [Hb0l Hb0h] Hbs']; subst.
    pose proof Hbs' as Hbs''.
    inversion Hbs'' as [|? ? [Hb1l Hb1h] _]; subst.
    rewrite trapezoids_cons. cbn [foldl].
    rewrite last_cons_cons in Hul.
    destruct (IH (b1 :: bs) (acc + (u1 + - u0) * (b1 + b0) / 2)%Q u1 Hasc)
      as (Hle & Hlo & Hhi); [simpl in *; lia|done|done|done|].
    split; [lra|].
    assert (0 <= (u1 - u0) * (b0 - lo))%Q by (apply Qmult_le_0_compat; lra).
    assert (0 <= (u1 - u0) * (b1 - lo))%Q by (apply Qmult_le_0_compat; lra).
    assert (0 <= (u1 - u0) * (hi - b0))%Q by (apply Qmult_le_0_compat; lra).
    assert (0 <= (u1 - u0) * (hi - b1))%Q by (apply Qmult_le_0_compat; lra).
    set (t := ((u1 + - u0) * (b1 + b0) / 2)%Q) in *.
    assert (Ht : (t == (1 # 2) * ((u1 - u0) * (b0 - lo) + (u1 - u0) * (b1 - lo))
                       + lo * (u1 - u0))%Q) by (unfold t; field).
    assert (Ht' : (t == hi * (u1 - u0)
                        - (1 # 2) * ((u1 - u0) * (hi - b0) + (u1 - u0) * (hi - b1)))%Q)
      by (unfold t; field).
    clearbody t.
    set (p1 := ((u1 - u0) * (b0 - lo))%Q) in *.
    set (p2 := ((u1 - u0) * (b1 - lo))%Q) in *.
    set (p3 := ((u1 - u0) * (hi - b0))%Q) in *.
    set (p4 := ((u1 - u0) * (hi - b1))%Q) in *.
    clearbody p1 p2 p3 p4.
    set (r := foldl Qplus (acc + t)%Q (trapezoids (b1 :: bs) (u1 :: us))) in *.
    clearbody r.
    split; nra.
Qed.

Lemma ascending_ends (us : list Q) (u0 ul : Q) :
  ascending Qlt us → (2 <= length us)%nat →
  head us = Some u0 → last us = Some ul → (u0 < ul)%Q.
Proof.
  revert u0. induction us as [|u us IH]; intros u0 Hasc Hlen Hu0 Hul; [done|].
  injection Hu0 as ->. destruct us as [|u1 us]; [simpl in Hlen; lia|].
  destruct Hasc as [Hlt Hasc]. rewrite last_cons_cons in Hul.
  destruct us as [|u2 us].
  - by injection Hul as <-.
  - apply Qlt_trans with u1; [done|]. apply IH; try done. simpl. lia.
Qed.

(** The mean height of the trapezoids lies between the bounds of the
    ordinates. *)
Lemma trapezoid_mean_bounds (lo hi : Q) (us bs : list Q) (u0 ul : Q) :
  ascending Qlt us → length bs = length us →
  Forall (λ b, (lo <= b)%Q ∧ (b <= hi)%Q) bs →
  head us = Some u0 → last us = Some ul → (u0 < ul)%Q →
  (lo <= foldl Qplus 0 (trapezoids bs us) / (ul + - u0))%Q
  ∧ (foldl Qplus 0 (trapezoids bs us) / (ul + - u0) <= hi)%Q.
Proof.
  intros Hasc Hlen Hbs Hu0 Hul Hpos.
  destruct (foldl_Qplus_bounds lo hi us bs 0 u0 ul Hasc Hlen Hbs Hu0 Hul)
    as (_ & Hlo & Hhi).
  split.
  - apply Qle_shift_div_l; lra.
  - apply Qle_shift_div_r; lra.
Qed.

(** The Brier step on a grid of two or more times: the sum of the
    trapezoids divided by the positive length of the grid's range. *)
Lemma ibs_step_on_grid (k : nat) (surv : matrix) (index : list pyfloat)
    (ts : list Q) (ev : list bool) (bs : list Q) (w : world) :
  let durations := Finite <$> ts in
  let time_grid := np_unique (mask_select durations ev) in
  (2 <= length time_grid)%nat →
  brier_score surv index durations ev time_grid = Finite <$> bs →
  length bs = length time_grid →
  ∃ (us : list Q) u0 ul,
    time_grid = Finite <$> us ∧ ascending Qlt us ∧ length bs = length us
    ∧ head us = Some u0 ∧ last us = Some ul ∧ (u0 < ul)%Q
    ∧ let ibs := Finite (foldl Qplus 0 (trapezoids bs us) / (ul + - u0))%Q in
      ibs_step k surv index durations ev w
      = (Ok tt, {| w_heap := w_heap w; w_rng := w_rng w;
                   stdout := stdout w ++ [TestIBS (k + 1) ibs];
                   written := written w;
                   fold_c_indexes := fold_c_indexes w;
                   fold_ibss := fold_ibss w ++ [ibs] |}).
Proof.
  intros durations time_grid. subst durations time_grid.
  rewrite mask_select_fmap.
  destruct (np_unique_finite (mask_select ts ev)) as (us & Hus & Hasc).
  unfold ibs_step. rewrite mask_select_fmap, Hus, length_fmap.
  intros Hn Hbrier Hlen. rewrite Hbrier.
  destruct us as [|u0 us']; [simpl in Hn; lia|].
  destruct (last (u0 :: us')) as [ul|] eqn:Hul; [|by apply last_None in Hul].
  set (us := u0 :: us') in *.
  pose proof (ascending_ends us u0 ul Hasc Hn eq_refl Hul) as Hpos.
  exists us, u0, ul. do 6 (split; [done|]).
  erewrite bind_ok by (by apply np_trapz_Finite).
  erewrite bind_ok
    by (unfold getitem_last; rewrite fmap_last, Hul; reflexivity).
  erewrite bind_ok by reflexivity.
  change (fsub (Finite ul) (Finite u0)) with (Finite (ul + - u0)).
  rewrite fdiv_Finite_pos by lra. reflexivity.
Qed.

(** X8: when the durations of the test fold are numbers, its event-1
    subjects have at least two distinct times and the Brier scores, one per
    grid time, are numbers between [lo] and [hi], the Brier step completes:
    it divides by a positive range, appends a number between [lo] and [hi]
    to [fold_ibss] and prints it.  (With scores in [0, 1] the IBS is in
    [0, 1]; a constant score is returned unchanged.) *)
Theorem ibs_within_score_range (k : nat) (surv : matrix) (index : list pyfloat)
    (ts : list Q) (ev : list bool) (bs : list Q) (lo hi : Q) (w : world) :
  let durations := Finite <$> ts in
  let time_grid := np_unique (mask_select durations ev) in
  (2 <= length time_grid)%nat →
  brier_score surv index durations ev time_grid = Finite <$> bs →
  length bs = length time_grid →
  Forall (λ b, (lo <= b)%Q ∧ (b <= hi)%Q) bs →
  ∃ v,
    ibs_step k surv index durations ev w
    = (Ok tt, {| w_heap := w_heap w; w_rng := w_rng w;
                 stdout := stdout w ++ [TestIBS (k + 1) (Finite v)];
                 written := written w;
                 fold_c_indexes := fold_c_indexes w;
                 fold_ibss := fold_ibss w ++ [Finite v] |})
    ∧ (lo <= v)%Q ∧ (v <= hi)%Q.
Proof.
  intros durations time_grid Hn Hbrier Hlen Hbs.
  destruct (ibs_step_on_grid k surv index ts ev bs w Hn Hbrier Hlen)
    as (us & u0 & ul & Hgrid & Hasc & Hlen' & Hu0 & Hul & Hpos & Hstep).
  exists (foldl Qplus 0 (trapezoids bs us) / (ul + - u0))%Q.
  split; [exact Hstep|].
  by apply trapezoid_mean_bounds.
Qed.

End BrierFacts.

(** ** The time grid of the Brier step *)

Section TimeGrid.

Lemma elem_of_mask_select {A} (a : list A) (mask : list bool) (x : A) :
  x ∈ mask_select a mask ↔ ∃ i, a !! i = Some x ∧ mask !! i = Some true.
Proof.
  revert mask. induction a as [|y a IH]; intros [|b mask]; simpl.
  - rewrite elem_of_nil. split; [done|]. by intros (i & Hi & _).
  - rewrite elem_of_nil. split; [done|]. by intros (i & Hi & _).
  - rewrite elem_of_nil. split; [done|]. by intros (i & _ & Hi).
  - destruct b.
    + rewrite elem_of_cons, IH. split.
      * intros [->|(i & Ha & Hm)]; [by exists 0%nat|by exists (S i)].
      * intros ([|i] & Ha & Hm); simpl in *; [left; congruence|right; eauto].
    + rewrite IH. split.
      * intros (i & Ha & Hm). by exists (S i).
      * intros ([|i] & Ha & Hm); simpl in *; [done|eauto].
Qed.

Lemma sort_insert_perm (x : pyfloat) (l : list pyfloat) :
  sort_insert x l ≡ₚ x :: l.
Proof.
  induction l as [|y l IH]; simpl; [done|].
  destruct (sort_leb x y); [done|]. rewrite IH. apply Permutation_swap.
Qed.

Lemma np_sort_perm (l : list pyfloat) : np_sort l ≡ₚ l.
Proof.
  unfold np_sort. induction l as [|x l IH]; simpl; [done|].
  by rewrite sort_insert_perm, IH.
Qed.

Lemma dedup_sorted_sub (l : list pyfloat) (x : pyfloat) :
  x ∈ dedup_sorted l → x ∈ l.
Proof.
  induction l as [|y l IH]; [done|].
  destruct l as [|z l]; [done|].
  cbn [dedup_sorted]. destruct (same_value y z).
  - intros Hin%IH. by right.
  - intros [->|Hin%IH]%elem_of_cons; [by left|by right].
Qed.

Lemma same_value_Finite (a b : Q) :
  same_value (Finite a) (Finite b) = true ↔ (a == b)%Q.
Proof. simpl. apply Qeq_bool_iff. Qed.

(** A run of equal numbers keeps one representative. *)
Lemma dedup_sorted_represents (l : list Q) (q : Q) :
  q ∈ l → ∃ u, Finite u ∈ dedup_sorted (Finite <$> l) ∧ (u == q)%Q.
Proof.
  revert q. induction l as [|y l IH]; intros q; [by intros ?%elem_of_nil|].
  destruct l as [|z l].
  - intros ->%list_elem_of_singleton. exists y. split; [by left|done].
  - rewrite !fmap_cons in *. cbn [dedup_sorted].
    destruct (same_value (Finite y) (Finite z)) eqn:Hyz.
    + apply same_value_Finite in Hyz.
      intros [->|Hin]%elem_of_cons; [|by apply IH].
      destruct (IH z) as (u & Hu & Huz); [by left|].
      exists u. split; [done|]. by rewrite Huz, Hyz.
    + intros [->|Hin]%elem_of_cons.
      * exists y. split; [by left|done].
      * destruct (IH q Hin) as (u & Hu & Huq). exists u. split; [by right|done].
Qed.

(** X9: for durations that are numbers, the time grid of the Brier step
    is strictly increasing and consists of the times of the test subjects
    with event code 1 and of nothing else: every grid time is the time of
    such a subject, and every such time is on the grid (once, however often
    it occurs); times of censored subjects and of competing events are not
    used.  Two event-1 subjects with different times make the grid at least
    two points long. *)
Theorem time_grid_is_event1_times (ts : list Q) (events : list Z) :
  let time_grid := np_unique (mask_select (Finite <$> ts) (is_event1 events)) in
  ∃ us,
    time_grid = Finite <$> us
    ∧ ascending Qlt us
    ∧ (∀ u, u ∈ us → ∃ i, ts !! i = Some u ∧ events !! i = Some 1)
    ∧ (∀ i t, ts !! i = Some t → events !! i = Some 1 →
              ∃ u, u ∈ us ∧ (u == t)%Q)
    ∧ (∀ i j t t', ts !! i = Some t → events !! i = Some 1 →
                   ts !! j = Some t' → events !! j = Some 1 →
                   ¬ (t == t')%Q → (2 <= length time_grid)%nat).
Proof.
  intros time_grid. subst time_grid. rewrite mask_select_fmap.
  set (sel := mask_select ts (is_event1 events)).
  assert (Hsel : ∀ q, q ∈ sel ↔ ∃ i, ts !! i = Some q ∧ events !! i = Some 1).
  { intros q. unfold sel. rewrite elem_of_mask_select. unfold is_event1.
    split; intros (i & Hq & He); exists i; (split; [done|]).
    - rewrite list_lookup_fmap in He.
      destruct (events !! i) as [e|]; [|done]. simpl in He.
      injection He as He. apply Z.eqb_eq in He. by subst.
    - by rewrite list_lookup_fmap, He. }
  destruct (np_unique_finite sel) as (us & Hus & Hasc).
  exists us. split; [done|]. split; [done|].
  assert (Hrep : ∀ q, q ∈ sel → ∃ u, u ∈ us ∧ (u == q)%Q).
  { intros q Hq.
    destruct (np_sort_finite sel) as (l & Hl & _).
    assert (Hql : q ∈ l).
    { apply (list_elem_of_fmap_2 Finite) in Hq.
      rewrite <- (np_sort_perm (Finite <$> sel)), Hl in Hq.
      apply list_elem_of_fmap in Hq as (q' & [= ->] & Hq'). done. }
    destruct (dedup_sorted_represents l q Hql) as (u & Hu & Huq).
    exists u. split; [|done].
    unfold np_unique in Hus. rewrite Hl in Hus. rewrite Hus in Hu.
    apply list_elem_of_fmap in Hu as (u' & [= ->] & Hu'). done. }
  split; [|split].
  - intros u Hu. apply Hsel.
    apply (list_elem_of_fmap_2 Finite) in Hu. rewrite <- Hus in Hu.
    unfold np_unique in Hu. apply dedup_sorted_sub in Hu.
    rewrite np_sort_perm in Hu.
    apply list_elem_of_fmap in Hu as (q & [= ->] & Hq). done.
  - intros i t Ht He. apply Hrep, Hsel. eauto.
  - intros i j t t' Ht He Ht' He' Hne.
    destruct (Hrep t) as (u & Hu & Hut); [apply Hsel; eauto|].
    destruct (Hrep t') as (u' & Hu' & Hut'); [apply Hsel; eauto|].
    rewrite Hus, length_fmap.
    destruct us as [|a [|b us]]; simpl; [by apply elem_of_nil in Hu| |lia].
    apply list_elem_of_singleton in Hu, Hu'. subst.
    exfalso. apply Hne. by rewrite <- Hut, <- Hut'.
Qed.

End TimeGrid.

(** ** What a run records and prints, whatever its outcome *)

Section ProgressFacts.
Context `{Collaborators}.

Ltac unfold_fold_body :=
  unfold run_fold, print, to_csv, append_c_index, on_heap, on_rng, zoom, modify,
    bind, lift_option, ret, raise, getitem, make_frame; simpl.

Ltac fold_body_step :=
  match goal with
  | |- context [prepare_fold ?c ?g ?k ?a ?b ?h] =>
      destruct (prepare_fold c g k a b h) as [[?fd|?e] ?h1] eqn:?Hprepare
  | |- context [grid_search ?c ?g ?fd ?r] =>
      destruct (grid_search c g fd r) as [[?best|?e] ?r1] eqn:?Hsearch
  | |- context [best_params ?b] =>
      destruct (best_params b) as [?p|] eqn:?Hparams
  | |- context [best_model ?b] =>
      destruct (best_model b) as [?model|] eqn:?Hmodel
  | |- context [build_table ?a ?b ?c ?d ?x ?s] =>
      let Hs := fresh "Hs" in
      pose proof (stateless_build_table a b c d x s) as Hs;
      destruct (build_table a b c d x s) as [[?df|?e] ?s1] eqn:?Htable;
      simpl in Hs; subst
  | |- context [predict_cif ?m ?x !! 0%nat] =>
      destruct (predict_cif m x !! 0%nat) as [?cif0|] eqn:?Hcif0
  | |- context [decide (length ?a = length ?b)] =>
      destruct (decide (length a = length b)) as [?Hlen|?Hlen]
  | |- context [concordance_td ?a ?b ?c ?d] =>
      destruct (concordance_td a b c d) as [?c_index|] eqn:?Hconcordance
  | |- context [ibs_step ?k ?a ?b ?c ?d ?w] =>
      let Hi := fresh "Hibs" in
      destruct (ibs_step_cases k a b c d w) as [[?e Hi]|[?v Hi]]; rewrite Hi
  end; simpl in *.

Ltac appended :=
  first [reflexivity | exact (eq_sym (app_nil_r _))
        | rewrite <- ?app_assoc; reflexivity].

(** What one pass through the loop body adds to the four logs. *)
Lemma run_fold_progress c g k sp w :
  ∃ lines tables cs ibs,
    stdout (run_fold c g k sp w).2 = stdout w ++ lines
    ∧ written (run_fold c g k sp w).2 = written w ++ tables
    ∧ fold_c_indexes (run_fold c g k sp w).2 = fold_c_indexes w ++ cs
    ∧ fold_ibss (run_fold c g k sp w).2 = fold_ibss w ++ ibs
    ∧ Forall (λ l, is_summary_line l = false) lines
    ∧ (length ibs <= length cs)%nat ∧ (length cs <= length tables)%nat
    ∧ (length tables <= 1)%nat
    ∧ ((run_fold c g k sp w).1 = Ok tt ↔ length ibs = 1%nat).
Proof.
  unfold_fold_body.
  repeat (fold_body_step; try done);
    (eexists _, _, _, _;
     split; [appended|]; split; [appended|]; split; [appended|]; split; [appended|];
     split; [repeat constructor|]; simpl; repeat split; try lia; try done).
Qed.


Lemma run_folds_progress c g (splits : list (list nat * list nat)) (i : nat) w :
  let r := for_in (zip (seq i (length splits)) splits)
             (λ fs _, run_fold c g fs.1 fs.2) tt w in
  ∃ lines tables cs ibs,
    stdout r.2 = stdout w ++ lines
    ∧ written r.2 = written w ++ tables
    ∧ fold_c_indexes r.2 = fold_c_indexes w ++ cs
    ∧ fold_ibss r.2 = fold_ibss w ++ ibs
    ∧ Forall (λ l, is_summary_line l = false) lines
    ∧ (length ibs <= length cs)%nat ∧ (length cs <= length tables)%nat
    ∧ (length tables <= length ibs + 1)%nat
    ∧ (length tables <= length splits)%nat
    ∧ (r.1 = Ok tt → length ibs = length splits)
    ∧ (∀ e, r.1 = Raise e → (length ibs < length splits)%nat).
Proof.
  revert i w. induction splits as [|sp splits IH]; intros i w; simpl.
  - exists [], [], [], []. rewrite !app_nil_r. simpl. repeat split; try done; try lia.
  - destruct (run_fold_progress c g i sp w)
      as (l1 & t1 & c1 & b1 & Hl1 & Ht1 & Hc1 & Hb1 & Hs1 & Hbc & Hct & Ht & Hok).
    unfold bind.
    destruct (run_fold c g i sp w) as [[[]|e] w1] eqn:Hfold; simpl in *.
    + destruct (IH (S i) w1)
        as (l2 & t2 & c2 & b2 & Hl2 & Ht2 & Hc2 & Hb2 & Hs2 & Hbc2 & Hct2 & Ht2'
            & Hn2 & Hok2 & Hraise2).
      simpl in *. pose proof (proj1 Hok eq_refl) as Hone.
      exists (l1 ++ l2), (t1 ++ t2), (c1 ++ c2), (b1 ++ b2).
      rewrite Hl2, Ht2, Hc2, Hb2, Hl1, Ht1, Hc1, Hb1, <- !app_assoc, !length_app.
      repeat split; try done; try lia.
      * by apply Forall_app.
      * intros Hr. specialize (Hok2 Hr). lia.
      * intros e Hr. specialize (Hraise2 e Hr). lia.
    + exists l1, t1, c1, b1. repeat split; try done; try lia.
      * intros e' _. destruct (decide (length b1 = 1%nat)) as [Hb|Hb]; [|lia].
        by apply Hok in Hb.
Qed.

(** X10: whatever way the loop over the splits ends, it has appended to
    [fold_ibss] no more values than to [fold_c_indexes], to [fold_c_indexes]
    no more than it has written tables, and at most one table more than
    Brier scores: the fold that raised may have left a table, and a
    concordance, without its Brier score.  It writes at most one table per
    split; it has appended one Brier score per split exactly when it
    completes. *)
Theorem metric_lists_grow_together c g (splits : list (list nat * list nat)) w :
  ∃ tables cs ibs,
    written (run_folds c g splits w).2 = written w ++ tables
    ∧ fold_c_indexes (run_folds c g splits w).2 = fold_c_indexes w ++ cs
    ∧ fold_ibss (run_folds c g splits w).2 = fold_ibss w ++ ibs
    ∧ (length ibs <= length cs)%nat ∧ (length cs <= length tables)%nat
    ∧ (length tables <= length ibs + 1)%nat
    ∧ (length tables <= length splits)%nat
    ∧ ((run_folds c g splits w).1 = Ok tt ↔ length ibs = length splits).
Proof.
  destruct (run_folds_progress c g splits 0 w)
    as (l & t & cs & b & _ & Ht & Hc & Hb & _ & ? & ? & ? & ? & Hok & Hraise).
  exists t, cs, b. unfold run_folds, enumerate.
  repeat split; try done.
  destruct (for_in _ _ tt w) as [[[]|e] w1]; [done|].
  intros Hlen. specialize (Hraise e eq_refl). simpl in *. lia.
Qed.

Lemma on_heap_logs {A} (m : M heap A) (w : world) :
  stdout (on_heap m w).2 = stdout w
  ∧ fold_c_indexes (on_heap m w).2 = fold_c_indexes w
  ∧ fold_ibss (on_heap m w).2 = fold_ibss w.
Proof. unfold on_heap, zoom. by destruct (m (w_heap w)). Qed.

(** X11: the summary is printed exactly when every fold completed.  A run
    that raises has printed nothing but lines of the fold loop; a run that
    completes has printed the lines of the folds and then the header, the
    C-index line, the IBS line and the closing separator, the two lines
    holding what the aggregator returns on the final [fold_c_indexes] and
    [fold_ibss] at confidence 0.95. *)
Theorem summary_after_all_folds (c : config) (ds : dataset) (w : world) :
  ∃ fold_lines,
    Forall (λ l, is_summary_line l = false) fold_lines
    ∧ match main c ds w with
      | (Raise _, w') => stdout w' = stdout w ++ fold_lines
      | (Ok _, w') =>
          ∃ cm cl cu bm bl bu,
            stdout w'
            = stdout w ++ fold_lines
              ++ [SummaryHeader; SummaryCIndex cm cl cu; SummaryIBS bm bl bu; Separator]
            ∧ compute_confidence_interval (fold_c_indexes w') default_confidence tt
              = (Ok (cm, cl, cu), tt)
            ∧ compute_confidence_interval (fold_ibss w') default_confidence tt
              = (Ok (bm, bl, bu), tt)
      end.
Proof.
  unfold main. unfold bind at 1.
  destruct (on_heap_logs (setup ds) w) as (Hs1 & _).
  destruct (on_heap (setup ds) w) as [[g|e] w1]; simpl in Hs1;
    [|exists []; split; [done|]; by rewrite app_nil_r].
  unfold bind at 1.
  destruct (on_heap_logs (read_matrix (X_all g)) w1) as (Hs2 & _).
  destruct (on_heap (read_matrix (X_all g)) w1) as [[X|e] w2]; simpl in Hs2;
    [|exists []; split; [done|]; rewrite app_nil_r; congruence].
  set (splits := rskf_split _ _ _ _ _).
  destruct (run_folds_progress c g splits 0 w2)
    as (lines & _ & _ & _ & Hl & _ & _ & _ & Hsum & _).
  simpl in Hl. exists lines. split; [done|].
  unfold bind at 1. unfold run_folds, enumerate.
  destruct (for_in _ _ tt w2) as [[[]|e] w3]; simpl in Hl;
    [|congruence].
  unfold bind, gets, compute_confidence_interval, ret, print, modify. simpl.
  eexists _, _, _, _, _, _. split; [|split; reflexivity].
  rewrite Hl, Hs2, Hs1, <- !app_assoc. reflexivity.
Qed.

End ProgressFacts.

(** ** What the grid search retains *)

Section SearchFacts.
Context `{Collaborators}.

Lemma for_in_invariant_in {S A B} (P : B → Prop) (l : list A) (f : A → B → M S B)
    acc s acc' s' :
  P acc →
  (∀ x a s a' s', x ∈ l → P a → f x a s = (Ok a', s') → P a') →
  for_in l f acc s = (Ok acc', s') → P acc'.
Proof.
  intros Hacc Hstep. revert acc s Hacc.
  induction l as [|x l IH]; intros acc s Hacc; simpl.
  - by intros [= <- <-].
  - intros (a & s1 & Hf & Hrest)%bind_Ok_inv.
    eapply IH; [| |exact Hrest].
    + intros y b s2 b' s2' Hy. apply Hstep. by right.
    + eapply Hstep; [by left|exact Hacc|exact Hf].
Qed.

Lemma fgtb_above_NegInf (x y : pyfloat) :
  fgtb x y = true → fgtb x NegInf = true.
Proof. by destruct x, y. Qed.

(** X12: what a search that completes holds is consistent.  Either nothing
    was retained (no parameters, no model, no log, and the score still
    [-inf]), or the parameters are a combination of the grid, the model was
    built with their learning rate, [alpha] and [sigma], and the retained
    score is that model's own validation concordance for event 1, a value
    above [-inf] and not NaN. *)
Theorem search_result_consistent c g fd r best r' :
  grid_search c g fd r = (Ok best, r') →
  best = search_init
  ∨ ∃ p model log cif0,
      best_params best = Some p ∧ best_model best = Some model
      ∧ best_log best = Some log
      ∧ p ∈ combinations (grid c)
      ∧ dh_lr model = hp_lr p ∧ dh_alpha model = hp_alpha p
      ∧ dh_sigma model = hp_sigma p
      ∧ predict_cif model (X_val fd) !! 0%nat = Some cif0
      ∧ concordance_td (one_minus cif0) (duration_index model)
          (y_val fd).1 (is_event1 (y_val fd).2)
        = Some (best_val_c_index best)
      ∧ fgtb (best_val_c_index best) NegInf = true.
Proof.
  rewrite grid_search_flat. intros Hsearch.
  eapply (for_in_invariant_in
            (λ best, best = search_init
               ∨ ∃ p model log cif0,
                   best_params best = Some p ∧ best_model best = Some model
                   ∧ best_log best = Some log
                   ∧ p ∈ combinations (grid c)
                   ∧ dh_lr model = hp_lr p ∧ dh_alpha model = hp_alpha p
                   ∧ dh_sigma model = hp_sigma p
                   ∧ predict_cif model (X_val fd) !! 0%nat = Some cif0
                   ∧ concordance_td (one_minus cif0) (duration_index model)
                       (y_val fd).1 (is_event1 (y_val fd).2)
                     = Some (best_val_c_index best)
                   ∧ fgtb (best_val_c_index best) NegInf = true));
    [by left| |exact Hsearch].
  intros p best0 s best1 s1 Hp Hbest0 (x & s2 & Htrial & [= <- <-])%bind_Ok_inv.
  destruct x as [[sc log] m]. unfold keep_best.
  destruct (fgtb sc (best_val_c_index best0)) eqn:Hgt; [|exact Hbest0].
  right. apply trial_Ok_inv in Htrial
    as (net & r1 & cif0 & _ & _ & Hlr & Ha & Hs & _ & Hcif & _ & Hsc).
  exists p, m, log, cif0. simpl. repeat split; try done.
  by eapply fgtb_above_NegInf.
Qed.

Ltac unfold_fold_body :=
  unfold run_fold, print, to_csv, append_c_index, on_heap, on_rng, zoom, modify,
    bind, lift_option, ret, raise, getitem, make_frame; simpl.

(** X13: a validation score that is NaN (or [-inf]) is never retained.  In
    a fold where every trial that completes has such a score, the search
    retains nothing although the grid is not empty, and the fold raises when
    it reports the best parameters (a TypeError when the search itself
    completed), after its banner and before any table or metric. *)
Theorem unscored_fold_raises c g k sp w :
  (∀ fd h1 p r sc log m r',
      prepare_fold c g k sp.1 sp.2 (w_heap w) = (Ok fd, h1) →
      trial c g fd p r = (Ok (sc, log, m), r') → fgtb sc NegInf = false) →
  ∃ e w',
    run_fold c g k sp w = (Raise e, w')
    ∧ stdout w' = stdout w ++ [Separator; TrainingFold (k + 1) 25; Separator]
    ∧ written w' = written w
    ∧ fold_c_indexes w' = fold_c_indexes w
    ∧ fold_ibss w' = fold_ibss w
    ∧ (∀ fd h1 best r1,
         prepare_fold c g k sp.1 sp.2 (w_heap w) = (Ok fd, h1) →
         grid_search c g fd (w_rng w) = (Ok best, r1) →
         best = search_init ∧ e = TypeError).
Proof.
  intros Hscore. unfold_fold_body.
  destruct (prepare_fold c g k sp.1 sp.2 (w_heap w)) as [[fd|e] h1] eqn:Hprep;
    simpl.
  2:{ eexists _, _. split; [reflexivity|]. simpl. rewrite <- !app_assoc.
      do 4 (split; [done|]). by intros fd h0 best r1 [=]. }
  destruct (grid_search c g fd (w_rng w)) as [[best|e] r1] eqn:Hsearch; simpl.
  2:{ eexists _, _. split; [reflexivity|]. simpl. rewrite <- !app_assoc.
      do 4 (split; [done|]). intros fd' h0 best r1' [= <- <-] Hbest.
      rewrite Hsearch in Hbest. discriminate. }
  assert (Hinit : best = search_init).
  { revert Hsearch. rewrite grid_search_flat.
    intros Hsearch.
    eapply (for_in_invariant (λ best, best = search_init)); [done| |exact Hsearch].
    intros p best0 s best1 s1 -> (x & s2 & Htrial & [= <- <-])%bind_Ok_inv.
    destruct x as [[sc log] m]. unfold keep_best. simpl.
    by rewrite (Hscore _ _ _ _ _ _ _ _ eq_refl Htrial). }
  subst best. simpl.
  eexists _, _. split; [reflexivity|]. simpl. rewrite <- !app_assoc.
  do 4 (split; [done|]). intros fd' h0 best r1' [= <- <-] Hbest.
  rewrite Hsearch in Hbest. by injection Hbest as <- <-.
Qed.

End SearchFacts.

(** ** The rows of a fold *)

Section FoldRows.
Context `{Collaborators}.

Lemma take_idx_lookup {A} (a : list A) (idx : list nat) (a' : list A) (j : nat) (x : A) :
  take_idx a idx = Some a' → a' !! j = Some x →
  ∃ i, idx !! j = Some i ∧ a !! i = Some x.
Proof.
  unfold take_idx. intros Hmap%mapM_Some Hj.
  destruct (Forall2_lookup_r _ _ _ _ _ Hmap Hj) as (i & Hi & Hx). by exists i.
Qed.

(** Indexing a selection selects: [a[idx1][idx2]] is [a[idx1[idx2]]]. *)
Lemma take_idx_compose {A} (a : list A) (idx1 idx2 : list nat) (a1 a2 : list A) :
  take_idx a idx1 = Some a1 → take_idx a1 idx2 = Some a2 →
  ∃ idx, take_idx idx1 idx2 = Some idx ∧ take_idx a idx = Some a2.
Proof.
  intros H1. revert a2. induction idx2 as [|j idx2 IH]; intros a2 H2.
  - injection H2 as <-. by exists [].
  - unfold take_idx in H2. simpl in H2.
    destruct (a1 !! j) as [x|] eqn:Hx; [|done]. simpl in H2.
    destruct (mapM (λ i, a1 !! i) idx2) as [a2'|] eqn:Hrest; [|done].
    injection H2 as <-.
    destruct (IH a2' Hrest) as (idx & Hidx & Ha).
    destruct (take_idx_lookup a idx1 a1 j x H1 Hx) as (i & Hi & Hai).
    exists (i :: idx). unfold take_idx in *.
    simpl. by rewrite Hi, Hidx, Hai, Ha.
Qed.

Lemma take_idx_elem_of {A} (a : list A) (idx : list nat) (a' : list A) (x : A) :
  take_idx a idx = Some a' → x ∈ a' → ∃ i, i ∈ idx ∧ a !! i = Some x.
Proof.
  intros Htake (j & Hj)%list_elem_of_lookup_1.
  destruct (take_idx_lookup a idx a' j x Htake Hj) as (i & Hi & Hx).
  exists i. split; [by eapply list_elem_of_lookup_2|done].
Qed.

Lemma take_idx_length {A} (a : list A) (idx : list nat) (a' : list A) :
  take_idx a idx = Some a' → length a' = length idx.
Proof. intros Hmap. symmetry. by eapply length_mapM. Qed.

Lemma scaled_shape (sc : scaler) (c : nat) (m : matrix) :
  (∀ sc m, shape (scaler_transform sc m) = shape m) →
  shape (scaled sc c m) = shape m.
Proof.
  intros Hshape. unfold scaled.
  specialize (Hshape sc (drop c <$> m)). revert Hshape.
  generalize (scaler_transform sc (drop c <$> m)). intros v.
  unfold shape, replace_cols. revert v.
  induction m as [|r m IH]; intros [|n v] Hv; try done.
  rewrite !fmap_cons in Hv. injection Hv as Hn Hv.
  cbn [zip_with]. rewrite !fmap_cons, (IH v Hv). f_equal.
  rewrite length_app, length_take, Hn, length_drop. lia.
Qed.

Lemma take_idx_widths {A} (a : list (list A)) (idx : list nat) a' (w : nat) :
  take_idx a idx = Some a' → Forall (λ r, length r = w) a →
  Forall (λ r, length r = w) a'.
Proof.
  intros Htake Hw. apply Forall_forall. intros r Hr.
  destruct (take_idx_elem_of a idx a' r Htake Hr) as (i & _ & Hi).
  rewrite Forall_forall in Hw. apply Hw. by eapply list_elem_of_lookup_2.
Qed.

Lemma shape_widths (m m' : matrix) (w : nat) :
  shape m' = shape m → Forall (λ r, length r = w) m → Forall (λ r, length r = w) m'.
Proof.
  unfold shape. intros Hs Hm. apply Forall_lookup. intros i r Hr.
  apply (f_equal (λ l, l !! i)) in Hs. rewrite !list_lookup_fmap, Hr in Hs.
  destruct (m !! i) as [r0|] eqn:Hr0; [|done]. injection Hs as ->.
  by eapply (Forall_lookup_1 _ _ _ _ Hm).
Qed.

Section Valid.
Variables (c : config) (g : globals) (k : nat) (train_idx test_idx : list nat).
Variables (h : heap) (X : matrix) (T : list pyfloat) (E : list Z).
Hypothesis HX : h !! X_all g = Some (A2 X).
Hypothesis HT : h !! y_time g = Some (A1f T).
Hypothesis HE : h !! y_event g = Some (A1i E).
Hypothesis HlT : length T = length X.
Hypothesis HlE : length E = length X.
Hypothesis Htrain : Forall (λ i, (i < length X)%nat) train_idx.
Hypothesis Htest : Forall (λ i, (i < length X)%nat) test_idx.
Hypothesis Hsplit : ∀ idx ts st seed,
  Forall (λ i, i ∈ idx) (train_test_split idx ts st seed).1
  ∧ Forall (λ i, i ∈ idx) (train_test_split idx ts st seed).2.
Hypothesis Hshape : ∀ sc m, shape (scaler_transform sc m) = shape m.

(** On valid indices the preparation returns, or raises the ValueError of the
    label transform. *)
Lemma prepare_fold_valid_outcome :
  (∃ fd h', prepare_fold c g k train_idx test_idx h = (Ok fd, h'))
  ∨ ∃ h', prepare_fold c g k train_idx test_idx h = (Raise ValueError, h').
Proof.
  destruct (prepare_fold_valid c g k train_idx test_idx h X T E)
    as (sl & _ & Hprep); try done.
  simpl in Hprep. rewrite Hprep.
  destruct (lt_transform _ (inner_T sl) _) as [train|]; [|by eauto].
  destruct (lt_transform _ (val_T sl) _) as [val|]; by eauto.
Qed.

(** X14: on valid indices, when the outer training indices are distinct
    and miss the test indices and the inner split returns two disjoint parts
    of the index array it is given, the three row sets of a fold come from
    disjoint rows of the global arrays: the rows the scaler is fitted on and
    the model is trained on ([X_train]) are the global rows [fit_idx], the
    validation rows and labels the global rows [sel_idx], the test labels
    the global rows [test_idx]; [fit_idx] and [sel_idx] lie within the outer
    training indices, share no index, and neither contains a test index.
    The preparation returns such a fold unless the label transform raises
    its ValueError. *)
Theorem fold_rows_from_disjoint_indices :
  NoDup train_idx →
  (∀ i, i ∈ train_idx → i ∉ test_idx) →
  (∀ idx ts st seed i,
      i ∈ (train_test_split idx ts st seed).1 →
      i ∉ (train_test_split idx ts st seed).2) →
  ∃ fit_idx sel_idx Xfit Xsel,
    take_idx X fit_idx = Some Xfit
    ∧ take_idx X sel_idx = Some Xsel
    ∧ (∀ i, i ∈ fit_idx → i ∈ train_idx ∧ (i ∉ sel_idx) ∧ (i ∉ test_idx))
    ∧ (∀ i, i ∈ sel_idx → i ∈ train_idx ∧ (i ∉ test_idx))
    ∧ ((∃ fd h', prepare_fold c g k train_idx test_idx h = (Ok fd, h'))
       ∨ ∃ h', prepare_fold c g k train_idx test_idx h = (Raise ValueError, h'))
    ∧ ∀ fd h',
        prepare_fold c g k train_idx test_idx h = (Ok fd, h') →
        X_train fd = scaled (fold_scaler fd) (cat_dim g) Xfit
        ∧ fold_scaler fd = scaler_fit (drop (cat_dim g) <$> Xfit)
        ∧ X_val fd = scaled (fold_scaler fd) (cat_dim g) Xsel
        ∧ take_idx T sel_idx = Some ((y_val fd).1)
        ∧ take_idx E sel_idx = Some ((y_val fd).2)
        ∧ take_idx T test_idx = Some (durations_test_fold fd)
        ∧ take_idx E test_idx = Some (events_test_fold fd).
Proof.
  intros Hnodup Hdisj Hinner.
  destruct (prepare_fold_valid c g k train_idx test_idx h X T E)
    as (sl & Hsl & Hprep); try done.
  destruct Hsl as (HoX & HtX & HoT & HoE & HtT & HtE & Htts & HiX & HvX & HiT & HiE
                   & HvT & HvE).
  destruct (take_idx_compose X _ _ _ _ HoX HiX) as (fit_idx & Hfit & HXfit).
  destruct (take_idx_compose X _ _ _ _ HoX HvX) as (sel_idx & Hsel & HXsel).
  destruct (take_idx_compose T _ _ _ _ HoT HvT) as (sel_idx' & Hsel' & HTsel).
  destruct (take_idx_compose E _ _ _ _ HoE HvE) as (sel_idx'' & Hsel'' & HEsel).
  rewrite Hsel in Hsel', Hsel''. injection Hsel' as <-. injection Hsel'' as <-.
  exists fit_idx, sel_idx, (inner_X sl), (val_X sl).
  split; [done|]. split; [done|].
  assert (Hfit_in : ∀ i, i ∈ fit_idx → ∃ a, a ∈ inner_idx sl ∧ train_idx !! a = Some i).
  { intros i Hi. by eapply take_idx_elem_of. }
  assert (Hsel_in : ∀ i, i ∈ sel_idx → ∃ a, a ∈ val_idx sl ∧ train_idx !! a = Some i).
  { intros i Hi. by eapply take_idx_elem_of. }
  split; [|split; [|split; [exact prepare_fold_valid_outcome|]]].
  - intros i (a & Ha & Hai)%Hfit_in.
    pose proof (list_elem_of_lookup_2 _ _ _ Hai) as Hin.
    split; [done|]. split; [|by apply Hdisj].
    intros (b & Hb & Hbi)%Hsel_in.
    assert (a = b) as -> by (by eapply NoDup_lookup).
    eapply (Hinner _ _ _ _ b); by rewrite Htts.
  - intros i (a & Ha & Hai)%Hsel_in.
    pose proof (list_elem_of_lookup_2 _ _ _ Hai) as Hin.
    split; [done|by apply Hdisj].
  - intros fd h' Hfd. simpl in Hprep. rewrite Hprep in Hfd.
    destruct (lt_transform _ (inner_T sl) _) as [train|]; [|done].
    destruct (lt_transform _ (val_T sl) _) as [val|]; [|done].
    injection Hfd as <- <-. simpl. by repeat split.
Qed.

(** X15: on valid indices the arrays of a fold are row-aligned and keep
    the width of the feature matrix: the test matrix, the test durations and
    the test events have one entry per test index, the validation labels one
    per validation row, every row of the three feature matrices is as wide
    as a row of [X_all], and the frame of the prediction table is built, with
    one row per test index.  The preparation returns such a fold unless the
    label transform raises its ValueError. *)
Theorem fold_arrays_row_aligned (S : Type) (s : S) (w : nat) :
  Forall (λ r, length r = w) X →
  ((∃ fd h', prepare_fold c g k train_idx test_idx h = (Ok fd, h'))
   ∨ ∃ h', prepare_fold c g k train_idx test_idx h = (Raise ValueError, h'))
  ∧ ∀ fd h',
      prepare_fold c g k train_idx test_idx h = (Ok fd, h') →
      length (X_test fd) = length test_idx
      ∧ length (durations_test_fold fd) = length test_idx
      ∧ length (events_test_fold fd) = length test_idx
      ∧ length (y_val fd).1 = length (X_val fd)
      ∧ length (y_val fd).2 = length (X_val fd)
      ∧ Forall (λ r, length r = w) (X_train fd)
      ∧ Forall (λ r, length r = w) (X_val fd)
      ∧ Forall (λ r, length r = w) (X_test fd)
      ∧ new_table (durations_test_fold fd) (events_test_fold fd) s
        = (Ok {| df_rows := length test_idx;
                 df_columns := [("time", FloatCol (durations_test_fold fd));
                                ("delta", IntCol (events_test_fold fd))] |}, s).
Proof.
  intros Hw. split; [exact prepare_fold_valid_outcome|].
  intros fd h' Hfd.
  destruct (prepare_fold_valid c g k train_idx test_idx h X T E)
    as (sl & Hsl & Hprep); try done.
  destruct Hsl as (HoX & HtX & HoT & HoE & HtT & HtE & Htts & HiX & HvX & HiT & HiE
                   & HvT & HvE).
  simpl in Hprep. rewrite Hprep in Hfd.
  destruct (lt_transform _ (inner_T sl) _) as [train|]; [|done].
  destruct (lt_transform _ (val_T sl) _) as [val|]; [|done].
  injection Hfd as <- <-. simpl.
  assert (Hlen : ∀ m sc, length (scaled sc (cat_dim g) m) = length m).
  { intros m sc. pose proof (scaled_shape sc (cat_dim g) m Hshape) as Hs.
    apply (f_equal length) in Hs. unfold shape in Hs.
    by rewrite !length_fmap in Hs. }
  assert (Hwid : ∀ m idx m' sc, take_idx m idx = Some m' →
                   Forall (λ r, length r = w) m →
                   Forall (λ r, length r = w) (scaled sc (cat_dim g) m')).
  { intros m idx m' sc Htake Hm. eapply shape_widths; [by apply scaled_shape|].
    by eapply take_idx_widths. }
  pose proof (take_idx_widths _ _ _ w HoX Hw) as Hwo.
  rewrite !Hlen.
  rewrite (take_idx_length _ _ _ HtX), (take_idx_length _ _ _ HtT),
    (take_idx_length _ _ _ HtE), (take_idx_length _ _ _ HvT),
    (take_idx_length _ _ _ HvE), (take_idx_length _ _ _ HvX).
  do 5 (split; [done|]).
  split; [by eapply Hwid|]. split; [by eapply Hwid|]. split; [by eapply Hwid|].
  unfold new_table.
  rewrite decide_True
    by (by rewrite (take_idx_length _ _ _ HtT), (take_idx_length _ _ _ HtE)).
  by rewrite (take_idx_length _ _ _ HtT).
Qed.

End Valid.

Lemma take_idx_out_of_range {A} (a : list A) (idx : list nat) (i : nat) :
  i ∈ idx → (length a <= i)%nat → take_idx a idx = None.
Proof.
  intros Hin Hi. unfold take_idx. apply eq_None_not_Some.
  intros Hsome%mapM_is_Some. rewrite Forall_forall in Hsome.
  apply Hsome in Hin. simpl in Hin. apply lookup_lt_is_Some in Hin. lia.
Qed.

(** X16: an entry of [train_idx] or [test_idx] beyond the last row of
    [X_all] makes the preparation of the fold raise an IndexError at the
    outer split: nothing is allocated when the training indices are at
    fault, and only the copy of the outer training rows when the test
    indices are. *)
Theorem index_out_of_range_raises c g k train_idx test_idx h X i :
  h !! X_all g = Some (A2 X) →
  i ∈ train_idx ++ test_idx → (length X <= i)%nat →
  ∃ h',
    prepare_fold c g k train_idx test_idx h = (Raise IndexError, h')
    ∧ (h' = h ∨ ∃ outer, take_idx X train_idx = Some outer ∧ h' = h ++ [A2 outer]).
Proof.
  intros HX Hin Hi. unfold prepare_fold.
  destruct (take_idx X train_idx) as [outer|] eqn:Houter.
  - apply elem_of_app in Hin as [Hin|Hin];
      [by rewrite (take_idx_out_of_range X train_idx i) in Houter|].
    erewrite bind_ok.
    2:{ unfold fancy_index. erewrite bind_ok by (by apply read_at).
        simpl. rewrite Houter. simpl. reflexivity. }
    exists (h ++ [A2 outer]). split; [|right; by exists outer].
    unfold bind at 1. unfold fancy_index at 1.
    erewrite bind_ok by (apply read_at; by apply lookup_app_l_Some).
    simpl. by rewrite (take_idx_out_of_range X test_idx i).
  - exists h. split; [|by left].
    unfold bind at 1. unfold fancy_index at 1.
    erewrite bind_ok by (by apply read_at).
    simpl. by rewrite Houter.
Qed.

End FoldRows.

(** ** The header of a prediction table *)

Section TableHeader.
Context `{Collaborators}.

Lemma assoc_set_keys (name : string) (c : column) (cols : list (string * column)) :
  (assoc_set name c cols).*1
  = if decide (name ∈ cols.*1) then cols.*1 else cols.*1 ++ [name].
Proof.
  induction cols as [|[k v] cols IH].
  - simpl. by destruct (decide (name ∈ [])) as [Hin%elem_of_nil|].
  - cbn [assoc_set]. rewrite fmap_cons. cbn [fst].
    destruct (decide (k = name)) as [->|Hk].
    + rewrite fmap_cons. cbn [fst].
      destruct (decide (name ∈ name :: cols.*1)) as [|Hn]; [done|].
      exfalso. apply Hn. by left.
    + rewrite fmap_cons, IH. cbn [fst].
      destruct (decide (name ∈ cols.*1)) as [Hin|Hin];
        destruct (decide (name ∈ k :: cols.*1)) as [Hin'|Hin']; try done.
      * exfalso. apply Hin'. by right.
      * apply elem_of_cons in Hin' as [?|?]; [by subst|done].
Qed.

Lemma set_columns_keys {S} cif (cells : list (Z * (nat * pyfloat))) df (s : S)
    df' s' :
  for_in cells (λ cell df, set_column cif cell.1 cell.2.1 cell.2.2 df) df s
  = (Ok df', s') →
  NoDup (df_columns df).*1 →
  NoDup (df_columns df').*1
  ∧ (df_columns df).*1 `prefix_of` (df_columns df').*1
  ∧ (length (df_columns df') <= length (df_columns df) + length cells)%nat
  ∧ (NoDup ((df_columns df).*1
            ++ ((λ cell, column_name cell.1 cell.2.2) <$> cells)) →
     (df_columns df').*1
     = (df_columns df).*1 ++ ((λ cell, column_name cell.1 cell.2.2) <$> cells)).
Proof.
  revert df s. induction cells as [|cell cells IH]; intros df s; simpl.
  - intros [= <- <-] Hnd. split; [done|]. split; [done|]. split; [lia|].
    by rewrite app_nil_r.
  - intros (df1 & s1 & Hstep & Hrest)%bind_Ok_inv Hnd.
    apply set_column_inv in Hstep as (cif_r & values & _ & _ & _ & ->).
    pose proof (assoc_set_keys (column_name cell.1 cell.2.2) (FloatCol values)
                  (df_columns df)) as Hkeys.
    assert (Hnd1 : NoDup (assoc_set (column_name cell.1 cell.2.2) (FloatCol values)
                            (df_columns df)).*1).
    { rewrite Hkeys. case_decide; [done|].
      apply NoDup_app. split; [done|]. split; [|apply NoDup_singleton].
      intros x Hx ->%list_elem_of_singleton. done. }
    destruct (IH _ _ Hrest Hnd1) as (Hnd' & Hpre & Hlen & Hexact). simpl in *.
    split; [done|]. split; [|split].
    + etrans; [|exact Hpre]. rewrite Hkeys.
      case_decide; [done|]. by apply prefix_app_r.
    + apply (f_equal length) in Hkeys. rewrite !length_fmap in Hkeys.
      case_decide; rewrite ?length_app, ?length_fmap in Hkeys; simpl in Hkeys; lia.
    + intros Hall. rewrite Hkeys in Hexact.
      rewrite decide_False in Hexact.
      2:{ apply NoDup_app in Hall as (_ & Hdisj & _). intros Hin.
          apply (Hdisj _ Hin). by left. }
      rewrite <- app_assoc in Hexact. by apply Hexact.
Qed.

Lemma table_cells_length (n_risks : Z) (index : list pyfloat) :
  length (table_cells n_risks index) = (Z.to_nat n_risks * length index)%nat.
Proof.
  unfold table_cells.
  rewrite (bind_length _ _ (length index)), py_range_length; [done|].
  intros r. rewrite (bind_length _ _ 1%nat) by done.
  unfold enumerate. rewrite length_zip_with, length_seq. lia.
Qed.

(** X17: a table the script builds has pairwise distinct column names
    and begins with [time] and [delta]; it has at most
    [2 + num_risks * len(duration_index)] columns, and when the names
    [pred_event{r+1}_time{t}] are pairwise distinct its header is exactly
    [time], [delta] and then these names in the order of the two loops, risk
    by risk and within a risk cut point by cut point.  (A name that comes up
    twice overwrites the earlier column in place instead of adding one.) *)
Theorem table_header_in_loop_order {S} n_risks durations events index cif
    (s : S) df s' :
  build_table n_risks durations events index cif s = (Ok df, s') →
  let names := (λ cell, column_name cell.1 cell.2.2) <$> table_cells n_risks index in
  NoDup (df_columns df).*1
  ∧ take 2 (df_columns df).*1 = ["time"; "delta"]
  ∧ (length (df_columns df) <= 2 + Z.to_nat n_risks * length index)%nat
  ∧ (NoDup names → (df_columns df).*1 = "time" :: "delta" :: names).
Proof.
  rewrite build_table_flat.
  intros (df0 & s0 & Hnew & Hloop)%bind_Ok_inv names.
  unfold new_table in Hnew. case_decide; [|done]. injection Hnew as <- <-.
  apply set_columns_keys in Hloop as (Hnd & Hpre & Hlen & Hexact); simpl.
  2:{ apply NoDup_cons. split; [|apply NoDup_singleton].
      intros Hin%list_elem_of_singleton. discriminate. }
  simpl in *. rewrite table_cells_length in Hlen.
  assert (Hnames : NoDup names → NoDup ("time" :: "delta" :: names)).
  { intros Hn. apply NoDup_cons. split; [|apply NoDup_cons; split; [|done]].
    - intros [Heq|Hin]%elem_of_cons; [discriminate|].
      apply list_elem_of_fmap in Hin as (cell & Hname & _).
      by destruct (column_name_not_label cell.1 cell.2.2) as (? & _).
    - intros Hin. apply list_elem_of_fmap in Hin as (cell & Hname & _).
      by destruct (column_name_not_label cell.1 cell.2.2) as (_ & ? & _). }
  split; [done|]. split; [|split; [lia|]].
  - destruct Hpre as [k ->]. reflexivity.
  - intros Hn. by apply Hexact, Hnames.
Qed.

End TableHeader.

(** ** A fold that completes *)

Section FoldCompletes.
Context `{Collaborators}.

(** X18: a fold completes once its preparation and its search have, the
    search retained a model, the predicted incidences have the shape of the
    test fold (per risk one row per cut point, one value per test subject),
    the test concordance is defined, the test durations are numbers with at
    least two distinct event-1 times, and the Brier scores, one per grid
    time, are numbers between [lo] and [hi].  It then prints its six lines,
    writes exactly one table under the fold's file name, appends to
    [fold_c_indexes] the concordance of the survival table [1 - cif_test[0]]
    on the test labels, and appends to [fold_ibss] a number between [lo] and
    [hi]; the heap and the generator are as the preparation and the search
    left them. *)
Theorem fold_completes c g k sp w fd h' best r' p model cif0 ci (ts bs : list Q)
    (lo hi : Q) :
  let cif_test := predict_cif model (X_test fd) in
  let index := duration_index model in
  let ev := is_event1 (events_test_fold fd) in
  let time_grid := np_unique (mask_select (Finite <$> ts) ev) in
  prepare_fold c g k sp.1 sp.2 (w_heap w) = (Ok fd, h') →
  grid_search c g fd (w_rng w) = (Ok best, r') →
  best_params best = Some p → best_model best = Some model →
  length (durations_test_fold fd) = length (events_test_fold fd) →
  (∀ r t_idx t_val,
     0 ≤ r < num_risks g → index !! t_idx = Some t_val →
     ∃ cif_r values,
       cif_test !! Z.to_nat r = Some cif_r ∧ cif_r !! t_idx = Some values
       ∧ length values = length (durations_test_fold fd)) →
  cif_test !! 0%nat = Some cif0 → length cif0 = length index →
  durations_test_fold fd = Finite <$> ts →
  concordance_td (one_minus cif0) index (Finite <$> ts) ev = Some ci →
  (2 <= length time_grid)%nat →
  brier_score (one_minus cif0) index (Finite <$> ts) ev time_grid = Finite <$> bs →
  length bs = length time_grid →
  Forall (λ b, (lo <= b)%Q ∧ (b <= hi)%Q) bs →
  ∃ df v,
    build_table (num_risks g) (durations_test_fold fd) (events_test_fold fd)
      index cif_test w = (Ok df, w)
    ∧ (lo <= v)%Q ∧ (v <= hi)%Q
    ∧ run_fold c g k sp w
      = (Ok tt,
         {| w_heap := h'; w_rng := r';
            stdout :=
              stdout w
              ++ [Separator; TrainingFold (k + 1) 25; Separator;
                  BestParams (k + 1) p (best_val_c_index best);
                  TestCIndex (k + 1) ci;
                  TestIBS (k + 1) (Finite v)];
            written := written w ++ [(csv_file k, df)];
            fold_c_indexes := fold_c_indexes w ++ [ci];
            fold_ibss := fold_ibss w ++ [Finite v] |}).
Proof.
  intros cif_test index ev time_grid Hprep Hsearch Hp Hm Hlen Hcif Hcif0 Hlen0 Hts
    Hci Hgrid Hbrier Hbs Hrange.
  destruct (build_table_complete (num_risks g) (durations_test_fold fd)
              (events_test_fold fd) index cif_test w Hlen Hcif) as [df Hdf].
  set (w5 := {| w_heap := h'; w_rng := r';
                stdout := stdout w
                          ++ [Separator; TrainingFold (k + 1) 25; Separator;
                              BestParams (k + 1) p (best_val_c_index best);
                              TestCIndex (k + 1) ci];
                written := written w ++ [(csv_file k, df)];
                fold_c_indexes := fold_c_indexes w ++ [ci];
                fold_ibss := fold_ibss w |}).
  destruct (ibs_step_on_grid k (one_minus cif0) index ts ev bs w5
              Hgrid Hbrier Hbs)
    as (us & u0 & ul & _ & Hasc & Hbs' & Hu0 & Hul & Hpos & Hibs).
  destruct (trapezoid_mean_bounds lo hi us bs u0 ul Hasc Hbs' Hrange Hu0 Hul Hpos)
    as [Hlo Hhi].
  set (v := (foldl Qplus 0 (trapezoids bs us) / (ul + - u0))%Q) in *.
  exists df, v. split; [exact Hdf|]. split; [done|]. split; [done|].
  unfold run_fold, print, to_csv, append_c_index, on_heap, on_rng, zoom, modify,
    bind, lift_option, ret, raise, getitem, make_frame. simpl.
  rewrite Hprep. simpl. rewrite Hsearch. simpl. rewrite Hp, Hm. simpl.
  fold cif_test index.
  destruct (build_table_pure (S:=world) (num_risks g) (durations_test_fold fd)
              (events_test_fold fd) index cif_test) as [o Ho].
  rewrite Ho in Hdf. injection Hdf as ->. rewrite Ho. simpl.
  rewrite Hcif0. simpl. rewrite decide_True by done. simpl.
  rewrite Hts. fold ev. rewrite Hci. simpl. rewrite <- !app_assoc. simpl.
  etrans; [exact Hibs|]. unfold w5. simpl. by rewrite <- app_assoc.
Qed.

End FoldCompletes.

(** ** Further concrete runs *)

Section MoreRuns.
Existing Instance Demo.collaborators.

(** The times of [subjects]: 120 is stored as 114, the others as they are. *)
Lemma setup_clips_times_witness :
  setup Demo.subjects [] = (Ok Demo.tiny_globals, Demo.heap0)
  ∧ ∃ T, Demo.heap0 !! 0%nat = Some (A1f T)
         ∧ T !! 0%nat = Some (Finite 3)
         ∧ T !! 1%nat = Some (Finite 114).
Proof.
  assert (Hsetup : setup Demo.subjects [] = (Ok Demo.tiny_globals, Demo.heap0))
    by reflexivity.
  split; [exact Hsetup|].
  destruct (setup_clips_times Demo.subjects [] _ _ Hsetup)
    as (T & HT & _ & _ & Hin & Hout).
  exists T. split; [exact HT|]. split.
  - apply (Hin 0%nat 3%Q); [reflexivity|]. split; discriminate.
  - apply (Hout 1%nat 120%Q); reflexivity.
Defined.

(** The feature matrix of [subjects]: eight rows, two one-hot columns and one
    continuous column. *)
Lemma setup_feature_matrix_witness :
  ∃ g X,
    setup Demo.subjects [] = (Ok g, [A1f Demo.T0; A1i Demo.E0; A2 X])
    ∧ drop 2 <$> X = ds_cont Demo.subjects
    ∧ Forall (λ r, length r = 3%nat) X.
Proof.
  destruct (setup_feature_matrix Demo.subjects [])
    as (g & X & Hsetup & _ & _ & _ & Hcat & _ & _ & Hcont & Hwidth & _).
  - discriminate.
  - reflexivity.
  - repeat constructor.
  - exists g, X. split; [exact Hsetup|]. split; [by rewrite <- Hcont, Hcat|].
    assert (Hfeat : in_features g = 3%nat).
    { simpl in Hsetup. by injection Hsetup as <- _. }
    rewrite <- Hfeat. apply Hwidth. repeat constructor.
Defined.

(** The script on [blank_sheet]. *)
Lemma empty_sheet_stops_before_folds_witness :
  main Demo.small_config blank_sheet (initial_world 0%nat)
  = (Raise ValueError,
     {| w_heap := [A1f []; A1i []]; w_rng := 0%nat; stdout := []; written := [];
        fold_c_indexes := []; fold_ibss := [] |}).
Proof.
  apply (empty_sheet_stops_before_folds (H:=Demo.collaborators) Demo.small_config
           blank_sheet (initial_world (H:=Demo.collaborators) 0%nat)).
  reflexivity.
Defined.

(** A network for no risk: on one input row the batch norm of the shared
    network raises, on two rows [torch.stack] does. *)
Lemma forward_without_risks_witness :
  ∃ net r',
    CauseSpecificNet_init 3 [4; 3]%nat [3]%nat 0 3 true 0.5%Q 0%nat = (Ok net, r')
    ∧ risk_nets net = []
    ∧ forward zero_rows net [[Finite 1; Finite 0; Finite 10]] tt
      = (Raise ValueError, tt)
    ∧ forward zero_rows net [[Finite 1; Finite 0; Finite 10];
                              [Finite 0; Finite 1; Finite 20]] tt
      = (Raise RuntimeError, tt).
Proof.
  exists {| shared_net := (3, [4], 3, 0.5%Q, 0)%nat; risk_nets := [] |}, 1%nat.
  split; [reflexivity|].
  destruct (forward_without_risks (H:=Demo.collaborators) zero_rows
              3 [4; 3]%nat [3]%nat 0 3 true 0.5%Q 0%nat
              {| shared_net := (3, [4], 3, 0.5%Q, 0)%nat; risk_nets := [] |} 1%nat
              [[Finite 1; Finite 0; Finite 10]] tt)
    as (Hnil & _ & Hone & _); [reflexivity|lia|].
  destruct (forward_without_risks (H:=Demo.collaborators) zero_rows
              3 [4; 3]%nat [3]%nat 0 3 true 0.5%Q 0%nat
              {| shared_net := (3, [4], 3, 0.5%Q, 0)%nat; risk_nets := [] |} 1%nat
              [[Finite 1; Finite 0; Finite 10]; [Finite 0; Finite 1; Finite 20]] tt)
    as (_ & Htwo & _ & _); [reflexivity|lia|].
  split; [exact Hnil|]. split.
  - by apply Hone.
  - by eapply Htwo.
Defined.

(** A network for two risks and three cut points, on two input rows. *)
Lemma forward_stacks_risks_witness :
  ∃ net r' t,
    CauseSpecificNet_init 3 [4; 3]%nat [3]%nat 2 3 true 0.5%Q 0%nat = (Ok net, r')
    ∧ forward zero_rows net [[Finite 1; Finite 0; Finite 10];
                              [Finite 0; Finite 1; Finite 20]] tt = (Ok t, tt)
    ∧ length t = 2%nat
    ∧ Forall (λ rows, shape rows = [3; 3]%nat) t.
Proof.
  destruct (forward_stacks_risks (H:=Demo.collaborators) zero_rows
              3 [4; 3]%nat [3]%nat 2 3 true 0.5%Q 0%nat
              {| shared_net := (3, [4], 3, 0.5%Q, 0)%nat;
                 risk_nets := [(3, [3], 3, 0.5%Q, 1)%nat; (3, [3], 3, 0.5%Q, 2)%nat] |}
              3%nat
              [[Finite 1; Finite 0; Finite 10]; [Finite 0; Finite 1; Finite 20]]
              [[Finite 0; Finite 0; Finite 0]; [Finite 0; Finite 0; Finite 0]] tt)
    as (t & Ht & Hlen & Hshape & _).
  - reflexivity.
  - lia.
  - reflexivity.
  - reflexivity.
  - intros n Hin. simpl in Hin. rewrite !elem_of_cons, elem_of_nil in Hin.
    destruct Hin as [->|[->|[]]]; by eexists.
  - eexists _, _, t. split; [reflexivity|]. by repeat split.
Defined.

(** Three fold scores, the second one NaN. *)
Lemma nan_score_poisons_interval_witness :
  compute_confidence_interval [Finite 0.2; NaN; Finite 0.3] default_confidence tt
  = (Ok (NaN, NaN, NaN), tt).
Proof.
  apply (nan_score_poisons_interval (H:=Demo.collaborators)).
  apply elem_of_cons. right. apply elem_of_cons. by left.
Defined.

Lemma sqrt6_nonneg (q : Q) : (0 <= q)%Q → (0 <= Demo.sqrt6 q)%Q.
Proof.
  intros _. unfold Demo.sqrt6, Qle. simpl. rewrite Z.mul_1_r.
  apply Z.sqrt_nonneg.
Qed.

(** The five scores of the example at the default level, where the quantile
    is positive. *)
Lemma confidence_bounds_follow_quantile_sign_witness :
  ∃ mean lower upper,
    compute_confidence_interval (Finite <$> Demo.c_indexes) default_confidence tt
    = (Ok (Finite mean, Finite lower, Finite upper), tt)
    ∧ (lower <= mean)%Q ∧ (mean <= upper)%Q.
Proof.
  destruct (confidence_bounds_follow_quantile_sign (H:=Demo.collaborators)
              Demo.c_indexes default_confidence (6941 # 2500)%Q tt)
    as (se & mean & lower & upper & _ & Hcall & Hpos & _).
  - simpl. lia.
  - reflexivity.
  - exact sqrt6_nonneg.
  - reflexivity.
  - exists mean, lower, upper. split; [exact Hcall|]. apply Hpos. discriminate.
Defined.

(** Event-1 times 3, 7, 9 and 7 with the constant stand-in Brier score. *)
Lemma ibs_within_score_range_witness :
  ∃ v,
    ibs_step 0 [] [] (Finite <$> [3; 7; 9; 7]%Q) [true; true; true; true]
      Demo.world0
    = (Ok tt, {| w_heap := Demo.heap0; w_rng := 0%nat;
                 stdout := [TestIBS 1 (Finite v)]; written := [];
                 fold_c_indexes := []; fold_ibss := [Finite v] |})
    ∧ (v == 0.25)%Q.
Proof.
  destruct (ibs_within_score_range (H:=Demo.collaborators) 0 [] []
              [3; 7; 9; 7]%Q [true; true; true; true] [0.25; 0.25; 0.25]%Q
              0.25%Q 0.25%Q Demo.world0) as (v & Hstep & Hlo & Hhi).
  - vm_compute. lia.
  - reflexivity.
  - reflexivity.
  - repeat constructor; discriminate.
  - exists v. split; [exact Hstep|]. by apply Qle_antisym.
Defined.


(** The search of the fold [tiny_fold] retains a combination of the grid and
    the model built with it. *)
Lemma search_result_consistent_witness :
  ∃ best p model,
    grid_search Demo.small_config Demo.tiny_globals Demo.tiny_fold 0%nat
    = (Ok best, 16%nat)
    ∧ best_params best = Some p ∧ best_model best = Some model
    ∧ p ∈ combinations (grid Demo.small_config)
    ∧ dh_alpha model = hp_alpha p.
Proof.
  assert (Hsearch : grid_search Demo.small_config Demo.tiny_globals Demo.tiny_fold
                      0%nat = (Ok (select_best Demo.tiny_trials), 16%nat))
    by reflexivity.
  destruct (search_result_consistent (H:=Demo.collaborators) _ _ _ _ _ _ Hsearch)
    as [Hinit|(p & model & log & cif0 & Hp & Hm & _ & Hin & _ & Ha & _)].
  - discriminate Hinit.
  - exists (select_best Demo.tiny_trials), p, model. by repeat split.
Defined.

(** With a concordance that is NaN throughout, the first fold of [subjects]
    raises a TypeError after its banner. *)
Lemma unscored_fold_raises_witness :
  ∃ w',
    run_fold (H:=unscored) Demo.small_config Demo.tiny_globals 0 Demo.split0
      unscored_world = (Raise TypeError, w')
    ∧ stdout w' = [Separator; TrainingFold 1 25; Separator]
    ∧ written w' = [].
Proof.
  destruct (unscored_fold_raises (H:=unscored) Demo.small_config Demo.tiny_globals
              0 Demo.split0 unscored_world)
    as (e & w' & Hrun & Hout & Hwritten & _ & _ & Hexn).
  - intros fd h1 p r sc log m r' _ Htrial.
    apply (trial_Ok_inv (H:=unscored)) in Htrial
      as (net & r1 & cif0 & _ & _ & _ & _ & _ & _ & _ & _ & Hsc).
    simpl in Hsc. by injection Hsc as <-.
  - destruct (prepare_fold (H:=unscored) Demo.small_config Demo.tiny_globals 0
                Demo.split0.1 Demo.split0.2 (w_heap unscored_world))
      as [[fd|e'] h1] eqn:Hprep; [|discriminate Hprep].
    destruct (grid_search (H:=unscored) Demo.small_config Demo.tiny_globals fd
                (w_rng unscored_world)) as [[best|e'] r1] eqn:Hsearch.
    + destruct (Hexn fd h1 best r1 eq_refl Hsearch) as [_ ->].
      exists w'. by repeat split.
    + exfalso. revert Hsearch.
      injection Hprep as <- _. discriminate.
Defined.

Lemma holdout_disjoint (idx : list nat) (ts : Q) (st : list Z) (seed : Z) (i : nat) :
  i ∈ (Demo.holdout idx ts st seed).1 → i ∉ (Demo.holdout idx ts st seed).2.
Proof.
  unfold Demo.holdout. simpl.
  intros [Hne _]%list_elem_of_filter [Heq _]%list_elem_of_filter. done.
Qed.

(** The first fold of [subjects]: the rows the scaler is fitted on, the
    validation rows and the test rows come from disjoint global indices. *)
Lemma fold_rows_from_disjoint_indices_witness :
  prepare_fold Demo.small_config Demo.tiny_globals 0
    Demo.split0.1 Demo.split0.2 Demo.heap0 = (Ok subjects_fold, subjects_heap)
  ∧ ∃ fit_idx sel_idx : list nat,
      take_idx Demo.T0 sel_idx = Some ((y_val subjects_fold).1)
      ∧ (∀ i, i ∈ fit_idx → i ∈ Demo.split0.1 ∧ (i ∉ sel_idx) ∧ (i ∉ Demo.split0.2)).
Proof.
  assert (Hprep : prepare_fold Demo.small_config Demo.tiny_globals 0
                    Demo.split0.1 Demo.split0.2 Demo.heap0
                  = (Ok subjects_fold, subjects_heap)) by reflexivity.
  split; [exact Hprep|].
  destruct (fold_rows_from_disjoint_indices (H:=Demo.collaborators)
              Demo.small_config Demo.tiny_globals 0 Demo.split0.1 Demo.split0.2
              Demo.heap0 Demo.X0 Demo.T0 Demo.E0
              eq_refl eq_refl eq_refl eq_refl eq_refl
              (proj1 rows_in_range) (proj2 rows_in_range)
              holdout_members center_shape)
    as (fit_idx & sel_idx & Xfit & Xsel & _ & _ & Hfit & _ & _ & Hfacts).
  - simpl. repeat (apply NoDup_cons_2; [rewrite ?elem_of_cons, elem_of_nil; lia|]).
    apply NoDup_nil_2.
  - simpl. intros i. rewrite !elem_of_cons, !elem_of_nil. lia.
  - exact holdout_disjoint.
  - destruct (Hfacts _ _ Hprep) as (_ & _ & _ & HT & _).
    exists fit_idx, sel_idx. split; [exact HT|exact Hfit].
Defined.

(** The first fold of [subjects]: four test rows, three columns wide. *)
Lemma fold_arrays_row_aligned_witness :
  prepare_fold Demo.small_config Demo.tiny_globals 0
    Demo.split0.1 Demo.split0.2 Demo.heap0 = (Ok subjects_fold, subjects_heap)
  ∧ length (X_test subjects_fold) = 4%nat
  ∧ length (durations_test_fold subjects_fold) = 4%nat
  ∧ Forall (λ r, length r = 3%nat) (X_test subjects_fold).
Proof.
  assert (Hprep : prepare_fold Demo.small_config Demo.tiny_globals 0
                    Demo.split0.1 Demo.split0.2 Demo.heap0
                  = (Ok subjects_fold, subjects_heap)) by reflexivity.
  split; [exact Hprep|].
  destruct (fold_arrays_row_aligned (H:=Demo.collaborators)
              Demo.small_config Demo.tiny_globals 0 Demo.split0.1 Demo.split0.2
              Demo.heap0 Demo.X0 Demo.T0 Demo.E0
              eq_refl eq_refl eq_refl eq_refl eq_refl
              (proj1 rows_in_range) (proj2 rows_in_range)
              holdout_members center_shape unit tt 3%nat)
    as (_ & Hfacts).
  - repeat constructor.
  - destruct (Hfacts _ _ Hprep) as (HX & HT & _ & _ & _ & _ & _ & Hw & _).
    by repeat split.
Defined.

(** Row 9 of an eight-row matrix, asked for by the test index. *)
Lemma index_out_of_range_raises_witness :
  ∃ h',
    prepare_fold Demo.small_config Demo.tiny_globals 0 [1; 3]%nat [0; 9]%nat
      Demo.heap0 = (Raise IndexError, h')
    ∧ (h' = Demo.heap0
       ∨ ∃ outer, take_idx Demo.X0 [1; 3]%nat = Some outer
                  ∧ h' = Demo.heap0 ++ [A2 outer]).
Proof.
  apply (index_out_of_range_raises (H:=Demo.collaborators)
           Demo.small_config Demo.tiny_globals 0 [1; 3]%nat [0; 9]%nat
           Demo.heap0 Demo.X0 9%nat).
  - reflexivity.
  - rewrite !elem_of_app, !elem_of_cons. auto 10.
  - simpl. lia.
Defined.

(** A table for one risk, two cut points and two test subjects. *)
Lemma table_header_in_loop_order_witness :
  ∃ df,
    build_table 1 [Finite 3; Finite 7] [1; 0] [Finite 0; Finite 1]
      [[[Finite 0.1; Finite 0.2]; [Finite 0.3; Finite 0.4]]] tt = (Ok df, tt)
    ∧ (df_columns df).*1
      = ["time"; "delta"; "pred_event1_time0/1"; "pred_event1_time1/1"].
Proof.
  pose proof (table_header_in_loop_order (H:=Demo.collaborators)
                1 [Finite 3; Finite 7] [1; 0] [Finite 0; Finite 1]
                [[[Finite 0.1; Finite 0.2]; [Finite 0.3; Finite 0.4]]] tt) as Hthm.
  destruct (build_table 1 [Finite 3; Finite 7] [1; 0] [Finite 0; Finite 1]
              [[[Finite 0.1; Finite 0.2]; [Finite 0.3; Finite 0.4]]] tt)
    as [[df|e] []] eqn:Hbuild; [|vm_compute in Hbuild; discriminate Hbuild].
  exists df. split; [reflexivity|].
  destruct (Hthm df tt eq_refl) as (_ & _ & _ & Hheader).
  rewrite Hheader; [vm_compute; reflexivity|].
  vm_compute.
  repeat (apply NoDup_cons_2;
          [rewrite ?elem_of_cons, elem_of_nil; intros Hin;
           decompose [or] Hin; first [discriminate|contradiction]|]).
  apply NoDup_nil_2.
Defined.

(** The first fold of [cohort]: the test subjects have the event-1 times 3,
    7 and 9, the stand-in Brier score is 0.25 at each, and the fold
    completes. *)
Lemma fold_completes_witness :
  ∃ w' v,
    run_fold Demo.small_config Demo.tiny_globals 0 Demo.split0 cohort_world
    = (Ok tt, w')
    ∧ fold_ibss w' = [Finite v] ∧ (v == 0.25)%Q
    ∧ length (written w') = 1%nat.
Proof.
  destruct (fold_completes (H:=Demo.collaborators) Demo.small_config
              Demo.tiny_globals 0 Demo.split0 cohort_world
              cohort_fold cohort_heap cohort_best 16%nat
              {| hp_lr := 0.001; hp_alpha := 0.5; hp_sigma := 0.1;
                 hp_dropout := 0.5; hp_batch_size := 128 |}
              cohort_model
              (default [] (Demo.cif cohort_model (X_test cohort_fold) !! 0%nat))
              (Finite (1 # 12))
              [3; 7; 9; 7]%Q [0.25; 0.25; 0.25]%Q 0.25%Q 0.25%Q)
    as (df & v & _ & Hlo & Hhi & Hrun).
  - reflexivity.
  - reflexivity.
  - reflexivity.
  - reflexivity.
  - reflexivity.
  - intros r t_idx t_val Hr Ht. simpl in Hr.
    assert (Hcases : r = 0 ∨ r = 1) by lia.
    destruct t_idx as [|[|[|t_idx]]]; [| | |discriminate Ht];
      destruct Hcases as [-> | ->]; eexists _, _; repeat split; reflexivity.
  - reflexivity.
  - reflexivity.
  - reflexivity.
  - reflexivity.
  - vm_compute. lia.
  - reflexivity.
  - reflexivity.
  - repeat constructor; discriminate.
  - eexists _, v. split; [exact Hrun|]. split; [reflexivity|].
    split; [by apply Qle_antisym|reflexivity].
Defined.

End MoreRuns.

